(** * jester: discovery, execution, coverage and aggregation of bin/jester.js

    A shallow embedding of [bin/jester.js].  Asynchronous functions are
    modelled by what they do to the logger and to the host (a list of
    [event]s in program order) together with how their promise settles.
    Everything the script obtains from outside (the file system, the module
    loader, the inspector session, the clocks, the behaviour of the exported
    test functions and hooks) is an explicit input.

    A promise that rejects while nothing handles it does not end the
    process in the model (the runtime only warns); where the script leaves
    such a promise behind, the definitions say so. *)

From Stdlib Require Import List String Ascii ZArith NArith Bool Lia Permutation.
From Stdlib Require Import DecimalString DecimalN DecimalPos.
Import ListNotations.
Local Open Scope list_scope.

(** ** Thrown values *)

(** The script only ever asks one question of a thrown value:
    [err instanceof AssertionError]. *)
Inductive exn : Type :=
| AssertionError (message : string)
| TypeError (message : string)
| ReferenceError (message : string)
| OtherError (message : string).

Definition instanceof_AssertionError (err : exn) : bool :=
  match err with
  | AssertionError _ => true
  | _ => false
  end.

(** [Error.prototype.toString]: the name alone when the message is
    empty. *)
Definition name_and_message (name message : string) : string :=
  if String.eqb message "" then name else name ++ ": " ++ message.

(** [String(err)], as interpolated into a template literal.  An
    [AssertionError] has a [toString] of its own, which also shows its
    code. *)
Definition exn_to_string (err : exn) : string :=
  match err with
  | AssertionError m => "AssertionError [ERR_ASSERTION]: " ++ m
  | TypeError m => name_and_message "TypeError" m
  | ReferenceError m => name_and_message "ReferenceError" m
  | OtherError m => name_and_message "Error" m
  end.

(** ** Observable events

    Calls on the logger of the configuration ([Debug] ...
    [WriteTestingSummary]), calls into the code of a test module ([SetUp],
    [Invoke], [TearDown]) and requests answered by the host: the file
    system, the module loader and the inspector session.  [SetUp] and
    [TearDown] stand for the evaluation of [eachTestModule.setUp()] and of
    [eachTestModule.tearDown()], whatever the call then does. *)
Inductive event : Type :=
| Debug (message : string)
| Error (err : exn)
| ErrorMessage (message : string)
| WriteModuleHead (id : string)
| WriteAssertionResult (passed : bool) (assertionId : string) (skipped : bool)
| WriteModuleSummary (id : string) (total failed : nat)
| WriteTestingSummary (elapsed : Z) (failedModules totalModules : nat)
| SetUp (moduleId : string)
| Invoke (moduleId assertionId : string)
| TearDown (moduleId : string)
| Readdir (path : string)
| Stat (path : string)
| Import (specifier : string)
| Connect
| Disconnect
| Post (method : string)
| Unlink (path : string)
| WriteFile (path data : string).

(** The module-by-module report of a run. *)
Definition is_summary (e : event) : bool :=
  match e with
  | WriteModuleHead _ | WriteAssertionResult _ _ _
  | WriteModuleSummary _ _ _ | WriteTestingSummary _ _ _ => true
  | _ => false
  end.

Definition is_error_log (e : event) : bool :=
  match e with
  | Error _ | ErrorMessage _ => true
  | _ => false
  end.

(** ** Data model *)

(** What calling an assertion's [function] does, as far as [RunTests] can
    tell: it returns (or its promise fulfils), it throws synchronously, its
    promise rejects, or its promise does not settle while the process
    lives. *)
Inductive behaviour : Type :=
| Returns
| Throws (err : exn)
| Rejects (err : exn)
| Hangs.

(** One value of the [assertions] object whose properties can be read.
    Both may be missing; [function = None] stands for any value that cannot
    be called. *)
Record AssertionDef : Type := {
  function : option behaviour;
  skip : option bool
}.

(** The [assertions] export, listed in the order [for ... in] enumerates
    it (for an export that is not an object, what [for ... in] finds in
    it).  Nothing checks its values: a value can be [null] or [undefined]
    ([None]), of which no property can be read. *)
Definition TestAssertions : Type := list (string * option AssertionDef).

(** [setUp] and [tearDown] are whatever the module exports under these
    names, or the default [() => {}]: the [behaviour] is what evaluating
    the call does.  The call is not awaited, so only [Throws] differs from
    returning; a value that is not a function throws a [TypeError]. *)
Record TestModule : Type := {
  id : string;
  assertions : TestAssertions;
  setUp : behaviour;
  tearDown : behaviour
}.

Record AssertionResult : Type := {
  testModuleId : string;
  assertionId : string;
  result : bool;
  skipped : bool
}.

(** The fields of [Configure] the script reads (the logger is the event
    list). *)
Record Configure : Type := {
  exitAfter : bool;
  exitCode : Z;
  dryRun : bool;
  testDirs : list string;
  excludeDirs : list string;
  coverageEnabled : bool;
  coverageDir : string;
  clearCoverage : bool
}.

(** ** RunTests *)

(** Truthiness of a property that is either missing or a boolean. *)
Definition truthy (v : option bool) : bool :=
  match v with
  | Some true => true
  | _ => false
  end.

(** How the promise of one unit settles.  [resolve] after [reject] is a
    no-op, so a unit that called [reject] is [Rejected]; a unit that calls
    neither stays [Pending]. *)
Inductive settlement : Type :=
| Resolved (r : AssertionResult)
| Rejected (err : exn)
| Pending.

(** The executor of a unit runs synchronously up to its [await]; the rest
    runs in a later microtask. *)
Inductive phase : Type :=
| AtLaunch
| AfterAwait.

Record unit_run : Type := {
  launch : list event;
  resume : list event;
  settled : settlement;
  settled_in : phase
}.

Definition unit_events (u : unit_run) : list event := launch u ++ resume u.

Definition not_a_function : exn :=
  TypeError "eachTestModule.assertions[eachAssertionId].function is not a function".

(** The [catch] clause: the new value of [result], the logger calls, and the
    argument of [reject] if it was called. *)
Definition catch_clause (err : exn) (result : bool)
  : bool * list event * option exn :=
  if instanceof_AssertionError err
  then (false, [Error err], None)
  else (result, [], Some err).

(** Whether evaluating the call of a hook returns (anything) rather than
    throws. *)
Definition returns_normally (hook : behaviour) : bool :=
  match hook with
  | Throws _ => false
  | Returns | Rejects _ | Hangs => true
  end.

Definition cannot_read_skip : exn :=
  TypeError "Cannot read properties of undefined (reading 'skip')".

(** [config.dryRun || eachTestModule.assertions[eachAssertionId].skip ||
    false].  [||] evaluates its right operand only when the left one is
    falsy: in a dry run the value of the assertion is not looked at;
    otherwise reading [skip] from [null] or [undefined] throws. *)
Definition read_skipped (config : Configure) (v : option AssertionDef)
  : exn + bool :=
  match v with
  | Some def => inr (dryRun config || truthy (skip def) || false)
  | None => if dryRun config then inr true else inl cannot_read_skip
  end.

(** What [eachTestModule.assertions[eachAssertionId].function()] calls. *)
Definition called (v : option AssertionDef) : option behaviour :=
  match v with
  | Some def => function def
  | None => None
  end.

(** A throw outside the [try] rejects the promise of the [async] executor
    itself, which nothing looks at: neither [resolve] nor [reject] is called
    and the promise of the unit never settles. *)
Definition stuck (done : list event) : unit_run :=
  {| launch := done; resume := []; settled := Pending;
     settled_in := AtLaunch |}.

(** From [eachTestModule.tearDown()] to the end of the executor.  When
    [tearDown] throws, [resolve] is not reached; a unit that has called
    [reject] stays rejected, since [resolve] after [reject] does nothing
    anyway. *)
Definition tear_down_and_resolve (eachTestModule : TestModule)
    (eachAssertionId : string) (result skipped : bool) (rejected : option exn)
  : list event * settlement :=
  ([TearDown (id eachTestModule)],
   match rejected with
   | Some err => Rejected err
   | None =>
       if returns_normally (tearDown eachTestModule)
       then Resolved {| testModuleId := id eachTestModule;
                        assertionId := eachAssertionId;
                        result := result;
                        skipped := skipped |}
       else Pending
   end).

(** The body of [new Promise(async (resolve, reject) => ...)] for one
    assertion of one module.  The calls of [setUp] and of [tearDown] and the
    reading of [skip] are outside the [try]. *)
Definition run_unit (config : Configure) (eachTestModule : TestModule)
    (eachAssertionId : string) (v : option AssertionDef) : unit_run :=
  let mid := id eachTestModule in
  if negb (returns_normally (setUp eachTestModule)) then stuck [SetUp mid]
  else
    match read_skipped config v with
    | inl _ => stuck [SetUp mid]
    | inr skipped =>
        let result := skipped || true in
        let finish := tear_down_and_resolve eachTestModule eachAssertionId in
        if negb skipped then
          match called v with
          | None =>
              (* calling a non-function throws before anything is invoked *)
              let '(result, logged, rejected) :=
                catch_clause not_a_function result in
              let '(tail, s) := finish result skipped rejected in
              {| launch := SetUp mid :: logged ++ tail; resume := [];
                 settled := s; settled_in := AtLaunch |}
          | Some (Throws err) =>
              let '(result, logged, rejected) := catch_clause err result in
              let '(tail, s) := finish result skipped rejected in
              {| launch := SetUp mid :: Invoke mid eachAssertionId
                             :: logged ++ tail;
                 resume := []; settled := s; settled_in := AtLaunch |}
          | Some (Rejects err) =>
              let '(result, logged, rejected) := catch_clause err result in
              let '(tail, s) := finish result skipped rejected in
              {| launch := [SetUp mid; Invoke mid eachAssertionId];
                 resume := logged ++ tail; settled := s;
                 settled_in := AfterAwait |}
          | Some Returns =>
              let '(tail, s) := finish result skipped None in
              {| launch := [SetUp mid; Invoke mid eachAssertionId];
                 resume := tail; settled := s; settled_in := AfterAwait |}
          | Some Hangs =>
              {| launch := [SetUp mid; Invoke mid eachAssertionId];
                 resume := []; settled := Pending; settled_in := AfterAwait |}
          end
        else
          let '(tail, s) := finish result skipped None in
          {| launch := SetUp mid :: tail; resume := [];
             settled := s; settled_in := AtLaunch |}
    end.

(** The units in launch order: every assertion of every module. *)
Definition jobs (testModules : list TestModule)
  : list (TestModule * string * option AssertionDef) :=
  flat_map (fun tm => map (fun '(aid, v) => (tm, aid, v)) (assertions tm))
           testModules.

Definition run_job (config : Configure)
    (j : TestModule * string * option AssertionDef) : unit_run :=
  let '(tm, aid, v) := j in run_unit config tm aid v.

Definition units (config : Configure) (testModules : list TestModule)
  : list unit_run :=
  map (run_job config) (jobs testModules).

(** [Promise.all]: the values in array order when every promise fulfils. *)
Fixpoint all_resolved (us : list unit_run) : option (list AssertionResult) :=
  match us with
  | [] => Some []
  | u :: rest =>
      match settled u, all_resolved rest with
      | Resolved r, Some rs => Some (r :: rs)
      | _, _ => None
      end
  end.

Definition rejection_in (p : phase) (u : unit_run) : option exn :=
  match settled u, settled_in u, p with
  | Rejected err, AtLaunch, AtLaunch => Some err
  | Rejected err, AfterAwait, AfterAwait => Some err
  | _, _, _ => None
  end.

Fixpoint first_some {A B : Type} (f : A -> option B) (l : list A) : option B :=
  match l with
  | [] => None
  | a :: rest =>
      match f a with
      | Some b => Some b
      | None => first_some f rest
      end
  end.

(** [Promise.all] rejects with the reason of the first promise seen to
    reject: promises rejected while the units were being launched come
    first, in array order; the others follow in the order in which they
    reject, which for functions that settle within one tick is launch
    order. *)
Definition first_rejection (us : list unit_run) : option exn :=
  match first_some (rejection_in AtLaunch) us with
  | Some err => Some err
  | None => first_some (rejection_in AfterAwait) us
  end.

Inductive run_outcome : Type :=
| RunResolved (results : list AssertionResult) (elapsed : Z)
| RunRejected (err : exn)
| RunPending.

(** The calls made while [RunTests] runs: the synchronous part of every
    unit in launch order, then the continuations. *)
Definition run_trace (us : list unit_run) : list event :=
  flat_map launch us ++ flat_map resume us.

(** [RunTests(testModules, config)]; [initialTime] and [finalTime] are the
    two readings of [performance.now()]. *)
Definition RunTests (testModules : list TestModule) (config : Configure)
    (initialTime finalTime : Z) : list event * run_outcome :=
  let us := units config testModules in
  (run_trace us,
   match first_rejection us with
   | Some err => RunRejected err
   | None =>
       match all_resolved us with
       | Some results => RunResolved results (finalTime - initialTime)
       | None => RunPending
       end
   end).

(** ** Grouping and reporting (the end of [jester])

    [moduleResults] is an ordinary object used as a map from module ids to
    [{ assertionResults }].  It has own properties, kept here in insertion
    order, and a prototype.  The prototype matters for two keys: an
    assignment to ["__proto__"] replaces the prototype instead of creating
    an own property, and an own property ["hasOwnProperty"] shadows the
    method the loop calls. *)
Record module_results : Type := {
  own : list (string * list AssertionResult);
  proto : option (list AssertionResult)
}.

(** [const moduleResults = {}]: no own property, prototype
    [Object.prototype] ([proto = None]). *)
Definition empty_object : module_results := {| own := []; proto := None |}.

Fixpoint lookup_own (key : string) (props : list (string * list AssertionResult))
  : option (list AssertionResult) :=
  match props with
  | [] => None
  | (k, v) :: rest => if String.eqb k key then Some v else lookup_own key rest
  end.

Definition has_own (o : module_results) (key : string) : bool :=
  match lookup_own key (own o) with
  | Some _ => true
  | None => false
  end.

(** [moduleResults[key] = { assertionResults: [] }] for a key that is not an
    own property. *)
Definition set_fresh (o : module_results) (key : string) : module_results :=
  if String.eqb key "__proto__"
  then {| own := own o; proto := Some [] |}
  else {| own := own o ++ [(key, [])]; proto := proto o |}.

Fixpoint push_own (key : string) (r : AssertionResult)
    (props : list (string * list AssertionResult))
  : list (string * list AssertionResult) :=
  match props with
  | [] => []
  | (k, v) :: rest =>
      if String.eqb k key then (k, v ++ [r]) :: rest
      else (k, v) :: push_own key r rest
  end.

Definition cannot_read_assertionResults : exn :=
  TypeError "Cannot read properties of undefined (reading 'push')".

(** [moduleResults[key].assertionResults.push(r)].  Reading ["__proto__"]
    yields the prototype. *)
Definition push_result (o : module_results) (key : string) (r : AssertionResult)
  : exn + module_results :=
  if String.eqb key "__proto__" then
    match proto o with
    | Some l => inr {| own := own o; proto := Some (l ++ [r]) |}
    | None => inl cannot_read_assertionResults
    end
  else if has_own o key
  then inr {| own := push_own key r (own o); proto := proto o |}
  else inl cannot_read_assertionResults.

Definition hasOwnProperty_not_a_function : exn :=
  TypeError "moduleResults.hasOwnProperty is not a function".

(** One iteration of [for (const eachAssertionResult of assertionResults)]. *)
Definition group_step (moduleResults : module_results)
    (eachAssertionResult : AssertionResult) : exn + module_results :=
  let key := testModuleId eachAssertionResult in
  if has_own moduleResults "hasOwnProperty"
  then inl hasOwnProperty_not_a_function
  else
    let moduleResults :=
      if has_own moduleResults key then moduleResults
      else set_fresh moduleResults key in
    push_result moduleResults key eachAssertionResult.

Fixpoint group_results (moduleResults : module_results)
    (assertionResults : list AssertionResult) : exn + module_results :=
  match assertionResults with
  | [] => inr moduleResults
  | r :: rest =>
      match group_step moduleResults r with
      | inl err => inl err
      | inr moduleResults => group_results moduleResults rest
      end
  end.

(** *** [Object.entries]: array indices first, ascending, then the other
    keys in insertion order. *)

Definition digit_of (c : ascii) : option N :=
  let n := N_of_ascii c in
  if ((48 <=? n) && (n <=? 57))%N then Some (n - 48)%N else None.

Fixpoint parse_digits (s : string) (acc : N) : option N :=
  match s with
  | EmptyString => Some acc
  | String c rest =>
      match digit_of c with
      | Some d => parse_digits rest (10 * acc + d)%N
      | None => None
      end
  end.

(** A canonical numeric string below 2^32 - 1. *)
Definition array_index (key : string) : option N :=
  match key with
  | EmptyString => None
  | String c rest =>
      if Ascii.eqb c "0" && negb (String.eqb rest "") then None
      else
        match parse_digits key 0 with
        | Some n => if (n <? 2 ^ 32 - 1)%N then Some n else None
        | None => None
        end
  end.

Fixpoint insert_by_index {A : Type} (n : N) (a : A) (l : list (N * A))
  : list (N * A) :=
  match l with
  | [] => [(n, a)]
  | (m, b) :: rest =>
      if (n <? m)%N then (n, a) :: l else (m, b) :: insert_by_index n a rest
  end.

Fixpoint indexed_entries (props : list (string * list AssertionResult))
  : list (N * (string * list AssertionResult)) :=
  match props with
  | [] => []
  | (k, v) :: rest =>
      match array_index k with
      | Some n => insert_by_index n (k, v) (indexed_entries rest)
      | None => indexed_entries rest
      end
  end.

Definition named_entries (props : list (string * list AssertionResult))
  : list (string * list AssertionResult) :=
  filter (fun kv => match array_index (fst kv) with
                    | Some _ => false
                    | None => true
                    end) props.

Definition Object_entries (o : module_results)
  : list (string * list AssertionResult) :=
  map snd (indexed_entries (own o)) ++ named_entries (own o).

(** *** The reporting loops *)

(** The inner loop over one module's results: the logger calls and the
    final [failedAssertions]. *)
Fixpoint report_assertions (assertionResults : list AssertionResult)
    (failedAssertions : nat) : list event * nat :=
  match assertionResults with
  | [] => ([], failedAssertions)
  | r :: rest =>
      let failedAssertions :=
        if negb (result r) then S failedAssertions else failedAssertions in
      let '(evs, n) := report_assertions rest failedAssertions in
      (WriteAssertionResult (result r) (assertionId r) (skipped r) :: evs, n)
  end.

(** The outer loop over [Object.entries(moduleResults)]: the logger calls
    and the final [failedModules]. *)
Fixpoint report_modules (entries : list (string * list AssertionResult))
    (failedModules : nat) : list event * nat :=
  match entries with
  | [] => ([], failedModules)
  | (id, assertionResults) :: rest =>
      let '(evs, failedAssertions) := report_assertions assertionResults 0 in
      let failedModules :=
        if (0 <? failedAssertions)%nat then S failedModules else failedModules in
      let '(evs', n) := report_modules rest failedModules in
      (WriteModuleHead id :: evs
         ++ WriteModuleSummary id (List.length assertionResults) failedAssertions
         :: evs', n)
  end.

(** From [const moduleResults = {}] to the value assigned to
    [process.exitCode]: the logger calls and [failedModules], or the error
    thrown while grouping. *)
Definition aggregate (assertionResults : list AssertionResult)
    (testingTime : Z) (totalModules : nat) : exn + (list event * nat) :=
  match group_results empty_object assertionResults with
  | inl err => inl err
  | inr moduleResults =>
      let '(evs, failedModules) :=
        report_modules (Object_entries moduleResults) 0 in
      inr (evs ++ [WriteTestingSummary testingTime failedModules totalModules],
           failedModules)
  end.

(** What the claim about the exit code counts: the module ids, each once,
    that have at least one result with [result = false]. *)
Definition has_failure (id : string) (rs : list AssertionResult) : bool :=
  existsb (fun r => String.eqb (testModuleId r) id && negb (result r)) rs.

Definition failed_module_ids (rs : list AssertionResult) : list string :=
  filter (fun id => has_failure id rs)
         (nodup string_dec (map testModuleId rs)).

Definition failed_module_count (rs : list AssertionResult) : nat :=
  List.length (failed_module_ids rs).

(** ** Discovery *)

(** What [await import(...)] yields for a file: the properties of the module
    namespace the script looks at.  [None] stands for a missing (or
    otherwise falsy) export; an exported object, even one without
    properties, is truthy, and so is any hook that is kept: a function, or
    something else, which then throws when it is called. *)
Record Exports : Type := {
  export_assertions : option TestAssertions;
  export_id : option string;
  export_setUp : option behaviour;
  export_tearDown : option behaviour
}.

Inductive import_result : Type :=
| ImportFails (err : exn)
| Imported (module : Exports).

(** The file system below a directory, as [readdir], [stat] and [import]
    answer for it. *)
Inductive entry : Type :=
| StatFails (err : exn)
| IsFile (loaded : import_result)
| IsDirectory (content : directory)
with directory : Type :=
| ReaddirFails (err : exn)
| Entries (es : entries)
with entries : Type :=
| no_entries
| more (name : string) (e : entry) (rest : entries).

(** [s.split(sep)] for a one-character separator. *)
Fixpoint split (sep : ascii) (s : string) : list string :=
  match s with
  | EmptyString => [EmptyString]
  | String c rest =>
      if Ascii.eqb c sep then EmptyString :: split sep rest
      else
        match split sep rest with
        | seg :: segs => String c seg :: segs
        | [] => [String c EmptyString]
        end
  end.

(** [path.join], as on POSIX: the arguments that are not empty are joined by
    ["/"] and the result is normalised.  Empty and ["."] segments
    disappear, [".."] takes the segment before it away (at the start it is
    kept in a relative path and dropped in an absolute one), and a trailing
    ["/"] stays. *)
Fixpoint normalize_segments (allowAboveRoot : bool) (segments : list string)
    (res : list string) : list string :=
  match segments with
  | [] => rev res
  | segment :: rest =>
      if String.eqb segment "" || String.eqb segment "."
      then normalize_segments allowAboveRoot rest res
      else if String.eqb segment ".." then
        match res with
        | last :: before =>
            if String.eqb last ".."
            then normalize_segments allowAboveRoot rest
                   (if allowAboveRoot then segment :: res else res)
            else normalize_segments allowAboveRoot rest before
        | [] =>
            normalize_segments allowAboveRoot rest
              (if allowAboveRoot then [segment] else [])
        end
      else normalize_segments allowAboveRoot rest (segment :: res)
  end.

Definition starts_with_separator (path : string) : bool :=
  match path with
  | String c _ => Ascii.eqb c "/"
  | EmptyString => false
  end.

Fixpoint ends_with_separator (path : string) : bool :=
  match path with
  | EmptyString => false
  | String c EmptyString => Ascii.eqb c "/"
  | String _ rest => ends_with_separator rest
  end.

Definition normalize (path : string) : string :=
  if String.eqb path "" then "."
  else
    let isAbsolute := starts_with_separator path in
    let trailingSeparator := ends_with_separator path in
    let res :=
      String.concat "/"
        (normalize_segments (negb isAbsolute) (split "/" path) []) in
    if String.eqb res "" then
      if isAbsolute then "/" else if trailingSeparator then "./" else "."
    else
      (if isAbsolute then "/" else "") ++ res
        ++ (if trailingSeparator then "/" else "").

Definition join (dir name : string) : string :=
  if String.eqb dir "" then normalize name
  else if String.eqb name "" then normalize dir
  else normalize (dir ++ "/" ++ name).

(** [eachEntry.split('.').pop()] *)
Definition extension (eachEntry : string) : string :=
  last (split "." eachEntry) EmptyString.

(** [.replace(/\\/g, '/')] *)
Fixpoint replace_backslashes (s : string) : string :=
  match s with
  | EmptyString => EmptyString
  | String c rest =>
      String (if Ascii.eqb c "\" then "/"%char else c) (replace_backslashes rest)
  end.

(** [.replace(/c:/gi, '')] *)
Fixpoint remove_drive (s : string) : string :=
  match s with
  | String c ((String d rest) as tail) =>
      if (Ascii.eqb c "c" || Ascii.eqb c "C") && Ascii.eqb d ":"
      then remove_drive rest
      else String c (remove_drive tail)
  | _ => s
  end.

Definition specifier_of (fullPath : string) : string :=
  remove_drive (replace_backslashes fullPath).

(** The default-fill of an accepted record. *)
Definition fill_defaults (eachEntry : string) (module : Exports)
    (exported : TestAssertions) : TestModule :=
  {| id := match export_id module with
           | Some i => if String.eqb i "" then eachEntry else i
           | None => eachEntry
           end;
     assertions := exported;
     setUp := match export_setUp module with
              | Some exported => exported
              | None => Returns
              end;
     tearDown := match export_tearDown module with
                 | Some exported => exported
                 | None => Returns
                 end |}.

(** The logger and the shared [testModules] array. *)
Record discovery : Type := {
  log : list event;
  testModules : list TestModule
}.

Definition say (st : discovery) (evs : list event) : discovery :=
  {| log := log st ++ evs; testModules := testModules st |}.

Definition push_module (st : discovery) (m : TestModule) : discovery :=
  {| log := log st; testModules := testModules st ++ [m] |}.

Inductive completion : Type :=
| Fulfilled
| Failed (err : exn).

Definition failure (c : completion) : option exn :=
  match c with
  | Failed err => Some err
  | Fulfilled => None
  end.

(** [await Promise.all(functionFinished)] *)
Definition Promise_all (functionFinished : list completion) : completion :=
  match first_some failure functionFinished with
  | Some err => Failed err
  | None => Fulfilled
  end.

(** [GetEntries(dir, logger)]: the logger call, the answer of [readdir],
    and how the returned promise settles.  The function is not [async] and
    does not [await]: its [try] only surrounds the construction of the
    promise, so its [catch] block never runs and a failing [readdir] rejects
    the promise. *)
Definition GetEntries (dir : string) (d : directory)
  : list event * (exn + entries) :=
  ([Debug ("Looking in: " ++ dir); Readdir dir],
   match d with
   | ReaddirFails err => inl err
   | Entries es => inr es
   end).

(** [GetEntryStats(path, logger)], written like [GetEntries]: a failing
    [stat] rejects the promise.  A fulfilled promise carries the answer of
    [isDirectory()]. *)
Definition GetEntryStats (path : string) (e : entry)
  : list event * (exn + bool) :=
  ([Stat path],
   match e with
   | StatFails err => inl err
   | IsFile _ => inr false
   | IsDirectory _ => inr true
   end).

(** [FindTestModules(dir, logger, excludeDirs, testModules)].  The two
    helpers above are written out in it, so that the recursion follows the
    tree; [FindTestModules_GetEntries] and [for_each_entry_GetEntryStats]
    relate it to them.  An [await] of a rejected promise throws, and nothing
    in [FindTestModules] catches it.

    The recursive call for a subdirectory is started without [await] and
    goes on while the loop of its parent does.  The model runs it to its
    end where it is launched.  When every scan is fulfilled the model has
    the requests, the log lines and the modules of the program, each scan
    in its own order; but the order between what happens inside a
    subdirectory and what follows it in its parent is the host's in the
    program (which issues the next [stat] of the parent first) and fixed in
    the model.  A scan that fails is only noticed by its parent in
    [Promise.all]; when the scan of a root fails the program exits while
    other scans may still be under way, and the model shows those that
    were launched as completed.  The statements below are about what does
    not depend on that order; [FindTestModules_interleaved] has the
    order. *)
Fixpoint FindTestModules (excludeDirs : list string) (dir : string)
    (d : directory) (st : discovery) {struct d} : discovery * completion :=
  let st := say st [Debug ("Looking in: " ++ dir); Readdir dir] in
  match d with
  | ReaddirFails err => (st, Failed err)
  | Entries es => for_each_entry excludeDirs dir es [] st
  end
with for_each_entry (excludeDirs : list string) (dir : string)
    (es : entries) (functionFinished : list completion) (st : discovery)
    {struct es} : discovery * completion :=
  match es with
  | no_entries => (st, Promise_all functionFinished)
  | more eachEntry e rest =>
      let fullPath := join dir eachEntry in
      let st := say st [Stat fullPath] in
      match e with
      | StatFails err => (st, Failed err)
      | IsDirectory content =>
          if existsb (String.eqb fullPath) excludeDirs then
            for_each_entry excludeDirs dir rest functionFinished
              (say st [Debug (fullPath ++ " is excluded. Skipping...")])
          else
            let '(st, finished) :=
              FindTestModules excludeDirs fullPath content st in
            for_each_entry excludeDirs dir rest
              (functionFinished ++ [finished]) st
      | IsFile loaded =>
          if String.eqb (extension eachEntry) "js" then
            let st := say st [Debug ("Found file: " ++ fullPath);
                              Import (specifier_of fullPath)] in
            match loaded with
            | ImportFails error =>
                for_each_entry excludeDirs dir rest functionFinished
                  (say st [ErrorMessage ("Error importing: " ++ fullPath
                                           ++ ": " ++ exn_to_string error);
                           ErrorMessage "Skipping..."])
            | Imported module =>
                match export_assertions module with
                | Some exported =>
                    let module := fill_defaults eachEntry module exported in
                    for_each_entry excludeDirs dir rest functionFinished
                      (push_module
                         (say st [Debug ("Found module: " ++ id module)])
                         module)
                | None =>
                    for_each_entry excludeDirs dir rest functionFinished st
                end
            end
          else for_each_entry excludeDirs dir rest functionFinished st
      end
  end.

(** *** The scans of one call, interleaved

    The same function once more, with the turn of the event loop in which
    each thing happens.  A request ([readdir], [stat], [import]) issued in
    one turn is answered [1 + latency request] turns later, and the scan
    that waits for it then runs up to its next request; the scan of a
    subdirectory starts in the turn in which its parent meets the
    directory, and the parent goes on in that same turn.  What is answered
    in the same turn is served in the order of [done], the order of the
    program text, which for equal latencies is the order in which the
    requests were issued. *)
Inductive action : Type :=
| Say (e : event)
| Found (m : TestModule).

(** What has been done, each action with its turn. *)
Definition timeline : Type := list (nat * action).

(** How the promise of a scan settles: the turn and, for a rejection, the
    position in [done] of the step that throws. *)
Inductive settles : Type :=
| FulfilledAt (turn : nat)
| FailedAt (turn position : nat) (err : exn).

Definition earlier (turn position turn' position' : nat) : bool :=
  (turn <? turn') || ((turn =? turn') && (position <? position')).

(** [await Promise.all(functionFinished)], reached in turn [now].  A promise
    that is rejected by then rejects the whole, the first one in the array
    if there are several; otherwise the first one to be rejected later
    does; otherwise the whole is fulfilled when the last promise is. *)
Fixpoint already_rejected (now : nat) (functionFinished : list settles)
  : option exn :=
  match functionFinished with
  | [] => None
  | FailedAt turn _ err :: rest =>
      if turn <=? now then Some err else already_rejected now rest
  | FulfilledAt _ :: rest => already_rejected now rest
  end.

Fixpoint first_to_reject (functionFinished : list settles)
  : option (nat * nat * exn) :=
  match functionFinished with
  | [] => None
  | FulfilledAt _ :: rest => first_to_reject rest
  | FailedAt turn position err :: rest =>
      match first_to_reject rest with
      | Some (turn', position', err') =>
          if earlier turn' position' turn position
          then Some (turn', position', err')
          else Some (turn, position, err)
      | None => Some (turn, position, err)
      end
  end.

Fixpoint last_to_fulfil (now : nat) (functionFinished : list settles) : nat :=
  match functionFinished with
  | [] => now
  | FulfilledAt turn :: rest => Nat.max turn (last_to_fulfil now rest)
  | FailedAt _ _ _ :: rest => last_to_fulfil now rest
  end.

Definition Promise_all_at (now position : nat)
    (functionFinished : list settles) : settles :=
  match already_rejected now functionFinished with
  | Some err => FailedAt now position err
  | None =>
      match first_to_reject functionFinished with
      | Some (turn, position', err) => FailedAt turn position' err
      | None => FulfilledAt (last_to_fulfil now functionFinished)
      end
  end.

Definition at_turn (now : nat) (evs : list event) : timeline :=
  map (fun e => (now, Say e)) evs.

Section Interleaved.
Variable latency : event -> nat.

(** The turn in which a request issued in turn [now] is answered. *)
Definition answered (now : nat) (request : event) : nat :=
  now + S (latency request).

Fixpoint FindTestModules_timed (excludeDirs : list string) (dir : string)
    (d : directory) (now : nat) (done : timeline) {struct d}
  : timeline * settles :=
  let done :=
    done ++ at_turn now [Debug ("Looking in: " ++ dir); Readdir dir] in
  let now := answered now (Readdir dir) in
  match d with
  | ReaddirFails err => (done, FailedAt now (List.length done) err)
  | Entries es => for_each_entry_timed excludeDirs dir es now [] done
  end
with for_each_entry_timed (excludeDirs : list string) (dir : string)
    (es : entries) (now : nat) (functionFinished : list settles)
    (done : timeline) {struct es} : timeline * settles :=
  match es with
  | no_entries =>
      (done, Promise_all_at now (List.length done) functionFinished)
  | more eachEntry e rest =>
      let fullPath := join dir eachEntry in
      let done := done ++ at_turn now [Stat fullPath] in
      let now := answered now (Stat fullPath) in
      match e with
      | StatFails err => (done, FailedAt now (List.length done) err)
      | IsDirectory content =>
          if existsb (String.eqb fullPath) excludeDirs then
            for_each_entry_timed excludeDirs dir rest now functionFinished
              (done ++ at_turn now
                         [Debug (fullPath ++ " is excluded. Skipping...")])
          else
            let '(done, finished) :=
              FindTestModules_timed excludeDirs fullPath content now done in
            for_each_entry_timed excludeDirs dir rest now
              (functionFinished ++ [finished]) done
      | IsFile loaded =>
          if String.eqb (extension eachEntry) "js" then
            let done := done ++ at_turn now
                                  [Debug ("Found file: " ++ fullPath);
                                   Import (specifier_of fullPath)] in
            let now := answered now (Import (specifier_of fullPath)) in
            match loaded with
            | ImportFails error =>
                for_each_entry_timed excludeDirs dir rest now functionFinished
                  (done ++ at_turn now
                             [ErrorMessage ("Error importing: " ++ fullPath
                                              ++ ": " ++ exn_to_string error);
                              ErrorMessage "Skipping..."])
            | Imported module =>
                match export_assertions module with
                | Some exported =>
                    let module := fill_defaults eachEntry module exported in
                    for_each_entry_timed excludeDirs dir rest now
                      functionFinished
                      ((done ++ at_turn now
                                  [Debug ("Found module: " ++ id module)])
                         ++ [(now, Found module)])
                | None =>
                    for_each_entry_timed excludeDirs dir rest now
                      functionFinished done
                end
            end
          else for_each_entry_timed excludeDirs dir rest now functionFinished
                 done
      end
  end.
End Interleaved.

Arguments at_turn : simpl never.
Arguments answered : simpl never.

(** The actions in the order in which they happen: by turn, and within a
    turn as they are listed. *)
Fixpoint insert_by_turn (a : nat * action) (l : timeline) : timeline :=
  match l with
  | [] => [a]
  | b :: rest =>
      if fst a <=? fst b then a :: l else b :: insert_by_turn a rest
  end.

Definition in_order (l : timeline) : timeline :=
  fold_right insert_by_turn [] l.

(** What has happened when the step at [position] of turn [turn] throws:
    the actions of earlier turns, and those of this turn that are listed
    before it. *)
Fixpoint before (turn position : nat) (index : nat) (l : timeline)
  : timeline :=
  match l with
  | [] => []
  | a :: rest =>
      if earlier (fst a) index turn position
      then a :: before turn position (S index) rest
      else before turn position (S index) rest
  end.

Definition said (l : timeline) : list event :=
  flat_map (fun a => match snd a with Say e => [e] | Found _ => [] end) l.

Definition found (l : timeline) : list TestModule :=
  flat_map (fun a => match snd a with Found m => [m] | Say _ => [] end) l.

(** One call of [FindTestModules] by [jester], on an empty [testModules]:
    the log and the modules in the order in which they come, up to the
    moment at which the promise settles; when it rejects, [jester] exits
    and the scans that are still under way are cut short. *)
Definition FindTestModules_interleaved (latency : event -> nat)
    (excludeDirs : list string) (dir : string) (d : directory)
  : discovery * completion :=
  let '(done, s) := FindTestModules_timed latency excludeDirs dir d 0 [] in
  match s with
  | FulfilledAt _ =>
      ({| log := said (in_order done); testModules := found (in_order done) |},
       Fulfilled)
  | FailedAt turn position err =>
      let seen := in_order (before turn position 0 done) in
      ({| log := said seen; testModules := found seen |}, Failed err)
  end.

(** The loop over [config.testDirs] in [jester]: the roots are scanned one
    after the other, and the first rejection ends the loop.  [root] gives
    the directory found at a path. *)
Fixpoint discover (excludeDirs : list string) (cwd : string)
    (root : string -> directory) (dirs : list string) (st : discovery)
  : discovery * completion :=
  match dirs with
  | [] => (st, Fulfilled)
  | eachDirectory :: rest =>
      let dir := join cwd eachDirectory in
      match FindTestModules excludeDirs dir (root dir) st with
      | (st, Fulfilled) => discover excludeDirs cwd root rest st
      | (st, Failed err) => (st, Failed err)
      end
  end.


(** Everything inside an excluded directory replaced by an unreadable,
    empty placeholder. *)
Fixpoint prune_directory (excludeDirs : list string) (dir : string)
    (d : directory) {struct d} : directory :=
  match d with
  | ReaddirFails err => ReaddirFails err
  | Entries es => Entries (prune_entries excludeDirs dir es)
  end
with prune_entries (excludeDirs : list string) (dir : string) (es : entries)
    {struct es} : entries :=
  match es with
  | no_entries => no_entries
  | more name e rest =>
      more name
        (match e with
         | IsDirectory content =>
             if existsb (String.eqb (join dir name)) excludeDirs
             then IsDirectory (ReaddirFails (OtherError "excluded"))
             else IsDirectory (prune_directory excludeDirs (join dir name) content)
         | other => other
         end)
        (prune_entries excludeDirs dir rest)
  end.

(** ** Coverage *)

(** What the host answers during one run of the script. *)
Record host : Type := {
  cwd : string;
  root : string -> directory;
  performance_now : Z * Z;
  profiler_enable : option exn;
  profiler_startPreciseCoverage : option exn;
  profiler_takePreciseCoverage : exn + string;
  coverage_readdir : exn + list string;
  writeFile_error : option exn;
  Date_now : N
}.

Definition pathSep : string := "/".

(** [StartCoverage(session)]: no rejection is caught. *)
Definition StartCoverage (h : host) : list event * completion :=
  match profiler_enable h with
  | Some err => ([Post "Profiler.enable"], Failed err)
  | None =>
      ([Post "Profiler.enable"; Post "Profiler.startPreciseCoverage"],
       match profiler_startPreciseCoverage h with
       | Some err => Failed err
       | None => Fulfilled
       end)
  end.

Definition logger_is_not_defined : exn :=
  ReferenceError "logger is not defined".

(** The loop of [ClearCoverageDirectory] and how it ends.  The function
    has one parameter, [coverageDir], and the file declares no [logger]: at
    the first entry that is not [.gitignore], evaluating
    [logger.Debug(...)] throws a [ReferenceError], outside the [try],
    before [unlink] is reached. *)
Fixpoint remove_entries (coverageDir : string) (entries : list string)
  : completion :=
  match entries with
  | [] => Fulfilled
  | eachEntry :: rest =>
      if String.eqb eachEntry ".gitignore" then remove_entries coverageDir rest
      else
        let coverageFile := join coverageDir eachEntry in
        (* logger.Debug(`Removing ${coverageFile}`) *)
        Failed logger_is_not_defined
  end.

(** [ClearCoverageDirectory(coverageDir)]: its one request, and how its
    promise settles.  When [readdir] fails, [logger.Error(err)] throws the
    same [ReferenceError] inside the [catch] block. *)
Definition ClearCoverageDirectory (h : host) (coverageDir : string)
  : list event * completion :=
  ([Readdir coverageDir],
   match coverage_readdir h with
   | inl err => Failed logger_is_not_defined
   | inr entries => remove_entries coverageDir entries
   end).

Definition decimal (n : N) : string := NilZero.string_of_uint (N.to_uint n).

(** [WriteCoverageResults(session, logger, coverageDir, clearCoverage)].
    The call of [ClearCoverageDirectory] is not awaited: the first component
    is what the function itself does, the second what the detached clearing
    does, interleaved with everything that follows in an order the host
    decides.  Nothing handles the promise of the clearing; how it settles
    is the second component of [ClearCoverageDirectory]. *)
Definition WriteCoverageResults (h : host) (coverageDir : string)
    (clearCoverage : bool) : list event * list event :=
  let '(logged, data) :=
    match profiler_takePreciseCoverage h with
    | inl err => ([Error err], None)
    | inr data => ([], Some data)
    end in
  let posted := Post "Profiler.takePreciseCoverage" :: logged in
  match data with
  | None => (posted, [])
  | Some data =>
      let cleared :=
        if clearCoverage then fst (ClearCoverageDirectory h coverageDir)
        else [] in
      let coverageFile :=
        (coverageDir ++ pathSep ++ "coverage-" ++ decimal (Date_now h)
           ++ ".json")%string in
      (posted ++ [Debug ("Writing " ++ coverageFile);
                  WriteFile coverageFile data]
         ++ match writeFile_error h with
            | Some err => [Error err]
            | None => []
            end,
       cleared)
  end.

(** ** The script *)

(** How the process ends: [process.exit(code)] was called; the function ran
    to its end having set [process.exitCode]; a rejection left [jester]
    uncaught; or [jester] is still waiting for a promise that never
    settles. *)
Inductive status : Type :=
| Exit (code : Z)
| Done (exitCode : Z)
| Uncaught (err : exn)
| Stalled.

Record execution : Type := {
  trace : list event;
  detached : list event;
  final : status
}.

(** From [new Session()] on, given the discovered modules. *)
Definition test_and_report (config : Configure) (h : host)
    (found : list TestModule) : execution :=
  let '(started, coverage) :=
    if coverageEnabled config then StartCoverage h else ([], Fulfilled) in
  match coverage with
  | Failed err =>
      {| trace := Connect :: started; detached := []; final := Uncaught err |}
  | Fulfilled =>
      let '(ran, outcome) :=
        RunTests found config (fst (performance_now h))
                 (snd (performance_now h)) in
      match outcome with
      | RunRejected error =>
          {| trace := Connect :: started ++ ran ++ [Error error];
             detached := []; final := Exit (-1) |}
      | RunPending =>
          {| trace := Connect :: started ++ ran; detached := [];
             final := Stalled |}
      | RunResolved assertionResults testingTime =>
          let '(written, cleared) :=
            if coverageEnabled config
            then WriteCoverageResults h (coverageDir config)
                                      (clearCoverage config)
            else ([], []) in
          let before := Connect :: started ++ ran ++ written ++ [Disconnect] in
          match aggregate assertionResults testingTime (List.length found) with
          | inl err =>
              {| trace := before; detached := cleared; final := Uncaught err |}
          | inr (reported, failedModules) =>
              {| trace := before ++ reported; detached := cleared;
                 final := Done (Z.of_nat failedModules) |}
          end
      end
  end.

(** [let testModules = []], before anything is logged. *)
Definition nothing_found : discovery := {| log := []; testModules := [] |}.

(** [jester()] *)
Definition jester (config : Configure) (h : host) : execution :=
  if exitAfter config then
    {| trace := []; detached := []; final := Exit (exitCode config) |}
  else
    match discover (excludeDirs config) (cwd h) (root h) (testDirs config)
                   nothing_found with
    | (st, Failed error) =>
        {| trace := log st ++ [Error error]; detached := [];
           final := Exit (-1) |}
    | (st, Fulfilled) =>
        let rest := test_and_report config h (testModules st) in
        {| trace := log st ++ trace rest; detached := detached rest;
           final := final rest |}
    end.

(** ** Vocabulary of the statements *)

(** The value of [skipped] computed by a unit. *)
Definition skipped_of (config : Configure) (def : AssertionDef) : bool :=
  dryRun config || truthy (skip def) || false.

(** The unit never calls an assertion function. *)
Definition never_invoked (u : unit_run) : Prop :=
  forall m a, ~ In (Invoke m a) (unit_events u).

(** The assertion function is called ([setUp] has returned and the unit is
    not skipped) and throws, or rejects with, [err]. *)
Definition fails_with (config : Configure) (tm : TestModule)
    (def : AssertionDef) (err : exn) : Prop :=
  returns_normally (setUp tm) = true /\
  skipped_of config def = false /\
  (function def = Some (Throws err) \/ function def = Some (Rejects err)).

(** Every event of a list is of a given kind. *)
Definition only (kind : event -> bool) (evs : list event) : Prop :=
  forallb kind evs = true.

Definition from_discovery (e : event) : bool :=
  match e with
  | Debug _ | ErrorMessage _ | Readdir _ | Stat _ | Import _ => true
  | _ => false
  end.

Definition from_unit (e : event) : bool :=
  match e with
  | SetUp _ | Invoke _ _ | TearDown _ | Error _ => true
  | _ => false
  end.

Definition from_session (e : event) : bool :=
  match e with
  | Connect | Disconnect | Post _ => true
  | _ => false
  end.

Definition is_write (e : event) : bool :=
  match e with
  | WriteFile _ _ => true
  | _ => false
  end.

Definition is_unlink (e : event) : bool :=
  match e with
  | Unlink _ => true
  | _ => false
  end.

(** The files written, and the paths removed, in a list of events. *)
Definition writes (evs : list event) : list event := filter is_write evs.

Definition unlinked (evs : list event) : list string :=
  flat_map (fun e => match e with
                     | Unlink path => [path]
                     | _ => []
                     end) evs.

Definition snapshot_file (config : Configure) (h : host) : string :=
  coverageDir config ++ "/coverage-" ++ decimal (Date_now h) ++ ".json".

Definition sentinel : string := ".gitignore".

(** The entries of a listing other than the sentinel. *)
Definition removable (entries : list string) : list string :=
  filter (fun eachEntry => negb (String.eqb eachEntry sentinel)) entries.

(** The events of [StartCoverage], when coverage is enabled. *)
Definition started_events (config : Configure) (h : host) : list event :=
  if coverageEnabled config then fst (StartCoverage h) else [].

(** The same configuration with coverage switched off. *)
Definition without_coverage (config : Configure) : Configure :=
  {| exitAfter := exitAfter config;
     exitCode := exitCode config;
     dryRun := dryRun config;
     testDirs := testDirs config;
     excludeDirs := excludeDirs config;
     coverageEnabled := false;
     coverageDir := coverageDir config;
     clearCoverage := clearCoverage config |}.

(** Module ids that behave as plain keys of [moduleResults]. *)
Definition ordinary (key : string) : Prop :=
  key <> "__proto__"%string /\ key <> "hasOwnProperty"%string.

(** An entry of [moduleResults] with a failed assertion. *)
Definition fails (kv : string * list AssertionResult) : bool :=
  existsb (fun r => negb (result r)) (snd kv).

Definition of_module (key : string) (r : AssertionResult) : bool :=
  String.eqb (testModuleId r) key.

(** What [moduleResults] holds once the results [seen] have been grouped
    and every id met so far was an ordinary key. *)
Definition groups (seen : list AssertionResult) (o : module_results) : Prop :=
  proto o = None /\
  NoDup (map fst (own o)) /\
  forall k, lookup_own k (own o)
            = if in_dec string_dec k (map testModuleId seen)
              then Some (filter (of_module k) seen)
              else None.

(** A file of a listing is accepted when scanning it alone appends a
    module. *)
Definition accepted (dir name : string) (module : Exports) : Prop :=
  testModules
    (fst (for_each_entry [] dir
            (more name (IsFile (Imported module)) no_entries) []
            nothing_found)) <> [].

Definition exposes_nonempty_assertions (module : Exports) : Prop :=
  exists first others, export_assertions module = Some (first :: others).

Scheme entry_mut := Induction for entry Sort Prop
  with directory_mut := Induction for directory Sort Prop
  with entries_mut := Induction for entries Sort Prop.

(** ** Sample modules, trees and hosts *)

Definition passing : AssertionDef :=
  {| function := Some Returns; skip := None |}.

Definition violated : AssertionDef :=
  {| function := Some (Throws (AssertionError "1 == 2")); skip := None |}.

Definition crashing : AssertionDef :=
  {| function := Some (Throws (OtherError "boom")); skip := None |}.

Definition not_callable : AssertionDef :=
  {| function := None; skip := None |}.

(** An [assertions] object all of whose values are objects. *)
Definition objects (defs : list (string * AssertionDef)) : TestAssertions :=
  map (fun '(aid, def) => (aid, Some def)) defs.

Definition exporting (defs : list (string * AssertionDef)) : Exports :=
  {| export_assertions := Some (objects defs); export_id := None;
     export_setUp := None; export_tearDown := None |}.

Definition exporting_as (name : string) (defs : list (string * AssertionDef))
  : Exports :=
  {| export_assertions := Some (objects defs); export_id := Some name;
     export_setUp := None; export_tearDown := None |}.

Definition loaded_as (name : string) (defs : list (string * AssertionDef))
  : TestModule :=
  fill_defaults name (exporting defs) (objects defs).

(** A module that exports [assertions = { x: null }]. *)
Definition exporting_null : Exports :=
  {| export_assertions := Some [("x"%string, None)]; export_id := None;
     export_setUp := None; export_tearDown := None |}.

(** A module with one passing assertion whose [setUp] throws. *)
Definition exporting_throwing_setUp : Exports :=
  {| export_assertions := Some [("x"%string, Some passing)];
     export_id := None;
     export_setUp := Some (Throws (OtherError "no database"));
     export_tearDown := None |}.

Definition sample_config : Configure :=
  {| exitAfter := false; exitCode := 0; dryRun := false;
     testDirs := ["tests"%string]; excludeDirs := [];
     coverageEnabled := false; coverageDir := "coverage";
     clearCoverage := false |}.

Definition with_dryRun (config : Configure) : Configure :=
  {| exitAfter := exitAfter config; exitCode := exitCode config;
     dryRun := true; testDirs := testDirs config;
     excludeDirs := excludeDirs config;
     coverageEnabled := coverageEnabled config;
     coverageDir := coverageDir config;
     clearCoverage := clearCoverage config |}.

Definition with_coverage (config : Configure) : Configure :=
  {| exitAfter := exitAfter config; exitCode := exitCode config;
     dryRun := dryRun config; testDirs := testDirs config;
     excludeDirs := excludeDirs config;
     coverageEnabled := true;
     coverageDir := coverageDir config;
     clearCoverage := true |}.

Definition excluding (dirs : list string) (config : Configure) : Configure :=
  {| exitAfter := exitAfter config; exitCode := exitCode config;
     dryRun := dryRun config; testDirs := testDirs config;
     excludeDirs := dirs;
     coverageEnabled := coverageEnabled config;
     coverageDir := coverageDir config;
     clearCoverage := clearCoverage config |}.

(** A host whose only root is [/repo/tests] and where nothing else fails. *)
Definition sample_host (tree : directory) : host :=
  {| cwd := "/repo";
     root := fun path => if String.eqb path "/repo/tests" then tree
                         else ReaddirFails (OtherError "ENOENT");
     performance_now := (0, 7)%Z;
     profiler_enable := None;
     profiler_startPreciseCoverage := None;
     profiler_takePreciseCoverage := inr "{}"%string;
     coverage_readdir :=
       inr [".gitignore"; "coverage-1.json"; "coverage-2.json"]%string;
     writeFile_error := None;
     Date_now := 1700000000000 |}.

(** The same host with an inspector that refuses [Profiler.enable]. *)
Definition without_profiler (h : host) : host :=
  {| cwd := cwd h; root := root h; performance_now := performance_now h;
     profiler_enable := Some (OtherError "Profiler.enable failed");
     profiler_startPreciseCoverage := profiler_startPreciseCoverage h;
     profiler_takePreciseCoverage := profiler_takePreciseCoverage h;
     coverage_readdir := coverage_readdir h;
     writeFile_error := writeFile_error h;
     Date_now := Date_now h |}.

(** [a.js] with one passing assertion. *)
Definition one_passing_file : entries :=
  more "a.js" (IsFile (Imported (exporting [("one"%string, passing)])))
       no_entries.

(** [a.js] passes, [b.js] has one violated assertion. *)
Definition pass_and_fail : directory :=
  Entries
    (more "a.js" (IsFile (Imported (exporting [("one"%string, passing)])))
       (more "b.js" (IsFile (Imported (exporting [("one"%string, violated)])))
          no_entries)).

(** An entry that cannot be stat'ed, followed by [a.js]. *)
Definition dangling_then_a : directory :=
  Entries (more "gone" (StatFails (OtherError "ENOENT")) one_passing_file).

(** A subdirectory that cannot be listed, followed by [a.js]. *)
Definition locked_then_a : directory :=
  Entries (more "locked" (IsDirectory (ReaddirFails (OtherError "EACCES")))
                one_passing_file).

(** A file that fails to load, followed by [a.js]. *)
Definition broken_then_a : directory :=
  Entries (more "broken.js" (IsFile (ImportFails (OtherError "SyntaxError")))
                one_passing_file).

(** [fixtures/broken.js] fails to load; [a.js] is next to [fixtures]. *)
Definition with_fixtures (inside : entries) : directory :=
  Entries (more "fixtures" (IsDirectory (Entries inside)) one_passing_file).

Definition broken_fixture : entries :=
  more "broken.js" (IsFile (ImportFails (OtherError "SyntaxError")))
       no_entries.

Definition one_file (name : string) (defs : list (string * AssertionDef))
  : directory :=
  Entries (more name (IsFile (Imported (exporting defs))) no_entries).

(** [p.js] exports the id [__proto__] and one violated assertion. *)
Definition proto_named : directory :=
  Entries
    (more "p.js"
       (IsFile (Imported (exporting_as "__proto__" [("one"%string, violated)])))
       no_entries).

(** [h.js] exports the id [hasOwnProperty] and two passing assertions. *)
Definition hasOwnProperty_named : directory :=
  Entries
    (more "h.js"
       (IsFile (Imported (exporting_as "hasOwnProperty"
                            [("one"%string, passing);
                             ("two"%string, passing)])))
       no_entries).

(** [n.js] exports [assertions = { x: null }]. *)
Definition null_entry : directory :=
  Entries (more "n.js" (IsFile (Imported exporting_null)) no_entries).

(** [s.js] has one passing assertion and a [setUp] that throws. *)
Definition throwing_setUp : directory :=
  Entries (more "s.js" (IsFile (Imported exporting_throwing_setUp))
                no_entries).

Definition result_of (module assertion : string) (passed : bool)
  : AssertionResult :=
  {| testModuleId := module; assertionId := assertion;
     result := passed; skipped := false |}.

(** ** Vocabulary of the further properties *)

(** A unit that calls [reject]: [setUp] has returned, the unit is not
    skipped, and its function cannot be called or fails with something that
    is not an [AssertionError]. *)
Definition fatal (config : Configure) (tm : TestModule)
    (v : option AssertionDef) : bool :=
  returns_normally (setUp tm) &&
  match v with
  | Some def =>
      negb (skipped_of config def) &&
      match function def with
      | None => true
      | Some (Throws err) | Some (Rejects err) =>
          negb (instanceof_AssertionError err)
      | Some Returns | Some Hangs => false
      end
  | None => false
  end.

(** A unit that gets as far as calling [tearDown]. *)
Definition reaches_tearDown (config : Configure) (tm : TestModule)
    (v : option AssertionDef) : bool :=
  returns_normally (setUp tm) &&
  match v with
  | Some def =>
      skipped_of config def
      || match function def with
         | Some Hangs => false
         | _ => true
         end
  | None => dryRun config
  end.

(** A unit that never settles: it does not call [reject], and [setUp]
    throws, or there is nothing to read [skip] from, or the assertion
    function never settles, or [tearDown] throws. *)
Definition hanging (config : Configure) (tm : TestModule)
    (v : option AssertionDef) : bool :=
  negb (fatal config tm v) &&
  (negb (reaches_tearDown config tm v)
   || negb (returns_normally (tearDown tm))).

(** A unit whose function fails with an [AssertionError]. *)
Definition violating (config : Configure) (v : option AssertionDef) : bool :=
  match v with
  | Some def =>
      negb (skipped_of config def) &&
      match function def with
      | Some (Throws err) | Some (Rejects err) => instanceof_AssertionError err
      | _ => false
      end
  | None => false
  end.

Definition is_setUp (e : event) : bool :=
  match e with SetUp _ => true | _ => false end.

Definition is_tearDown (e : event) : bool :=
  match e with TearDown _ => true | _ => false end.

(** Both hooks of a module return. *)
Definition hooks_return (tm : TestModule) : bool :=
  returns_normally (setUp tm) && returns_normally (tearDown tm).

(** What a skipped unit does when the hooks return. *)
Definition skipped_unit (tm : TestModule) (aid : string) : unit_run :=
  {| launch := [SetUp (id tm); TearDown (id tm)]; resume := [];
     settled := Resolved {| testModuleId := id tm; assertionId := aid;
                            result := true; skipped := true |};
     settled_in := AtLaunch |}.

Definition is_proto (key : string) : bool := String.eqb key "__proto__".

Definition not_proto (r : AssertionResult) : bool :=
  negb (is_proto (testModuleId r)).

(** The own properties of [moduleResults] after one more result has been
    grouped. *)
Definition grouped_own (props : list (string * list AssertionResult))
    (r : AssertionResult) : list (string * list AssertionResult) :=
  let key := testModuleId r in
  if is_proto key then props
  else
    push_own key r
      (match lookup_own key props with
       | Some _ => props
       | None => props ++ [(key, [])]
       end).

Definition add_key (keys : list string) (key : string) : list string :=
  if in_dec string_dec key keys then keys else keys ++ [key].

(** Keys, each once, in the order in which they are first met. *)
Definition first_seen (keys : list string) : list string :=
  fold_left add_key keys [].

(** The logger call for one result. *)
Definition assertion_line (r : AssertionResult) : event :=
  WriteAssertionResult (result r) (assertionId r) (skipped r).

Definition is_assertion_line (e : event) : bool :=
  match e with WriteAssertionResult _ _ _ => true | _ => false end.

(** The ids passed to [WriteModuleHead], in order. *)
Definition module_heads (evs : list event) : list string :=
  flat_map (fun e => match e with WriteModuleHead i => [i] | _ => [] end) evs.

(** What is reported for the module [key] of a run with results [rs]. *)
Definition module_report (rs : list AssertionResult) (key : string)
  : list event :=
  let own := filter (of_module key) rs in
  WriteModuleHead key :: map assertion_line own
    ++ [WriteModuleSummary key (List.length own)
          (List.length (filter (fun r => negb (result r)) own))].

(** A state of discovery followed by what a scan adds to it. *)
Definition extend (st added : discovery) : discovery :=
  {| log := log st ++ log added;
     testModules := testModules st ++ testModules added |}.

(** Entries that can add a module or fail the scan: everything but a file
    that is not loaded, fails to load, or loads without [assertions]. *)
Definition contributes (name : string) (e : entry) : bool :=
  match e with
  | IsFile (Imported module) =>
      String.eqb (extension name) "js"
      && match export_assertions module with
         | Some _ => true
         | None => false
         end
  | IsFile (ImportFails _) => false
  | StatFails _ | IsDirectory _ => true
  end.

(** A tree without the entries that do not contribute. *)
Fixpoint contributing (d : directory) : directory :=
  match d with
  | ReaddirFails err => ReaddirFails err
  | Entries es => Entries (contributing_entries es)
  end
with contributing_entries (es : entries) : entries :=
  match es with
  | no_entries => no_entries
  | more name e rest =>
      if contributes name e then
        more name
             match e with
             | IsDirectory content => IsDirectory (contributing content)
             | other => other
             end
             (contributing_entries rest)
      else contributing_entries rest
  end.

(** The characters of a string. *)
Fixpoint chars (s : string) : list ascii :=
  match s with
  | EmptyString => []
  | String c rest => c :: chars rest
  end.

(** Requests that only coverage makes. *)
Definition touches_coverage (e : event) : bool :=
  match e with
  | Post _ | WriteFile _ _ | Unlink _ => true
  | _ => false
  end.

Definition from_writing (e : event) : bool :=
  match e with
  | Post _ | Error _ | Debug _ | WriteFile _ _ => true
  | _ => false
  end.

(** Calls into the test modules and lines of the report. *)
Definition is_test_event (e : event) : bool :=
  match e with
  | SetUp _ | Invoke _ _ | TearDown _ => true
  | other => is_summary other
  end.

(** The same host with an inspector that cannot take a snapshot. *)
Definition without_snapshot (h : host) : host :=
  {| cwd := cwd h; root := root h; performance_now := performance_now h;
     profiler_enable := profiler_enable h;
     profiler_startPreciseCoverage := profiler_startPreciseCoverage h;
     profiler_takePreciseCoverage := inl (OtherError "no snapshot");
     coverage_readdir := coverage_readdir h;
     writeFile_error := writeFile_error h;
     Date_now := Date_now h |}.

Definition is_fulfilled (s : settles) : bool :=
  match s with
  | FulfilledAt _ => true
  | FailedAt _ _ _ => false
  end.

(** A timed scan and a scan of the model that runs them one after the
    other settle alike. *)
Definition agree (s : settles) (c : completion) : Prop :=
  is_fulfilled s = true <-> c = Fulfilled.

(** They have done the same, in the order of the program text. *)
Definition same (done : timeline) (st : discovery) : Prop :=
  said done = log st /\ found done = testModules st.

(** [sub/s.js] and, next to [sub], [z.js]. *)
Definition sub_then_z : directory :=
  Entries
    (more "sub" (IsDirectory (one_file "s.js" [("one"%string, passing)]))
       (more "z.js" (IsFile (Imported (exporting [("one"%string, passing)])))
          no_entries)).

(** The same host with a coverage directory that holds only the sentinel
    and a disk on which nothing can be written. *)
Definition clean_and_full (h : host) : host :=
  {| cwd := cwd h; root := root h; performance_now := performance_now h;
     profiler_enable := profiler_enable h;
     profiler_startPreciseCoverage := profiler_startPreciseCoverage h;
     profiler_takePreciseCoverage := profiler_takePreciseCoverage h;
     coverage_readdir := inr [".gitignore"%string];
     writeFile_error := Some (OtherError "ENOSPC");
     Date_now := Date_now h |}.

(** * Properties *)

(** ** Lists *)

Section Lists.
Context {A B : Type}.

Lemma first_some_None (f : A -> option B) (l : list A) :
  first_some f l = None <-> forall a, In a l -> f a = None.
Proof.
  induction l as [|a l IH]; simpl.
  - split; [intros _ a [] | reflexivity].
  - destruct (f a) eqn:Fa.
    + split; [discriminate | intros H; rewrite <- Fa; apply H; now left].
    + rewrite IH. split.
      * intros H x [<- | Hx]; auto.
      * intros H x Hx. apply H. now right.
Qed.

Lemma first_some_Some (f : A -> option B) (l : list A) (b : B) :
  first_some f l = Some b -> exists a, In a l /\ f a = Some b.
Proof.
  induction l as [|a l IH]; simpl; [discriminate|].
  destruct (f a) eqn:Fa.
  - intros [= <-]. exists a. auto.
  - intros H. destruct (IH H) as (x & Hx & Fx). exists x. auto.
Qed.

Lemma Forall2_map_l {C : Type} (f : A -> B) (P : B -> C -> Prop)
    (l : list A) (l' : list C) :
  Forall2 P (map f l) l' <-> Forall2 (fun a c => P (f a) c) l l'.
Proof.
  revert l'. induction l as [|a l IH]; intros l'; simpl.
  - split; inversion 1; constructor.
  - split; inversion 1; subst; constructor; auto; now apply IH.
Qed.

Lemma filter_none (f : A -> bool) (l : list A) :
  (forall x, In x l -> f x = false) -> filter f l = [].
Proof.
  induction l as [|a l IH]; intros H; simpl; [reflexivity|].
  rewrite (H a (or_introl eq_refl)). apply IH. intros x Hx. apply H.
  now right.
Qed.

Lemma filter_length_perm (f : A -> bool) (l l' : list A) :
  Permutation l l' ->
  List.length (filter f l) = List.length (filter f l').
Proof.
  induction 1 as [|a l l' _ IH|a b l|l l' l'' _ IH1 _ IH2]; simpl.
  - reflexivity.
  - destruct (f a); simpl; congruence.
  - destruct (f a), (f b); reflexivity.
  - congruence.
Qed.

Lemma filter_nonempty_existsb (f : A -> bool) (l : list A) :
  (0 <? List.length (filter f l))%nat = existsb f l.
Proof.
  induction l as [|a l IH]; simpl; [reflexivity|].
  destruct (f a); simpl; [reflexivity | exact IH].
Qed.
End Lists.

(** ** Kinds of events *)

Lemma only_app (kind : event -> bool) (l l' : list event) :
  only kind (l ++ l') <-> only kind l /\ only kind l'.
Proof. unfold only. rewrite forallb_app. apply andb_true_iff. Qed.

Lemma only_weaken (kind kind' : event -> bool) (l : list event) :
  (forall e, kind e = true -> kind' e = true) -> only kind l -> only kind' l.
Proof.
  unfold only. rewrite !forallb_forall. auto.
Qed.

Lemma only_In (kind : event -> bool) (l : list event) (e : event) :
  only kind l -> In e l -> kind e = true.
Proof. unfold only. rewrite forallb_forall. auto. Qed.

Lemma only_flat_map {A : Type} (kind : event -> bool) (f : A -> list event)
    (l : list A) :
  (forall a, In a l -> only kind (f a)) -> only kind (flat_map f l).
Proof.
  induction l as [|a l IH]; intros H; simpl; [reflexivity|].
  apply only_app. split; [apply H; now left|].
  apply IH. intros x Hx. apply H. now right.
Qed.

Lemma only_say (kind : event -> bool) (st : discovery) (evs : list event) :
  only kind (log st) -> only kind evs -> only kind (log (say st evs)).
Proof. intros. simpl. apply only_app. auto. Qed.

(** Splits a goal about the kind of a list built with [say] and [++]. *)
Ltac kinds :=
  repeat first
    [ assumption
    | match goal with
      | |- only _ (log (say _ _)) => apply only_say
      | |- only _ (log (push_module _ _)) => unfold push_module; simpl log
      | |- only _ (_ ++ _) => apply only_app; split
      end
    | reflexivity ].

Lemma writes_only (kind : event -> bool) (l : list event) :
  (forall e, kind e = true -> is_write e = false) ->
  only kind l -> writes l = [].
Proof.
  intros Hk Hl. apply filter_none. intros e He.
  apply Hk. eapply only_In; eauto.
Qed.

Lemma unlinked_only (kind : event -> bool) (l : list event) :
  (forall e, kind e = true -> is_unlink e = false) ->
  only kind l -> unlinked l = [].
Proof.
  intros Hk. unfold unlinked.
  induction l as [|e l IH]; intros Hl; simpl; [reflexivity|].
  change (e :: l) with ([e] ++ l) in Hl. apply only_app in Hl as [He Hl].
  rewrite (IH Hl). unfold only in He. simpl in He.
  rewrite andb_true_r in He. apply Hk in He. now destruct e.
Qed.

Lemma unlinked_app (l l' : list event) :
  unlinked (l ++ l') = unlinked l ++ unlinked l'.
Proof. apply flat_map_app. Qed.

Lemma unlinked_cons (e : event) (l : list event) :
  unlinked (e :: l)
  = match e with
    | Unlink path => path :: unlinked l
    | _ => unlinked l
    end.
Proof. now destruct e. Qed.

Lemma writes_app (l l' : list event) :
  writes (l ++ l') = writes l ++ writes l'.
Proof. apply filter_app. Qed.

Lemma writes_cons (e : event) (l : list event) :
  writes (e :: l) = if is_write e then e :: writes l else writes l.
Proof. reflexivity. Qed.

(** ** Units *)

Lemma rejection_in_Some (p : phase) (u : unit_run) (err : exn) :
  rejection_in p u = Some err -> settled u = Rejected err.
Proof.
  unfold rejection_in.
  destruct (settled u), (settled_in u), p; congruence.
Qed.

Lemma rejection_in_own_phase (u : unit_run) (err : exn) :
  settled u = Rejected err -> rejection_in (settled_in u) u = Some err.
Proof.
  unfold rejection_in. intros ->. now destruct (settled_in u).
Qed.

Lemma first_rejection_sound (us : list unit_run) (err : exn) :
  first_rejection us = Some err ->
  exists u, In u us /\ settled u = Rejected err.
Proof.
  unfold first_rejection.
  destruct (first_some (rejection_in AtLaunch) us) eqn:E.
  - intros [= <-]. apply first_some_Some in E as (u & Hu & Hr).
    exists u. eauto using rejection_in_Some.
  - intros H. apply first_some_Some in H as (u & Hu & Hr).
    exists u. eauto using rejection_in_Some.
Qed.

Lemma first_rejection_complete (us : list unit_run) (u : unit_run)
    (err : exn) :
  In u us -> settled u = Rejected err ->
  exists err', first_rejection us = Some err'.
Proof.
  intros Hu Hs. unfold first_rejection.
  destruct (first_some (rejection_in AtLaunch) us) eqn:E1; [eauto|].
  destruct (first_some (rejection_in AfterAwait) us) eqn:E2; [eauto|].
  exfalso.
  rewrite first_some_None in E1, E2.
  specialize (E1 u Hu). specialize (E2 u Hu).
  apply rejection_in_own_phase in Hs.
  destruct (settled_in u); congruence.
Qed.

Lemma all_resolved_Forall2 (us : list unit_run) (rs : list AssertionResult) :
  all_resolved us = Some rs ->
  Forall2 (fun u r => settled u = Resolved r) us rs.
Proof.
  revert rs. induction us as [|u us IH]; simpl; intros rs.
  - intros [= <-]. constructor.
  - destruct (settled u) eqn:Su; try discriminate.
    destruct (all_resolved us) as [rs'|]; try discriminate.
    intros [= <-]. constructor; auto.
Qed.

Lemma In_jobs (found : list TestModule) (tm : TestModule) (aid : string)
    (v : option AssertionDef) :
  In (tm, aid, v) (jobs found) <->
  In tm found /\ In (aid, v) (assertions tm).
Proof.
  unfold jobs. rewrite in_flat_map. split.
  - intros (m & Hm & Hin).
    apply in_map_iff in Hin as ([a d] & [= <- <- <-] & Hin). auto.
  - intros [Hm Hin]. exists tm. split; [assumption|].
    apply in_map_iff. exists (aid, v). auto.
Qed.

Lemma In_units (config : Configure) (found : list TestModule)
    (tm : TestModule) (aid : string) (v : option AssertionDef) :
  In tm found -> In (aid, v) (assertions tm) ->
  In (run_unit config tm aid v) (units config found).
Proof.
  intros Hm Ha. unfold units. apply in_map_iff. exists (tm, aid, v).
  split; [reflexivity|]. apply In_jobs. auto.
Qed.

Lemma units_inv (config : Configure) (found : list TestModule)
    (u : unit_run) :
  In u (units config found) ->
  exists tm aid v,
    u = run_unit config tm aid v /\ In tm found /\ In (aid, v) (assertions tm).
Proof.
  unfold units. intros Hu.
  apply in_map_iff in Hu as ([[tm aid] v] & <- & Hj).
  apply In_jobs in Hj. exists tm, aid, v. tauto.
Qed.

Lemma skipped_of_true (config : Configure) (def : AssertionDef) :
  skipped_of config def = true <->
  dryRun config = true \/ skip def = Some true.
Proof.
  unfold skipped_of, truthy.
  destruct (dryRun config), (skip def) as [[|]|]; simpl;
    intuition congruence.
Qed.

Lemma read_skipped_object (config : Configure) (def : AssertionDef) :
  read_skipped config (Some def) = inr (skipped_of config def).
Proof. reflexivity. Qed.

(** What is read is [true] exactly in a dry run or at an entry marked
    [skip]. *)
Lemma read_skipped_true (config : Configure) (v : option AssertionDef) :
  read_skipped config v = inr true <->
  dryRun config = true \/ exists def, v = Some def /\ skip def = Some true.
Proof.
  destruct v as [def|]; simpl.
  - fold (skipped_of config def). split.
    + intros [= H]. apply skipped_of_true in H as [H | H]; eauto.
    + intros [H | (d & [= <-] & H)]; f_equal; apply skipped_of_true; auto.
  - destruct (dryRun config); split; try discriminate; auto.
    intros [H | (d & H & _)]; discriminate.
Qed.

(** A unit with nothing to run, between hooks that return. *)
Lemma run_unit_skipped (config : Configure) (tm : TestModule) (aid : string)
    (v : option AssertionDef) :
  read_skipped config v = inr true ->
  hooks_return tm = true ->
  run_unit config tm aid v = skipped_unit tm aid.
Proof.
  unfold run_unit, hooks_return, tear_down_and_resolve, skipped_unit.
  intros -> [-> ->]%andb_true_iff. reflexivity.
Qed.

Lemma skipped_unit_never_invokes (config : Configure) (tm : TestModule)
    (aid : string) (v : option AssertionDef) :
  read_skipped config v = inr true ->
  never_invoked (run_unit config tm aid v).
Proof.
  intros H m a. unfold unit_events, run_unit, stuck. rewrite H.
  destruct (returns_normally (setUp tm)); simpl; intuition discriminate.
Qed.

(** Case analysis on what a unit does: the hooks, what is read for
    [skipped], and what the function does. *)
Ltac by_behaviour def :=
  destruct (function def) as [[|?err|?err|]|];
  cbv beta iota delta [catch_clause]; simpl;
  try match goal with
      | |- context [if instanceof_AssertionError ?e then _ else _] =>
          destruct (instanceof_AssertionError e) eqn:?; simpl
      end.

Ltac by_unit config tm v :=
  unfold run_unit, stuck, tear_down_and_resolve, read_skipped, called;
  destruct (returns_normally (setUp tm)) eqn:?; simpl;
  [ destruct v as [?def|];
    [ match goal with
      | def : AssertionDef |- _ =>
          fold (skipped_of config def);
          destruct (skipped_of config def) eqn:?; simpl;
          [ | by_behaviour def ]
      end
    | destruct (dryRun config) eqn:?; simpl ];
    try (destruct (returns_normally (tearDown tm)) eqn:?; simpl)
  | ].

Lemma run_unit_resolved (config : Configure) (tm : TestModule) (aid : string)
    (v : option AssertionDef) (r : AssertionResult) :
  settled (run_unit config tm aid v) = Resolved r ->
  testModuleId r = id tm /\ assertionId r = aid /\
  read_skipped config v = inr (skipped r) /\
  hooks_return tm = true.
Proof.
  unfold hooks_return.
  by_unit config tm v; try discriminate; intros [= <-]; simpl;
    repeat split; congruence.
Qed.

Lemma run_unit_rejected (config : Configure) (tm : TestModule) (aid : string)
    (v : option AssertionDef) (err : exn) :
  settled (run_unit config tm aid v) = Rejected err ->
  instanceof_AssertionError err = false.
Proof.
  by_unit config tm v; try discriminate; intros [= <-];
    first [assumption | reflexivity].
Qed.

Lemma run_unit_events (config : Configure) (tm : TestModule) (aid : string)
    (v : option AssertionDef) :
  only from_unit (launch (run_unit config tm aid v)) /\
  only from_unit (resume (run_unit config tm aid v)).
Proof.
  by_unit config tm v; split; reflexivity.
Qed.

Lemma RunTests_events (found : list TestModule) (config : Configure)
    (t0 t1 : Z) :
  only from_unit (fst (RunTests found config t0 t1)).
Proof.
  unfold RunTests, run_trace, units. simpl. apply only_app.
  split; apply only_flat_map; intros u Hu;
    apply in_map_iff in Hu as ([[tm aid] v] & <- & _);
    apply run_unit_events.
Qed.

Lemma rejected_unit_rejects_run (config : Configure) (found : list TestModule)
    (t0 t1 : Z) (tm : TestModule) (aid : string) (v : option AssertionDef)
    (err : exn) :
  In tm found -> In (aid, v) (assertions tm) ->
  settled (run_unit config tm aid v) = Rejected err ->
  exists e, snd (RunTests found config t0 t1) = RunRejected e /\
            instanceof_AssertionError e = false.
Proof.
  intros Hm Ha Hs.
  pose proof (In_units config found tm aid v Hm Ha) as Hu.
  destruct (first_rejection_complete _ _ _ Hu Hs) as [e He].
  exists e. unfold RunTests. simpl. rewrite He. split; [reflexivity|].
  apply first_rejection_sound in He as (u & Hin & Hr).
  apply units_inv in Hin as (m & a & d & -> & _).
  eapply run_unit_rejected. exact Hr.
Qed.

Lemma run_unit_settled (config : Configure) (tm : TestModule) (aid : string)
    (v : option AssertionDef) :
  match settled (run_unit config tm aid v) with
  | Rejected _ => fatal config tm v = true
  | Pending => fatal config tm v = false /\ hanging config tm v = true
  | Resolved r =>
      fatal config tm v = false /\ hanging config tm v = false /\
      result r = negb (violating config v)
  end.
Proof.
  unfold hanging, fatal, reaches_tearDown, violating.
  by_unit config tm v; auto.
Qed.

Lemma all_resolved_None (us : list unit_run) :
  all_resolved us = None <->
  exists u, In u us /\ forall r, settled u <> Resolved r.
Proof.
  induction us as [|u us IH]; simpl.
  - split; [discriminate | intros (u & [] & _)].
  - destruct (settled u) eqn:Su.
    + destruct (all_resolved us) as [rs|].
      * split; [discriminate|]. intros (x & [<- | Hx] & Hn).
        -- now elim (Hn r).
        -- assert (H : @None (list AssertionResult) = None) by reflexivity.
           destruct IH as [_ IH]. discriminate IH. eauto.
      * split; [|reflexivity]. intros _.
        destruct IH as [IH _]. destruct (IH eq_refl) as (x & Hx & Hn).
        exists x. auto.
    + split; [|reflexivity]. intros _. exists u. split; [now left|].
      rewrite Su. discriminate.
    + split; [|reflexivity]. intros _. exists u. split; [now left|].
      rewrite Su. discriminate.
Qed.

Lemma Forall2_In_l {A B : Type} (P : A -> B -> Prop) (l : list A)
    (l' : list B) (a : A) :
  Forall2 P l l' -> In a l -> exists b, In b l' /\ P a b.
Proof.
  induction 1 as [|x y l l' Hxy _ IH]; intros Hin; [destruct Hin|].
  destruct Hin as [<- | Hin].
  - exists y. split; [now left | assumption].
  - destruct (IH Hin) as (b & Hb & Hp). exists b.
    split; [now right | assumption].
Qed.

(** The unit behind a rejection of the run is fatal. *)
Lemma rejected_run_has_a_fatal_unit (found : list TestModule)
    (config : Configure) (t0 t1 : Z) (e : exn) :
  snd (RunTests found config t0 t1) = RunRejected e ->
  exists tm aid v,
    In tm found /\ In (aid, v) (assertions tm) /\ fatal config tm v = true.
Proof.
  unfold RunTests. simpl. intros He.
  destruct (first_rejection (units config found)) as [e'|] eqn:Hr.
  - apply first_rejection_sound in Hr as (u & Hu & Hs).
    apply units_inv in Hu as (tm & aid & v & -> & Hm & Ha).
    exists tm, aid, v.
    pose proof (run_unit_settled config tm aid v) as H.
    rewrite Hs in H. auto.
  - destruct (all_resolved (units config found)); discriminate.
Qed.

(** A run in which no unit is fatal and none hangs resolves, with the
    results of its units. *)
Lemma RunTests_resolves (found : list TestModule) (config : Configure)
    (t0 t1 : Z) :
  (forall tm aid v,
      In tm found -> In (aid, v) (assertions tm) ->
      fatal config tm v = false /\ hanging config tm v = false) ->
  exists results,
    snd (RunTests found config t0 t1) = RunResolved results (t1 - t0) /\
    Forall2 (fun u r => settled u = Resolved r) (units config found) results.
Proof.
  intros Hok. unfold RunTests. simpl.
  destruct (first_rejection (units config found)) as [e|] eqn:Hr.
  - exfalso. apply first_rejection_sound in Hr as (u & Hu & Hs).
    apply units_inv in Hu as (tm & aid & v & -> & Hm & Ha).
    pose proof (run_unit_settled config tm aid v) as H. rewrite Hs in H.
    destruct (Hok tm aid v Hm Ha) as [Hf _]. congruence.
  - destruct (all_resolved (units config found)) as [rs|] eqn:All.
    + exists rs. split; [reflexivity|]. now apply all_resolved_Forall2.
    + exfalso. apply all_resolved_None in All as (u & Hu & Hn).
      apply units_inv in Hu as (tm & aid & v & -> & Hm & Ha).
      pose proof (run_unit_settled config tm aid v) as H.
      destruct (Hok tm aid v Hm Ha) as [Hf Hh].
      destruct (settled (run_unit config tm aid v)) as [r|err|].
      * now elim (Hn r).
      * congruence.
      * destruct H. congruence.
Qed.

Lemma RunTests_without_coverage (found : list TestModule) (config : Configure)
    (t0 t1 : Z) :
  RunTests found (without_coverage config) t0 t1 = RunTests found config t0 t1.
Proof. reflexivity. Qed.

(** ** Discovery *)

Lemma FindTestModules_events (excl : list string) (d : directory) :
  forall dir st,
    only from_discovery (log st) ->
    only from_discovery (log (fst (FindTestModules excl dir d st))).
Proof.
  induction d using directory_mut with
    (P := fun e =>
            match e with
            | IsDirectory content =>
                forall dir st,
                  only from_discovery (log st) ->
                  only from_discovery
                       (log (fst (FindTestModules excl dir content st)))
            | _ => True
            end)
    (P1 := fun es =>
             forall dir ff st,
               only from_discovery (log st) ->
               only from_discovery
                    (log (fst (for_each_entry excl dir es ff st))));
    try exact I; try assumption.
  - (* a directory that cannot be listed *)
    intros dir st H. simpl. kinds.
  - (* a listing *)
    intros dir st H. simpl. apply IHd. kinds.
  - (* the end of a listing *)
    intros dir ff st H. exact H.
  - (* one more entry *)
    intros dir ff st H. simpl.
    assert (Hs : only from_discovery (log (say st [Stat (join dir name)])))
      by kinds.
    destruct e as [err | loaded | content].
    + exact Hs.
    + destruct (String.eqb (extension name) "js"); [|auto].
      destruct loaded as [err | module].
      * apply IHd0. kinds.
      * destruct (export_assertions module); apply IHd0; kinds.
    + destruct (existsb _ excl).
      * apply IHd0. kinds.
      * specialize (IHd (join dir name) _ Hs).
        destruct (FindTestModules excl (join dir name) content _) as [st' c].
        apply IHd0. exact IHd.
Qed.

Lemma discover_events (excl : list string) (cwd : string)
    (root : string -> directory) (dirs : list string) :
  forall st,
    only from_discovery (log st) ->
    only from_discovery (log (fst (discover excl cwd root dirs st))).
Proof.
  induction dirs as [|d dirs IH]; intros st H; simpl; [exact H|].
  pose proof (FindTestModules_events excl (root (join cwd d)) (join cwd d)
                st H) as Hq.
  destruct (FindTestModules excl (join cwd d) (root (join cwd d)) st)
    as [st' [|err]]; simpl in Hq; auto.
Qed.

Lemma FindTestModules_GetEntries (excl : list string) (dir : string)
    (d : directory) (st : discovery) :
  FindTestModules excl dir d st
  = match GetEntries dir d with
    | (evs, inl err) => (say st evs, Failed err)
    | (evs, inr es) => for_each_entry excl dir es [] (say st evs)
    end.
Proof. destruct d; reflexivity. Qed.

(** A rejected [GetEntryStats] ends the loop, whatever follows. *)
Lemma for_each_entry_GetEntryStats (excl : list string) (dir name : string)
    (e : entry) (rest : entries) (ff : list completion) (st : discovery)
    (err : exn) :
  snd (GetEntryStats (join dir name) e) = inl err ->
  for_each_entry excl dir (more name e rest) ff st
  = (say st (fst (GetEntryStats (join dir name) e)), Failed err).
Proof.
  destruct e; simpl; try discriminate. now intros [= ->].
Qed.



(** Scanning a tree and scanning it with the excluded directories emptied
    are the same computation. *)
Lemma FindTestModules_prune (excl : list string) (d : directory) :
  forall dir st,
    FindTestModules excl dir (prune_directory excl dir d) st
    = FindTestModules excl dir d st.
Proof.
  induction d using directory_mut with
    (P := fun e =>
            match e with
            | IsDirectory content =>
                forall dir st,
                  FindTestModules excl dir (prune_directory excl dir content) st
                  = FindTestModules excl dir content st
            | _ => True
            end)
    (P1 := fun es =>
             forall dir ff st,
               for_each_entry excl dir (prune_entries excl dir es) ff st
               = for_each_entry excl dir es ff st);
    try exact I; try assumption.
  - reflexivity.
  - intros dir st. simpl. apply IHd.
  - reflexivity.
  - intros dir ff st. simpl.
    destruct e as [err | loaded | content].
    + reflexivity.
    + destruct (String.eqb (extension name) "js"); [|apply IHd0].
      destruct loaded as [err | module]; [apply IHd0|].
      destruct (export_assertions module); apply IHd0.
    + destruct (existsb (String.eqb (join dir name)) excl) eqn:E; simpl;
        rewrite ?E; [apply IHd0|].
      rewrite IHd.
      destruct (FindTestModules excl (join dir name) content _) as [st' c].
      apply IHd0.
Qed.

(** A file that fails to load is logged and the loop goes on. *)
Lemma import_failure_is_skipped (excl : list string) (dir name : string)
    (error : exn) (rest : entries) (ff : list completion) (st : discovery) :
  extension name = "js"%string ->
  for_each_entry excl dir (more name (IsFile (ImportFails error)) rest) ff st
  = for_each_entry excl dir rest ff
      (say st [Stat (join dir name);
               Debug ("Found file: " ++ join dir name);
               Import (specifier_of (join dir name));
               ErrorMessage ("Error importing: " ++ join dir name ++ ": "
                               ++ exn_to_string error);
               ErrorMessage "Skipping..."]).
Proof.
  intros E. simpl. rewrite E. simpl. unfold say. simpl.
  now rewrite <- !app_assoc.
Qed.

(** What the loop does with a file that loads. *)
Lemma loaded_file_step (excl : list string) (dir name : string)
    (module : Exports) (rest : entries) (ff : list completion)
    (st : discovery) :
  extension name = "js"%string ->
  for_each_entry excl dir (more name (IsFile (Imported module)) rest) ff st
  = for_each_entry excl dir rest ff
      match export_assertions module with
      | Some exported =>
          push_module
            (say st [Stat (join dir name);
                     Debug ("Found file: " ++ join dir name);
                     Import (specifier_of (join dir name));
                     Debug ("Found module: "
                              ++ id (fill_defaults name module exported))])
            (fill_defaults name module exported)
      | None =>
          say st [Stat (join dir name);
                  Debug ("Found file: " ++ join dir name);
                  Import (specifier_of (join dir name))]
      end.
Proof.
  intros E. simpl. rewrite E. simpl.
  destruct (export_assertions module); unfold say, push_module; simpl;
    now rewrite <- !app_assoc.
Qed.

(** ** Grouping *)

Section Grouping.

Lemma report_assertions_count (rs : list AssertionResult) (n : nat) :
  snd (report_assertions rs n)
  = n + List.length (filter (fun r => negb (result r)) rs).
Proof.
  revert n. induction rs as [|r rs IH]; intros n; simpl; [lia|].
  specialize (IH (if negb (result r) then S n else n)).
  destruct (report_assertions rs _) as [evs m]. simpl in *.
  rewrite IH. destruct (negb (result r)); simpl; lia.
Qed.

Lemma report_modules_count (entries : list (string * list AssertionResult))
    (n : nat) :
  snd (report_modules entries n) = n + List.length (filter fails entries).
Proof.
  revert n. induction entries as [|[k rs] entries IH]; intros n; simpl;
    [lia|].
  pose proof (report_assertions_count rs 0) as Hc.
  destruct (report_assertions rs 0) as [evs m]. simpl in Hc. subst m.
  rewrite filter_nonempty_existsb.
  unfold fails at 1. simpl.
  specialize (IH (if existsb (fun r => negb (result r)) rs then S n else n)).
  destruct (report_modules entries _) as [evs' m]. simpl in *.
  rewrite IH. destruct (existsb _ rs); simpl; lia.
Qed.

Lemma report_assertions_events (rs : list AssertionResult) (n : nat) :
  only is_summary (fst (report_assertions rs n)).
Proof.
  revert n. induction rs as [|r rs IH]; intros n; simpl; [reflexivity|].
  specialize (IH (if negb (result r) then S n else n)).
  destruct (report_assertions rs _) as [evs m]. exact IH.
Qed.

Lemma report_modules_events (entries : list (string * list AssertionResult))
    (n : nat) :
  only is_summary (fst (report_modules entries n)).
Proof.
  revert n. induction entries as [|[k rs] entries IH]; intros n; simpl;
    [reflexivity|].
  pose proof (report_assertions_events rs 0) as Ha.
  destruct (report_assertions rs 0) as [evs m].
  specialize (IH (if (0 <? m)%nat then S n else n)).
  destruct (report_modules entries _) as [evs' m']. simpl in *.
  change (only is_summary (evs ++ [WriteModuleSummary k (List.length rs) m]
                             ++ evs')).
  kinds.
Qed.

Lemma aggregate_events (rs : list AssertionResult) (testingTime : Z)
    (totalModules : nat) (reported : list event) (failedModules : nat) :
  aggregate rs testingTime totalModules = inr (reported, failedModules) ->
  only is_summary reported.
Proof.
  unfold aggregate. destruct (group_results empty_object rs) as [err|o];
    [discriminate|].
  pose proof (report_modules_events (Object_entries o) 0) as He.
  destruct (report_modules (Object_entries o) 0) as [evs n].
  intros [= <- _]. simpl in He. kinds.
Qed.

(** [Object.entries] lists every own property once. *)
Lemma insert_by_index_perm {A : Type} (n : N) (a : A) (l : list (N * A)) :
  Permutation (map snd (insert_by_index n a l)) (a :: map snd l).
Proof.
  induction l as [|[m b] l IH]; simpl; [reflexivity|].
  destruct (n <? m)%N; simpl; [reflexivity|].
  rewrite IH. apply perm_swap.
Qed.

Lemma Object_entries_perm (o : module_results) :
  Permutation (Object_entries o) (own o).
Proof.
  unfold Object_entries. induction (own o) as [|[k v] props IH]; simpl;
    [constructor|].
  destruct (array_index k) as [n|]; simpl.
  - rewrite insert_by_index_perm. simpl. now constructor.
  - rewrite <- Permutation_middle. now constructor.
Qed.

(** Own properties after a push and after a fresh key. *)
Lemma lookup_push_own (key k : string) (r : AssertionResult)
    (props : list (string * list AssertionResult)) :
  lookup_own k (push_own key r props)
  = if String.eqb key k
    then option_map (fun v => v ++ [r]) (lookup_own k props)
    else lookup_own k props.
Proof.
  induction props as [|[k' v] props IH]; simpl.
  - now destruct (String.eqb key k).
  - destruct (String.eqb_spec k' key) as [->|Hne];
      destruct (String.eqb_spec key k) as [->|Hk]; simpl;
      rewrite ?String.eqb_refl; try reflexivity.
    + apply String.eqb_neq in Hk. now rewrite Hk.
    + apply String.eqb_neq in Hne. now rewrite Hne, IH.
    + now rewrite IH.
Qed.

Lemma lookup_fresh (key k : string)
    (props : list (string * list AssertionResult)) :
  lookup_own k (props ++ [(key, [])])
  = match lookup_own k props with
    | Some v => Some v
    | None => if String.eqb key k then Some [] else None
    end.
Proof.
  induction props as [|[k' v] props IH]; simpl; [reflexivity|].
  destruct (String.eqb k' k); [reflexivity | exact IH].
Qed.

Lemma keys_push_own (key : string) (r : AssertionResult)
    (props : list (string * list AssertionResult)) :
  map fst (push_own key r props) = map fst props.
Proof.
  induction props as [|[k' v] props IH]; simpl; [reflexivity|].
  destruct (String.eqb k' key); simpl; congruence.
Qed.

Lemma lookup_None_keys (k : string)
    (props : list (string * list AssertionResult)) :
  lookup_own k props = None <-> ~ In k (map fst props).
Proof.
  induction props as [|[k' v] props IH]; simpl; [tauto|].
  destruct (String.eqb_spec k' k) as [->|Hne].
  - split; [discriminate | tauto].
  - rewrite IH. tauto.
Qed.

Lemma lookup_In (k : string) (v : list AssertionResult)
    (props : list (string * list AssertionResult)) :
  NoDup (map fst props) ->
  (In (k, v) props <-> lookup_own k props = Some v).
Proof.
  induction props as [|[k' v'] props IH]; simpl; intros Hnd.
  - split; [tauto | discriminate].
  - inversion Hnd as [|? ? Hnot Hnd']; subst.
    destruct (String.eqb_spec k' k) as [->|Hne].
    + split.
      * intros [[= ->] | Hin]; [reflexivity|].
        exfalso. apply Hnot. apply in_map_iff. exists (k, v). auto.
      * intros [= ->]. now left.
    + rewrite <- (IH Hnd'). split; [|tauto].
      intros [[= -> ->] | Hin]; [congruence | assumption].
Qed.

Lemma groups_empty : groups [] empty_object.
Proof. repeat split; constructor. Qed.

Lemma group_step_ordinary (seen : list AssertionResult)
    (o : module_results) (r : AssertionResult) :
  groups seen o ->
  ~ In "hasOwnProperty"%string (map testModuleId seen) ->
  testModuleId r <> "__proto__"%string ->
  exists o', group_step o r = inr o' /\ groups (seen ++ [r]) o'.
Proof.
  intros (Hp & Hnd & Hl) Hh Hr.
  unfold group_step, has_own.
  rewrite (Hl "hasOwnProperty"%string).
  destruct (in_dec string_dec "hasOwnProperty"%string _) as [Hin|_];
    [contradiction|].
  set (key := testModuleId r) in *.
  assert (Hkey : String.eqb key "__proto__" = false)
    by now apply String.eqb_neq.
  assert (Hseen : forall k,
             (if in_dec string_dec k (map testModuleId (seen ++ [r]))
              then Some (filter (of_module k) (seen ++ [r])) else None)
             = if String.eqb key k
               then Some (filter (of_module k) seen ++ [r])
               else if in_dec string_dec k (map testModuleId seen)
                    then Some (filter (of_module k) seen) else None).
  { intros k. rewrite map_app, filter_app. simpl. unfold of_module at 2.
    fold key.
    destruct (String.eqb_spec key k) as [<-|Hne].
    - destruct (in_dec _ _ _) as [_|Hn]; [reflexivity|].
      exfalso. apply Hn. apply in_or_app. right. now left.
    - rewrite app_nil_r.
      destruct (in_dec string_dec k (map testModuleId seen)) as [Hi|Hn];
        destruct (in_dec _ _ _) as [Hi'|Hn']; try reflexivity.
      + exfalso. apply Hn'. apply in_or_app. now left.
      + exfalso. apply in_app_or in Hi' as [Hi'|[Hi'|[]]]; congruence. }
  rewrite (Hl key).
  destruct (in_dec string_dec key (map testModuleId seen)) as [Hin|Hnin].
  - (* a module seen before *)
    unfold push_result, has_own. rewrite Hkey, (Hl key).
    destruct (in_dec _ _ _) as [_|Hn]; [|contradiction].
    eexists. split; [reflexivity|]. repeat split; simpl.
    + exact Hp.
    + now rewrite keys_push_own.
    + intros k. rewrite lookup_push_own, Hseen, Hl.
      destruct (String.eqb_spec key k) as [<-|Hne]; [|reflexivity].
      destruct (in_dec _ _ _) as [_|Hn]; [reflexivity | contradiction].
  - (* a new module *)
    unfold set_fresh. rewrite Hkey.
    unfold push_result, has_own. simpl. rewrite Hkey.
    rewrite lookup_fresh, (Hl key).
    destruct (in_dec _ _ _) as [Hi|_]; [contradiction|].
    rewrite String.eqb_refl.
    eexists. split; [reflexivity|]. repeat split; simpl.
    + exact Hp.
    + rewrite keys_push_own, map_app. simpl.
      apply NoDup_app; [assumption | repeat constructor; intros [] |].
      intros a Ha [<-|[]]. revert Ha. apply lookup_None_keys. rewrite Hl.
      destruct (in_dec _ _ _); [contradiction | reflexivity].
    + intros k. rewrite lookup_push_own, lookup_fresh, Hseen, Hl.
      destruct (String.eqb_spec key k) as [<-|Hne];
        [|now destruct (in_dec _ _ _)].
      destruct (in_dec _ _ _) as [Hi|_]; [contradiction|].
      simpl. f_equal.
      rewrite (filter_none (of_module key) seen); [reflexivity|].
      intros x Hx. unfold of_module. apply String.eqb_neq. intros E.
      apply Hnin. apply in_map_iff. exists x. auto.
Qed.

Lemma group_results_ordinary (rs seen : list AssertionResult)
    (o : module_results) :
  groups seen o ->
  ~ In "hasOwnProperty"%string (map testModuleId seen) ->
  Forall (fun r => ordinary (testModuleId r)) rs ->
  exists o', group_results o rs = inr o' /\ groups (seen ++ rs) o'.
Proof.
  revert seen o. induction rs as [|r rs IH]; intros seen o Hg Hh Hall; simpl.
  - exists o. rewrite app_nil_r. auto.
  - inversion Hall as [|? ? [Hproto Hhas] Hall']; subst.
    destruct (group_step_ordinary seen o r Hg Hh Hproto) as (o1 & -> & Hg1).
    destruct (IH (seen ++ [r]) o1 Hg1) as (o' & E & Hg'); [|assumption|].
    + rewrite map_app. simpl. intros Hin.
      apply in_app_or in Hin as [Hin|[Hin|[]]]; congruence.
    + exists o'. rewrite <- app_assoc in Hg'. auto.
Qed.

(** The entries with a failure are the ids with a failed result. *)
Lemma groups_failed_count (rs : list AssertionResult) (o : module_results) :
  groups rs o ->
  List.length (filter fails (own o)) = failed_module_count rs.
Proof.
  intros (_ & Hnd & Hl). unfold failed_module_count, failed_module_ids.
  rewrite <- (length_map fst (filter fails (own o))).
  apply Permutation_length. apply NoDup_Permutation.
  - clear Hl. induction (own o) as [|[k v] props IH]; simpl; [constructor|].
    inversion Hnd as [|? ? Hnot Hnd']; subst.
    destruct (fails (k, v)); simpl; [|auto].
    constructor; [|auto]. intros Hin. apply Hnot.
    apply in_map_iff in Hin as (kv & E & Hin).
    apply filter_In in Hin as [Hin _].
    apply in_map_iff. exists kv. auto.
  - apply NoDup_filter, NoDup_nodup.
  - intros k. rewrite filter_In, nodup_In, in_map_iff. split.
    + intros ([k' v] & E & Hin). simpl in E. subst k'.
      apply filter_In in Hin as [Hin Hf].
      apply (lookup_In k v (own o) Hnd) in Hin. rewrite Hl in Hin.
      destruct (in_dec _ _ _) as [Hi|_]; [|discriminate].
      injection Hin as <-. split; [assumption|].
      unfold fails in Hf. simpl in Hf. unfold has_failure.
      apply existsb_exists in Hf as (r & Hr & Hres).
      apply filter_In in Hr as [Hr Hk].
      apply existsb_exists. exists r. split; [assumption|].
      unfold of_module in Hk. now rewrite Hk.
    + intros [Hi Hf]. exists (k, filter (of_module k) rs).
      split; [reflexivity|].
      apply filter_In. split.
      * apply (lookup_In _ _ _ Hnd). rewrite Hl.
        destruct (in_dec _ _ _); [reflexivity | contradiction].
      * unfold fails. simpl. unfold has_failure in Hf.
        apply existsb_exists in Hf as (r & Hr & Hres).
        apply andb_true_iff in Hres as [Hk Hres].
        apply existsb_exists. exists r. split; [|assumption].
        apply filter_In. auto.
Qed.

(** For module ids that are ordinary keys, the value assigned to
    [process.exitCode] is the number of ids with a failed result. *)
Lemma aggregate_ordinary (rs : list AssertionResult) (testingTime : Z)
    (totalModules : nat) :
  Forall (fun r => ordinary (testModuleId r)) rs ->
  exists reported,
    aggregate rs testingTime totalModules
    = inr (reported, failed_module_count rs).
Proof.
  intros Hall.
  destruct (group_results_ordinary rs [] empty_object groups_empty
              (fun H => H) Hall) as (o & E & Hg).
  unfold aggregate. rewrite E.
  pose proof (report_modules_count (Object_entries o) 0) as Hc.
  destruct (report_modules (Object_entries o) 0) as [evs n]. simpl in Hc.
  rewrite (filter_length_perm fails _ _ (Object_entries_perm o)) in Hc.
  rewrite (groups_failed_count rs o Hg) in Hc. subst n. eauto.
Qed.
End Grouping.

(** ** Coverage *)

Lemma StartCoverage_events (h : host) :
  only from_session (fst (StartCoverage h)).
Proof. unfold StartCoverage. destruct (profiler_enable h); reflexivity. Qed.

Lemma started_events_kind (config : Configure) (h : host) :
  only from_session (started_events config h).
Proof.
  unfold started_events. destruct (coverageEnabled config);
    [apply StartCoverage_events | reflexivity].
Qed.

(** The loop gets to its end exactly when it meets nothing but the
    sentinel. *)
Lemma remove_entries_settles (dir : string) (entries : list string) :
  remove_entries dir entries
  = match removable entries with
    | [] => Fulfilled
    | _ :: _ => Failed logger_is_not_defined
    end.
Proof.
  induction entries as [|e entries IH]; simpl; [reflexivity|].
  unfold sentinel.
  destruct (String.eqb e ".gitignore"); [exact IH | reflexivity].
Qed.

(** The events of the clearing that a call of [WriteCoverageResults]
    starts. *)
Lemma WriteCoverageResults_detached (h : host) (dir : string) (clear : bool) :
  snd (WriteCoverageResults h dir clear) = []
  \/ snd (WriteCoverageResults h dir clear) = [Readdir dir].
Proof.
  unfold WriteCoverageResults.
  destruct (profiler_takePreciseCoverage h) as [err|data]; simpl; [now left|].
  destruct clear; [now right | now left].
Qed.

Lemma filter_only (kind p : event -> bool) (l : list event) :
  (forall e, kind e = true -> p e = false) -> only kind l -> filter p l = [].
Proof.
  intros Hk Hl. apply filter_none. intros e He. apply Hk.
  eapply only_In; eauto.
Qed.

Lemma WriteCoverageResults_events (h : host) (dir : string) (clear : bool) :
  only from_writing (fst (WriteCoverageResults h dir clear)).
Proof.
  unfold WriteCoverageResults.
  destruct (profiler_takePreciseCoverage h) as [err|data]; simpl;
    [reflexivity|].
  now destruct (writeFile_error h).
Qed.

(** Without a snapshot nothing is written and nothing is cleared. *)
Lemma no_snapshot_no_write (h : host) (dir : string) (clear : bool)
    (err : exn) :
  profiler_takePreciseCoverage h = inl err ->
  WriteCoverageResults h dir clear
  = ([Post "Profiler.takePreciseCoverage"; Error err], []).
Proof. unfold WriteCoverageResults. now intros ->. Qed.

Lemma append_injective (prefix s s' : string) :
  (prefix ++ s = prefix ++ s')%string -> s = s'.
Proof.
  induction prefix as [|c prefix IH]; simpl; [auto|].
  intros [= H]. auto.
Qed.

(** ** The script, stage by stage *)

Lemma test_and_report_started (config : Configure) (h : host)
    (found : list TestModule) :
  (coverageEnabled config = true -> snd (StartCoverage h) = Fulfilled) ->
  test_and_report config h found
  = let started := started_events config h in
    let '(ran, outcome) :=
      RunTests found config (fst (performance_now h))
               (snd (performance_now h)) in
    match outcome with
    | RunRejected error =>
        {| trace := Connect :: started ++ ran ++ [Error error];
           detached := []; final := Exit (-1) |}
    | RunPending =>
        {| trace := Connect :: started ++ ran; detached := [];
           final := Stalled |}
    | RunResolved assertionResults testingTime =>
        let '(written, cleared) :=
          if coverageEnabled config
          then WriteCoverageResults h (coverageDir config)
                                    (clearCoverage config)
          else ([], []) in
        let before := Connect :: started ++ ran ++ written ++ [Disconnect] in
        match aggregate assertionResults testingTime (List.length found) with
        | inl err =>
            {| trace := before; detached := cleared; final := Uncaught err |}
        | inr (reported, failedModules) =>
            {| trace := before ++ reported; detached := cleared;
               final := Done (Z.of_nat failedModules) |}
        end
    end.
Proof.
  intros Hcov. unfold test_and_report, started_events.
  destruct (coverageEnabled config); [|reflexivity].
  specialize (Hcov eq_refl).
  destruct (StartCoverage h) as [started c]. simpl in Hcov. now subst c.
Qed.

Lemma jester_discovered (config : Configure) (h : host) (st : discovery) :
  exitAfter config = false ->
  discover (excludeDirs config) (cwd h) (root h) (testDirs config)
           nothing_found = (st, Fulfilled) ->
  jester config h
  = let rest := test_and_report config h (testModules st) in
    {| trace := log st ++ trace rest; detached := detached rest;
       final := final rest |}.
Proof.
  intros Hexit Hdisc. unfold jester. now rewrite Hexit, Hdisc.
Qed.

Lemma discovered_log (config : Configure) (h : host) (st : discovery)
    (c : completion) :
  discover (excludeDirs config) (cwd h) (root h) (testDirs config)
           nothing_found = (st, c) ->
  only from_discovery (log st).
Proof.
  intros Hdisc.
  pose proof (discover_events (excludeDirs config) (cwd h) (root h)
                (testDirs config) nothing_found eq_refl) as H.
  now rewrite Hdisc in H.
Qed.

(** Every event of a run comes from discovery, from the session, from a
    unit, from the writing of the snapshot or from the report; what the
    detached clearing does is at most one [readdir]. *)
Lemma test_and_report_events (kind : event -> bool) (config : Configure)
    (h : host) (found : list TestModule) :
  (forall e, from_session e || from_unit e || from_writing e || is_summary e
             = true -> kind e = true) ->
  only kind (trace (test_and_report config h found)).
Proof.
  intros Hk.
  assert (Hsession : forall l, only from_session l -> only kind l).
  { intros l. apply only_weaken. intros e He. apply Hk. now rewrite He. }
  assert (Hunit : forall l, only from_unit l -> only kind l).
  { intros l. apply only_weaken. intros e He. apply Hk. rewrite He.
    now rewrite orb_true_r. }
  assert (Hwriting : forall l, only from_writing l -> only kind l).
  { intros l. apply only_weaken. intros e He. apply Hk. rewrite He.
    now rewrite !orb_true_r. }
  assert (Hreport : forall l, only is_summary l -> only kind l).
  { intros l. apply only_weaken. intros e He. apply Hk. rewrite He.
    now rewrite !orb_true_r. }
  unfold test_and_report.
  assert (Hs : only kind (Connect ::
                          fst (if coverageEnabled config then StartCoverage h
                               else ([], Fulfilled)))).
  { apply Hsession. change (only from_session ([Connect] ++
      fst (if coverageEnabled config then StartCoverage h
           else ([], Fulfilled)))).
    apply only_app. split; [reflexivity|].
    destruct (coverageEnabled config);
      [apply StartCoverage_events | reflexivity]. }
  destruct (if coverageEnabled config then StartCoverage h else _)
    as [started [|err]]; simpl in Hs; [|exact Hs].
  pose proof (RunTests_events found config (fst (performance_now h))
                (snd (performance_now h))) as Hr. apply Hunit in Hr.
  destruct (RunTests _ _ _ _) as [ran [results elapsed | err |]]; simpl in Hr.
  - assert (Hw : only kind
                   (fst (if coverageEnabled config
                         then WriteCoverageResults h (coverageDir config)
                                                   (clearCoverage config)
                         else ([], [])))).
    { destruct (coverageEnabled config); [|reflexivity].
      apply Hwriting, WriteCoverageResults_events. }
    destruct (if coverageEnabled config then WriteCoverageResults _ _ _ else _)
      as [written cleared]. simpl in Hw.
    assert (Hbefore : only kind (Connect :: started ++ ran ++ written
                                   ++ [Disconnect])).
    { change (only kind ((Connect :: started) ++ ran ++ written
                           ++ [Disconnect])).
      repeat (apply only_app; split); try assumption.
      apply Hsession. reflexivity. }
    destruct (aggregate _ _ _) as [err | [reported failedModules]] eqn:Agg;
      cbn [trace]; [exact Hbefore|].
    apply only_app. split; [exact Hbefore|].
    apply Hreport. eapply aggregate_events. exact Agg.
  - simpl. change (only kind ((Connect :: started) ++ ran ++ [Error err])).
    repeat (apply only_app; split); try assumption.
    apply Hunit. reflexivity.
  - simpl. change (only kind ((Connect :: started) ++ ran)).
    apply only_app. split; assumption.
Qed.

Lemma test_and_report_detached (config : Configure) (h : host)
    (found : list TestModule) :
  detached (test_and_report config h found) = []
  \/ detached (test_and_report config h found) = [Readdir (coverageDir config)].
Proof.
  unfold test_and_report.
  destruct (if coverageEnabled config then StartCoverage h else _)
    as [started [|err]]; [|now left].
  destruct (RunTests _ _ _ _) as [ran [results elapsed | err |]];
    try (now left).
  assert (H : snd (if coverageEnabled config
                   then WriteCoverageResults h (coverageDir config)
                                             (clearCoverage config)
                   else ([], [])) = []
              \/ snd (if coverageEnabled config
                      then WriteCoverageResults h (coverageDir config)
                                                (clearCoverage config)
                      else ([], [])) = [Readdir (coverageDir config)]).
  { destruct (coverageEnabled config); [|now left].
    apply WriteCoverageResults_detached. }
  destruct (if coverageEnabled config then WriteCoverageResults _ _ _ else _)
    as [written cleared]. simpl in H.
  destruct (aggregate _ _ _) as [err | [reported failedModules]]; exact H.
Qed.

Lemma jester_events (kind : event -> bool) (config : Configure) (h : host) :
  (forall e, from_discovery e || from_session e || from_unit e
             || from_writing e || is_summary e = true -> kind e = true) ->
  only kind (trace (jester config h)).
Proof.
  intros Hk. unfold jester. destruct (exitAfter config); [reflexivity|].
  pose proof (discover_events (excludeDirs config) (cwd h) (root h)
                (testDirs config) nothing_found eq_refl) as Hlog.
  assert (Hd : only kind
                 (log (fst (discover (excludeDirs config) (cwd h) (root h)
                                     (testDirs config) nothing_found)))).
  { eapply only_weaken; [|exact Hlog]. intros e He. apply Hk.
    now rewrite He. }
  destruct (discover _ _ _ _ _) as [st [|err]]; simpl in Hd |- *.
  - apply only_app. split; [exact Hd|].
    apply test_and_report_events. intros e He. apply Hk.
    rewrite <- !orb_assoc in *. rewrite He. apply orb_true_r.
  - apply only_app. split; [exact Hd|].
    unfold only. simpl. rewrite andb_true_r. apply Hk. reflexivity.
Qed.

Lemma jester_detached (config : Configure) (h : host) :
  detached (jester config h) = []
  \/ detached (jester config h) = [Readdir (coverageDir config)].
Proof.
  unfold jester. destruct (exitAfter config); [now left|].
  destruct (discover _ _ _ _ _) as [st [|err]]; [|now left].
  apply test_and_report_detached.
Qed.

(** No run removes a file. *)
Lemma jester_never_unlinks (config : Configure) (h : host) :
  unlinked (trace (jester config h) ++ detached (jester config h)) = [].
Proof.
  rewrite unlinked_app.
  rewrite (unlinked_only (fun e => negb (is_unlink e))
             (trace (jester config h)));
    [|now intros [] | apply jester_events; now intros []].
  now destruct (jester_detached config h) as [-> | ->].
Qed.

(** A run that rejects: the error is logged last, the process exits with
    -1, and nothing was reported. *)
Lemma jester_exits_when_run_rejects (config : Configure) (h : host)
    (st : discovery) (e : exn) :
  exitAfter config = false ->
  discover (excludeDirs config) (cwd h) (root h) (testDirs config)
           nothing_found = (st, Fulfilled) ->
  (coverageEnabled config = true -> snd (StartCoverage h) = Fulfilled) ->
  snd (RunTests (testModules st) config (fst (performance_now h))
                (snd (performance_now h))) = RunRejected e ->
  final (jester config h) = Exit (-1) /\
  (exists before, trace (jester config h) = before ++ [Error e]) /\
  (forall ev, In ev (trace (jester config h)) -> is_summary ev = false).
Proof.
  intros Hexit Hdisc Hcov Hrun.
  rewrite (jester_discovered config h st Hexit Hdisc).
  rewrite (test_and_report_started config h _ Hcov).
  pose proof (discovered_log config h st _ Hdisc) as Hd.
  pose proof (started_events_kind config h) as Hs.
  pose proof (RunTests_events (testModules st) config
                (fst (performance_now h)) (snd (performance_now h))) as Hr.
  destruct (RunTests _ _ _ _) as [ran outcome]. simpl in Hrun, Hr. subst.
  simpl. split; [reflexivity|]. split.
  - exists (log st ++ Connect :: started_events config h ++ ran).
    rewrite <- app_assoc. simpl. now rewrite <- app_assoc.
  - intros ev Hin.
    apply in_app_or in Hin as [Hin | [<- | Hin]].
    + apply (only_In _ _ _ Hd) in Hin. now destruct ev.
    + reflexivity.
    + apply in_app_or in Hin as [Hin | Hin].
      * apply (only_In _ _ _ Hs) in Hin. now destruct ev.
      * apply in_app_or in Hin as [Hin | [<- | []]]; [|reflexivity].
        apply (only_In _ _ _ Hr) in Hin. now destruct ev.
Qed.

Lemma jester_resolved (config : Configure) (h : host) (st : discovery)
    (ran : list event) (results : list AssertionResult) (elapsed : Z) :
  exitAfter config = false ->
  discover (excludeDirs config) (cwd h) (root h) (testDirs config)
           nothing_found = (st, Fulfilled) ->
  (coverageEnabled config = true -> snd (StartCoverage h) = Fulfilled) ->
  RunTests (testModules st) config (fst (performance_now h))
           (snd (performance_now h)) = (ran, RunResolved results elapsed) ->
  let coverage :=
    if coverageEnabled config
    then WriteCoverageResults h (coverageDir config) (clearCoverage config)
    else ([], []) in
  exists reported,
    trace (jester config h)
    = log st ++ Connect :: started_events config h ++ ran ++ fst coverage
        ++ Disconnect :: reported /\
    only is_summary reported /\
    detached (jester config h) = snd coverage /\
    final (jester config h)
    = match aggregate results elapsed (List.length (testModules st)) with
      | inl err => Uncaught err
      | inr (_, failedModules) => Done (Z.of_nat failedModules)
      end.
Proof.
  intros Hexit Hdisc Hcov Hrun coverage.
  rewrite (jester_discovered config h st Hexit Hdisc).
  rewrite (test_and_report_started config h _ Hcov).
  rewrite Hrun. cbv zeta. fold coverage. destruct coverage as [written cleared].
  destruct (aggregate results elapsed (List.length (testModules st)))
    as [err | [reported failedModules]] eqn:Agg; simpl.
  - exists []. split; [|split; [|split]]; reflexivity.
  - exists reported. split; [|split; [|split]]; try reflexivity.
    + do 2 f_equal. rewrite <- !app_assoc. reflexivity.
    + eapply aggregate_events. exact Agg.
Qed.

(** When starting coverage does not fail, the process ends as it does with
    coverage switched off: a snapshot that cannot be taken, a directory that
    cannot be cleared and a file that cannot be written change nothing. *)
Lemma coverage_after_start_keeps_status (config : Configure) (h : host) :
  (coverageEnabled config = true -> snd (StartCoverage h) = Fulfilled) ->
  final (jester config h) = final (jester (without_coverage config) h).
Proof.
  intros Hcov. unfold jester.
  change (exitAfter (without_coverage config)) with (exitAfter config).
  change (excludeDirs (without_coverage config)) with (excludeDirs config).
  change (testDirs (without_coverage config)) with (testDirs config).
  destruct (exitAfter config); [reflexivity|].
  destruct (discover _ _ _ _ _) as [st [|err]]; [|reflexivity].
  cbv beta iota zeta. unfold final at 1 3.
  rewrite (test_and_report_started config h _ Hcov).
  rewrite (test_and_report_started (without_coverage config) h);
    [|discriminate].
  rewrite RunTests_without_coverage.
  destruct (RunTests _ _ _ _) as [ran [results elapsed | err |]];
    cbv beta iota zeta; try reflexivity.
  change (coverageEnabled (without_coverage config)) with false.
  destruct (if coverageEnabled config then _ else _) as [written cleared].
  cbv beta iota zeta.
  destruct (aggregate _ _ _) as [err | [reported failedModules]]; reflexivity.
Qed.

(** * The claims *)

(** C1. A unit that resolves carries the ids of its module and of its
    assertion, [skipped] is true in its result exactly when [dryRun] is set
    or the assertion's [skip] flag is set, and then [result] is true.  In a
    dry run, and for an assertion marked [skip], the unit never calls the
    assertion function, whatever the hooks do, and it resolves in this way
    as soon as both hooks return.  The results of a run that resolves are
    those of its units, in launch order. *)
Theorem skipped_iff_dryRun_or_skip_flag :
  forall (config : Configure) (tm : TestModule) (aid : string)
         (v : option AssertionDef),
    let u := run_unit config tm aid v in
    let marked :=
      dryRun config = true \/
      exists def, v = Some def /\ skip def = Some true in
    (forall r,
        settled u = Resolved r ->
        testModuleId r = id tm /\ assertionId r = aid /\
        (skipped r = true <-> marked) /\
        (skipped r = true -> result r = true)) /\
    (marked ->
     never_invoked u /\
     (hooks_return tm = true ->
      settled u = Resolved {| testModuleId := id tm; assertionId := aid;
                              result := true; skipped := true |})) /\
    (forall found t0 t1 evs results elapsed,
        RunTests found config t0 t1 = (evs, RunResolved results elapsed) ->
        Forall2 (fun '(tm, aid, v) r =>
                   settled (run_unit config tm aid v) = Resolved r)
                (jobs found) results).
Proof.
  intros config tm aid v u marked. split; [|split].
  - intros r Hr.
    destruct (run_unit_resolved _ _ _ _ _ Hr) as (Hm & Ha & Hs & Hh).
    split; [exact Hm|]. split; [exact Ha|]. split.
    + unfold marked. rewrite <- read_skipped_true, Hs.
      split; [now intros -> | now intros [= ->]].
    + intros H. rewrite H in Hs.
      unfold u in Hr. rewrite (run_unit_skipped _ _ _ _ Hs Hh) in Hr.
      now injection Hr as <-.
  - intros Hmarked. apply read_skipped_true in Hmarked. split.
    + now apply skipped_unit_never_invokes.
    + intros Hh. unfold u. now rewrite (run_unit_skipped _ _ _ _ Hmarked Hh).
  - intros found t0 t1 evs results elapsed H. unfold RunTests in H.
    destruct (first_rejection (units config found)); [discriminate|].
    destruct (all_resolved (units config found)) as [rs|] eqn:All;
      [|discriminate].
    injection H as _ <- _.
    apply all_resolved_Forall2 in All. unfold units in All.
    apply Forall2_map_l in All.
    eapply Forall2_impl; [|exact All].
    now intros [[tm' aid'] v'] r.
Qed.

(** An assertion marked [skip] whose function would throw, outside a dry
    run: the function is not called and the unit resolves as skipped. *)
Lemma skipped_iff_dryRun_or_skip_flag_marked :
  let def := {| function := Some (Throws (OtherError "boom"));
                skip := Some true |} in
  let tm := loaded_as "m.js" [("two"%string, def)] in
  let u := run_unit sample_config tm "two" (Some def) in
  dryRun sample_config = false /\
  never_invoked u /\
  settled u = Resolved {| testModuleId := "m.js"; assertionId := "two";
                          result := true; skipped := true |}.
Proof.
  intros def tm u. split; [reflexivity|].
  destruct (skipped_iff_dryRun_or_skip_flag sample_config tm "two" (Some def))
    as (_ & Hmarked & _).
  destruct Hmarked as [Hnever Hresolves].
  - right. exists def. split; reflexivity.
  - split; [exact Hnever | exact (Hresolves eq_refl)].
Defined.

(** C2, at a module whose id is [__proto__].  The claim counts one failed
    module; grouping assigns [moduleResults["__proto__"]], which replaces
    the prototype and creates no own property, so [Object.entries] lists no
    module, nothing is reported for it and [process.exitCode] is set to 0. *)
Theorem failed_module_named_proto_is_not_counted :
  failed_module_count [result_of "__proto__" "one" false] = 1%nat /\
  aggregate [result_of "__proto__" "one" false] 7 1
  = inr ([WriteTestingSummary 7 0 1], 0%nat) /\
  final (jester sample_config (sample_host proto_named)) = Done 0.
Proof. repeat split; reflexivity. Qed.

(** A module whose id is [hasOwnProperty] shadows the method of that name:
    the loop throws at the next result and no exit code is set. *)
Example module_named_hasOwnProperty_breaks_grouping :
  failed_module_count [result_of "hasOwnProperty" "one" true;
                       result_of "hasOwnProperty" "two" true] = 0%nat /\
  final (jester sample_config (sample_host hasOwnProperty_named))
  = Uncaught hasOwnProperty_not_a_function.
Proof. split; reflexivity. Qed.

(** Scenario A: [a.js] passes and [b.js] has one violated assertion. *)
Example one_failed_module_exits_with_one :
  final (jester sample_config (sample_host pass_and_fail)) = Done 1.
Proof. reflexivity. Qed.

(** C3. When the function of a discovered assertion is called and throws,
    or rejects with, an error that is not an [AssertionError], [RunTests]
    rejects, the process exits with -1 after logging the error, and no part
    of the report is written; when the error is an [AssertionError], the
    unit logs it, calls [tearDown] and does not reject: it resolves with
    [result = false] once [tearDown] has returned, and the run goes on: if
    no unit is fatal and none hangs, [RunTests] resolves and this result is
    among its results. *)
Theorem fatal_error_rejects_run_but_assertion_error_does_not :
  forall (config : Configure) (h : host) (st : discovery)
         (tm : TestModule) (aid : string) (def : AssertionDef) (err : exn),
    exitAfter config = false ->
    discover (excludeDirs config) (cwd h) (root h) (testDirs config)
             nothing_found = (st, Fulfilled) ->
    (coverageEnabled config = true -> snd (StartCoverage h) = Fulfilled) ->
    In tm (testModules st) -> In (aid, Some def) (assertions tm) ->
    fails_with config tm def err ->
    (instanceof_AssertionError err = false ->
     (exists e,
        snd (RunTests (testModules st) config (fst (performance_now h))
                      (snd (performance_now h))) = RunRejected e /\
        instanceof_AssertionError e = false /\
        exists before, trace (jester config h) = before ++ [Error e]) /\
     final (jester config h) = Exit (-1) /\
     (forall ev, In ev (trace (jester config h)) -> is_summary ev = false)) /\
    (instanceof_AssertionError err = true ->
     In (Error err) (unit_events (run_unit config tm aid (Some def))) /\
     In (TearDown (id tm)) (unit_events (run_unit config tm aid (Some def))) /\
     (forall e, settled (run_unit config tm aid (Some def)) <> Rejected e) /\
     (returns_normally (tearDown tm) = true ->
      settled (run_unit config tm aid (Some def))
      = Resolved {| testModuleId := id tm; assertionId := aid;
                    result := false; skipped := false |}) /\
     ((forall tm' aid' v',
          In tm' (testModules st) -> In (aid', v') (assertions tm') ->
          fatal config tm' v' = false /\ hanging config tm' v' = false) ->
      exists results,
        snd (RunTests (testModules st) config (fst (performance_now h))
                      (snd (performance_now h)))
        = RunResolved results (snd (performance_now h)
                               - fst (performance_now h)) /\
        In {| testModuleId := id tm; assertionId := aid;
              result := false; skipped := false |} results)).
Proof.
  intros config h st tm aid def err Hexit Hdisc Hcov Hm Ha (Hup & Hs & Hf).
  assert (Hlater :
            instanceof_AssertionError err = true ->
            returns_normally (tearDown tm) = true ->
            settled (run_unit config tm aid (Some def))
            = Resolved {| testModuleId := id tm; assertionId := aid;
                          result := false; skipped := false |}).
  { intros Herr Hdown.
    unfold run_unit, tear_down_and_resolve.
    rewrite Hup, read_skipped_object, Hs, Hdown.
    destruct Hf as [Hf | Hf]; simpl; rewrite Hf; unfold catch_clause;
      rewrite Herr; reflexivity. }
  split; intros Herr.
  - assert (Hrej : settled (run_unit config tm aid (Some def)) = Rejected err).
    { unfold run_unit. rewrite Hup, read_skipped_object, Hs.
      destruct Hf as [Hf | Hf]; simpl; rewrite Hf; unfold catch_clause;
        rewrite Herr; reflexivity. }
    destruct (rejected_unit_rejects_run config (testModules st)
                (fst (performance_now h)) (snd (performance_now h))
                tm aid (Some def) err Hm Ha Hrej) as (e & Hrun & He).
    destruct (jester_exits_when_run_rejects config h st e Hexit Hdisc Hcov
                Hrun) as (Hfinal & Hlast & Hquiet).
    split; [|split]; try assumption.
    exists e. auto.
  - split; [|split; [|split; [|split]]].
    + unfold run_unit, unit_events, tear_down_and_resolve.
      rewrite Hup, read_skipped_object, Hs.
      destruct Hf as [Hf | Hf]; simpl; rewrite Hf; unfold catch_clause;
        rewrite Herr; simpl; auto 10.
    + unfold run_unit, unit_events, tear_down_and_resolve.
      rewrite Hup, read_skipped_object, Hs.
      destruct Hf as [Hf | Hf]; simpl; rewrite Hf; unfold catch_clause;
        rewrite Herr; simpl; auto 10.
    + unfold run_unit, tear_down_and_resolve.
      rewrite Hup, read_skipped_object, Hs.
      destruct Hf as [Hf | Hf]; simpl; rewrite Hf; unfold catch_clause;
        rewrite Herr; simpl;
        destruct (returns_normally (tearDown tm)); discriminate.
    + exact (Hlater Herr).
    + intros Hok.
      destruct (RunTests_resolves (testModules st) config
                  (fst (performance_now h)) (snd (performance_now h)) Hok)
        as (results & Hrun & Hall).
      exists results. split; [exact Hrun|].
      pose proof (In_units config (testModules st) tm aid (Some def) Hm Ha)
        as Hu.
      destruct (Forall2_In_l _ _ _ _ Hall Hu) as (r & Hr & Hsettled).
      destruct (Hok tm aid (Some def) Hm Ha) as [_ Hh].
      assert (Hdown : returns_normally (tearDown tm) = true).
      { unfold hanging in Hh. apply andb_false_iff in Hh as [Hh | Hh].
        - apply negb_false_iff in Hh.
          destruct (Hok tm aid (Some def) Hm Ha) as [Hfatal _]. congruence.
        - apply orb_false_iff in Hh as [_ Hh]. now apply negb_false_iff. }
      rewrite (Hlater Herr Hdown) in Hsettled. injection Hsettled as <-.
      exact Hr.
Qed.

(** Scenario C: the only assertion throws a plain error; and the run of a
    module whose only assertion is violated. *)
Lemma fatal_error_rejects_run_but_assertion_error_does_not_scenario :
  let config := sample_config in
  let h := sample_host (one_file "c.js" [("x"%string, crashing)]) in
  (final (jester config h) = Exit (-1) /\
   (forall ev, In ev (trace (jester config h)) -> is_summary ev = false) /\
   exists e,
     snd (RunTests [loaded_as "c.js" [("x"%string, crashing)]] config 0 7)
     = RunRejected e /\
     instanceof_AssertionError e = false) /\
  exists results,
    snd (RunTests [loaded_as "b.js" [("one"%string, violated)]] config 0 7)
    = RunResolved results 7 /\
    In (result_of "b.js" "one" false) results.
Proof.
  intros config h. split.
  - destruct (fatal_error_rejects_run_but_assertion_error_does_not
                config h
                (fst (discover (excludeDirs config) (cwd h) (root h)
                               (testDirs config) nothing_found))
                (loaded_as "c.js" [("x"%string, crashing)])
                "x"%string crashing (OtherError "boom"))
      as [Hfatal _]; try reflexivity.
    + now left.
    + now left.
    + split; [reflexivity|]. split; [reflexivity | now left].
    + destruct (Hfatal eq_refl) as ((e & Hrun & He & _) & Hfinal & Hquiet).
      split; [assumption|]. split; [assumption|]. exists e. auto.
  - pose (h' := sample_host (one_file "b.js" [("one"%string, violated)])).
    destruct (fatal_error_rejects_run_but_assertion_error_does_not
                config h'
                (fst (discover (excludeDirs config) (cwd h') (root h')
                               (testDirs config) nothing_found))
                (loaded_as "b.js" [("one"%string, violated)])
                "one"%string violated (AssertionError "1 == 2"))
      as [_ Hviolated]; try reflexivity.
    + now left.
    + now left.
    + split; [reflexivity|]. split; [reflexivity | now left].
    + destruct (Hviolated eq_refl) as (_ & _ & _ & _ & Hgoes_on).
      apply Hgoes_on.
      intros tm' aid' v' [<- | []] [[= <- <-] | []]. split; reflexivity.
Defined.

(** C4, at a directory whose first entry cannot be stat'ed.  The claim has
    the entry logged and skipped and [a.js] discovered; the rejection of
    [stat] leaves [GetEntryStats] uncaught, [FindTestModules] rejects,
    [a.js] is never looked at and the process exits with -1.  A
    subdirectory that cannot be listed ends the same way. *)
Theorem stat_or_listing_failure_aborts_discovery :
  (let run := jester sample_config (sample_host dangling_then_a) in
   final run = Exit (-1) /\
   ~ In (Stat "/repo/tests/a.js") (trace run) /\
   forall m a, ~ In (Invoke m a) (trace run)) /\
  (let run := jester sample_config (sample_host locked_then_a) in
   final run = Exit (-1) /\
   forall m a, ~ In (Invoke m a) (trace run)) /\
  final (jester sample_config (sample_host (Entries one_passing_file)))
  = Done 0.
Proof.
  repeat split; try reflexivity; simpl; intuition discriminate.
Qed.

(** A file that fails to load is the per-entry error that is isolated. *)
Example import_failure_does_not_abort_discovery :
  let run := jester sample_config (sample_host broken_then_a) in
  final run = Done 0 /\
  In (ErrorMessage "Skipping...") (trace run) /\
  In (Invoke "a.js" "one") (trace run).
Proof. simpl. intuition. Qed.

(** C5 as stated fails: a record whose [assertions] mapping is empty is
    accepted. *)
Lemma empty_assertions_mapping_is_accepted :
  ~ (accepted "/repo/tests" "empty.js" (exporting [])
     <-> exposes_nonempty_assertions (exporting [])).
Proof.
  intros [Hnonempty _].
  destruct Hnonempty as (first & others & H); [|discriminate H].
  unfold accepted. simpl. discriminate.
Qed.

(** C5, amended.  A successfully loaded record is appended, with its
    defaults filled in, exactly when it exports [assertions] (an empty
    mapping included); otherwise nothing is appended; in both cases no
    error is logged and the loop goes on with the next entry. *)
Theorem loaded_record_accepted_iff_assertions_exported :
  forall (excl : list string) (dir name : string) (module : Exports)
         (rest : entries) (ff : list completion) (st : discovery),
    extension name = "js"%string ->
    (accepted dir name module <-> export_assertions module <> None) /\
    exists st',
      for_each_entry excl dir (more name (IsFile (Imported module)) rest) ff st
      = for_each_entry excl dir rest ff st' /\
      testModules st'
      = testModules st ++
          match export_assertions module with
          | Some exported => [fill_defaults name module exported]
          | None => []
          end /\
      filter is_error_log (log st') = filter is_error_log (log st).
Proof.
  intros excl dir name module rest ff st E. split.
  - unfold accepted. rewrite (loaded_file_step [] dir name module _ _ _ E).
    destruct (export_assertions module); simpl.
    + split; intros _; discriminate.
    + split; intros H; now elim H.
  - rewrite (loaded_file_step excl dir name module rest ff st E).
    eexists. split; [reflexivity|].
    destruct (export_assertions module); simpl; rewrite filter_app; simpl;
      now rewrite !app_nil_r.
Qed.

Lemma loaded_record_accepted_iff_assertions_exported_samples :
  (accepted "/repo/tests" "empty.js" (exporting []) <->
   export_assertions (exporting []) <> None) /\
  (accepted "/repo/tests" "helper.js"
            {| export_assertions := None; export_id := Some "helper"%string;
               export_setUp := Some Returns; export_tearDown := None |} <->
   None <> @None TestAssertions).
Proof.
  split.
  - apply (loaded_record_accepted_iff_assertions_exported
             [] "/repo/tests" "empty.js" (exporting []) no_entries []
             nothing_found eq_refl).
  - apply (loaded_record_accepted_iff_assertions_exported
             [] "/repo/tests" "helper.js"
             {| export_assertions := None; export_id := Some "helper"%string;
                export_setUp := Some Returns; export_tearDown := None |}
             no_entries [] nothing_found eq_refl).
Defined.

(** C6. Whatever lies inside a directory whose full path is in
    [excludeDirs] has no influence on discovery: two trees that differ only
    inside excluded directories yield the same log (hence the same
    [readdir], [stat] and [import] requests and the same errors), the same
    modules and the same completion. *)
Theorem excluded_directories_are_never_visited :
  forall (excl : list string) (dir : string) (d d' : directory)
         (st : discovery),
    prune_directory excl dir d = prune_directory excl dir d' ->
    FindTestModules excl dir d st = FindTestModules excl dir d' st.
Proof.
  intros excl dir d d' st H.
  rewrite <- (FindTestModules_prune excl d dir st).
  rewrite <- (FindTestModules_prune excl d' dir st).
  now rewrite H.
Qed.

(** Scenario D: [fixtures] is excluded; with or without the broken file
    inside, the scan is the same, and it logs no error. *)
Lemma excluded_directories_are_never_visited_scenario :
  let excl := ["/repo/tests/fixtures"%string] in
  FindTestModules excl "/repo/tests" (with_fixtures broken_fixture)
                  nothing_found
  = FindTestModules excl "/repo/tests" (with_fixtures no_entries)
                    nothing_found /\
  filter is_error_log
    (log (fst (FindTestModules excl "/repo/tests"
                 (with_fixtures broken_fixture) nothing_found))) = [].
Proof.
  intros excl. split; [|reflexivity].
  apply (excluded_directories_are_never_visited excl "/repo/tests"
           (with_fixtures broken_fixture) (with_fixtures no_entries)
           nothing_found).
  reflexivity.
Defined.

(** C7. A unit that reaches its assertion function ([setUp] has returned
    and the unit is not skipped) and whose function settles (by returning,
    by an [AssertionError] or by any other error, thrown or rejected) or
    cannot even be called, calls [tearDown] exactly once, as its last step
    and after the assertion function. *)
Theorem tearDown_invoked_for_every_outcome :
  forall (config : Configure) (tm : TestModule) (aid : string)
         (def : AssertionDef),
    returns_normally (setUp tm) = true ->
    skipped_of config def = false ->
    function def <> Some Hangs ->
    exists before,
      unit_events (run_unit config tm aid (Some def))
      = before ++ [TearDown (id tm)] /\
      ~ In (TearDown (id tm)) before /\
      (function def <> None -> In (Invoke (id tm) aid) before).
Proof.
  intros config tm aid def Hup Hs Hh.
  unfold run_unit, unit_events, tear_down_and_resolve.
  rewrite Hup, read_skipped_object, Hs.
  cbv beta iota zeta delta [negb called].
  by_behaviour def;
    try congruence;
    match goal with
    | |- exists _, ?l = _ /\ _ => exists (removelast l)
    end; simpl; repeat split; intuition (discriminate || congruence).
Qed.

(** The unit whose error rejects the run still calls [tearDown]. *)
Lemma tearDown_invoked_for_every_outcome_fatal :
  returns_normally (setUp (loaded_as "c.js" [])) = true /\
  skipped_of sample_config crashing = false /\
  function crashing <> Some Hangs /\
  settled (run_unit sample_config (loaded_as "c.js" []) "x" (Some crashing))
  = Rejected (OtherError "boom") /\
  exists before,
    unit_events (run_unit sample_config (loaded_as "c.js" []) "x"
                          (Some crashing))
    = before ++ [TearDown "c.js"] /\
    ~ In (TearDown "c.js") before /\
    (function crashing <> None -> In (Invoke "c.js" "x") before).
Proof.
  split; [reflexivity|]. split; [reflexivity|]. split; [discriminate|].
  split; [reflexivity|].
  apply (tearDown_invoked_for_every_outcome sample_config
           (loaded_as "c.js" []) "x" crashing);
    [reflexivity | reflexivity | discriminate].
Defined.

(** C8, at an inspector that answers [Profiler.enable] with an error while
    coverage is enabled.  The claim has the failure logged and the run
    unaffected; [StartCoverage] rejects, nothing in [jester] catches it,
    the logger sees no error, no assertion runs and no exit code is set,
    whereas the same run without coverage ends with exit code 1. *)
Theorem coverage_start_failure_aborts_the_run :
  let h := without_profiler (sample_host pass_and_fail) in
  let run := jester (with_coverage sample_config) h in
  final run = Uncaught (OtherError "Profiler.enable failed") /\
  filter is_error_log (trace run) = [] /\
  (forall m a, ~ In (Invoke m a) (trace run)) /\
  final (jester sample_config h) = Done 1.
Proof.
  repeat split; try reflexivity. simpl. intuition discriminate.
Qed.

(** A snapshot that cannot be written is logged and leaves the exit code
    alone. *)
Example write_failure_is_logged_only :
  let h := sample_host pass_and_fail in
  let failing :=
    {| cwd := cwd h; root := root h; performance_now := performance_now h;
       profiler_enable := None; profiler_startPreciseCoverage := None;
       profiler_takePreciseCoverage := inr "{}"%string;
       coverage_readdir := inr [".gitignore"%string];
       writeFile_error := Some (OtherError "ENOSPC");
       Date_now := 5 |} in
  let run := jester (with_coverage sample_config) failing in
  final run = Done 1 /\
  In (Error (OtherError "ENOSPC")) (trace run) /\
  snd (ClearCoverageDirectory failing "coverage") = Fulfilled.
Proof. simpl. intuition. Qed.

(** C9, at a coverage directory that holds the sentinel and two older
    snapshots.  The claim has the clearing delete every entry but the
    sentinel.  [ClearCoverageDirectory] logs through a [logger] that it was
    not given: at the first entry that is not the sentinel the
    [ReferenceError] is thrown before [unlink] is reached, so both older
    snapshots stay, nothing is logged, and the promise of the clearing
    rejects with nothing to handle it.  No run ever asks for a file to be
    removed.  The snapshot of the run itself is written. *)
Theorem clearing_removes_nothing :
  let config := with_coverage sample_config in
  let h := sample_host pass_and_fail in
  let run := jester config h in
  coverage_readdir h
  = inr [".gitignore"; "coverage-1.json"; "coverage-2.json"]%string /\
  removable [".gitignore"; "coverage-1.json"; "coverage-2.json"]%string
  = ["coverage-1.json"; "coverage-2.json"]%string /\
  ClearCoverageDirectory h (coverageDir config)
  = ([Readdir "coverage"], Failed logger_is_not_defined) /\
  detached run = [Readdir "coverage"] /\
  unlinked (trace run ++ detached run) = [] /\
  filter is_error_log (trace run ++ detached run)
  = [Error (AssertionError "1 == 2")] /\
  writes (trace run ++ detached run)
  = [WriteFile "coverage/coverage-1700000000000.json" "{}"] /\
  forall (config' : Configure) (h' : host),
    unlinked (trace (jester config' h') ++ detached (jester config' h')) = [].
Proof.
  repeat split; try reflexivity. apply jester_never_unlinks.
Qed.

(** C10, at a module that exports [assertions = { x: null }].  Discovery
    accepts it without a word.  The claim has the run reject fatally, as it
    does for an entry that is an object without a callable [function]; but
    [skip] is read outside the [try]: for [null] the read throws inside the
    [async] executor, neither [resolve] nor [reject] is called, the unit
    never settles, [tearDown] is not called, and [jester] neither logs an
    error nor exits with -1. *)
Theorem null_assertion_stalls_the_run :
  let config := sample_config in
  let h := sample_host null_entry in
  let found := [fill_defaults "n.js" exporting_null [("x"%string, None)]] in
  let run := jester config h in
  discover (excludeDirs config) (cwd h) (root h) (testDirs config)
           nothing_found
  = ({| log := [Debug "Looking in: /repo/tests"; Readdir "/repo/tests";
                Stat "/repo/tests/n.js";
                Debug "Found file: /repo/tests/n.js";
                Import "/repo/tests/n.js"; Debug "Found module: n.js"];
        testModules := found |}, Fulfilled) /\
  RunTests found config 0 7 = ([SetUp "n.js"], RunPending) /\
  final run = Stalled /\
  filter is_error_log (trace run) = [] /\
  final (jester config (sample_host (one_file "n.js"
                                       [("x"%string, not_callable)])))
  = Exit (-1).
Proof. repeat split; reflexivity. Qed.

(** A [setUp] that throws has the same effect: the passing assertion of
    [s.js] is never called and the run never settles. *)
Example throwing_setUp_stalls_the_run :
  let run := jester sample_config (sample_host throwing_setUp) in
  final run = Stalled /\
  forall m a, ~ In (Invoke m a) (trace run).
Proof. split; [reflexivity|]. simpl. intuition discriminate. Qed.

(** * Further properties *)

(** ** Outcomes of [RunTests] *)

(** X1. [RunTests] rejects exactly when some unit gets past [setUp], is not
    skipped, and has nothing callable under [function] or a function that
    fails with something that is not an [AssertionError]; units that hang
    or resolve do not prevent it. *)
Theorem RunTests_rejects_iff_some_unit_is_fatal :
  forall (found : list TestModule) (config : Configure) (t0 t1 : Z),
    (exists e, snd (RunTests found config t0 t1) = RunRejected e) <->
    (exists tm aid v,
        In tm found /\ In (aid, v) (assertions tm) /\
        fatal config tm v = true).
Proof.
  intros found config t0 t1. split.
  - intros [e He]. eapply rejected_run_has_a_fatal_unit. exact He.
  - intros (tm & aid & v & Hm & Ha & Hf).
    pose proof (run_unit_settled config tm aid v) as H.
    destruct (settled (run_unit config tm aid v)) as [r|err|] eqn:Hs.
    + destruct H as [H _]. congruence.
    + destruct (rejected_unit_rejects_run config found t0 t1 tm aid v err
                  Hm Ha Hs) as (e & He & _).
      exists e. exact He.
    + destruct H as [H _]. congruence.
Qed.

(** X2. [RunTests] never settles exactly when no unit rejects and some
    unit never settles: its [setUp] throws, its assertion is [null] outside
    a dry run, its function never settles, or its [tearDown] throws.  There
    is no timeout. *)
Theorem RunTests_stalls_iff_a_unit_hangs_and_none_is_fatal :
  forall (found : list TestModule) (config : Configure) (t0 t1 : Z),
    snd (RunTests found config t0 t1) = RunPending <->
    (forall tm aid v,
        In tm found -> In (aid, v) (assertions tm) ->
        fatal config tm v = false) /\
    (exists tm aid v,
        In tm found /\ In (aid, v) (assertions tm) /\
        hanging config tm v = true).
Proof.
  intros found config t0 t1. unfold RunTests. simpl. split.
  - intros H.
    destruct (first_rejection (units config found)) as [e'|] eqn:Hr;
      [discriminate|].
    destruct (all_resolved (units config found)) eqn:Ha; [discriminate|].
    split.
    + intros tm aid v Hm Hin.
      pose proof (run_unit_settled config tm aid v) as Hs.
      destruct (settled (run_unit config tm aid v)) as [r|err|] eqn:E;
        try tauto.
      pose proof (In_units config found tm aid v Hm Hin) as Hu.
      destruct (first_rejection_complete _ _ _ Hu E) as [e He]. congruence.
    + apply all_resolved_None in Ha as (u & Hu & Hn).
      apply units_inv in Hu as (tm & aid & v & -> & Hm & Hin).
      exists tm, aid, v.
      pose proof (run_unit_settled config tm aid v) as Hs.
      destruct (settled (run_unit config tm aid v)) as [r|err|] eqn:E.
      * now elim (Hn r).
      * exfalso.
        pose proof (In_units config found tm aid v Hm Hin) as Hu.
        destruct (first_rejection_complete _ _ _ Hu E) as [e He]. congruence.
      * tauto.
  - intros [Hnone (tm & aid & v & Hm & Hin & Hh)].
    destruct (first_rejection (units config found)) as [e|] eqn:Hr.
    + exfalso. apply first_rejection_sound in Hr as (u & Hu & Hs).
      apply units_inv in Hu as (tm' & aid' & v' & -> & Hm' & Hin').
      pose proof (run_unit_settled config tm' aid' v') as H.
      rewrite Hs in H. rewrite (Hnone tm' aid' v' Hm' Hin') in H.
      discriminate.
    + destruct (all_resolved (units config found)) as [rs|] eqn:Ha;
        [|reflexivity].
      exfalso. apply all_resolved_Forall2 in Ha.
      pose proof (In_units config found tm aid v Hm Hin) as Hu.
      destruct (Forall2_In_l _ _ _ _ Ha Hu) as (r & _ & Hs).
      pose proof (run_unit_settled config tm aid v) as H.
      rewrite Hs in H. destruct H as (_ & H & _). congruence.
Qed.

(** X3. In a run that resolves, the elapsed time is the difference of the
    two clock readings and, unit by unit in launch order, [result] is false
    exactly when the unit is not skipped and its function failed with an
    [AssertionError]; no unit was fatal and none hangs. *)
Theorem result_is_false_exactly_for_assertion_errors :
  forall (found : list TestModule) (config : Configure) (t0 t1 : Z)
         (evs : list event) (results : list AssertionResult) (elapsed : Z),
    RunTests found config t0 t1 = (evs, RunResolved results elapsed) ->
    elapsed = (t1 - t0)%Z /\
    Forall2 (fun '(tm, aid, def) r =>
               result r = negb (violating config def) /\
               fatal config tm def = false /\ hanging config tm def = false)
            (jobs found) results.
Proof.
  intros found config t0 t1 evs results elapsed H. unfold RunTests in H.
  destruct (first_rejection (units config found)); [discriminate|].
  destruct (all_resolved (units config found)) as [rs|] eqn:All;
    [|discriminate].
  injection H as _ <- <-. split; [reflexivity|].
  apply all_resolved_Forall2 in All. unfold units in All.
  apply Forall2_map_l in All.
  eapply Forall2_impl; [|exact All].
  intros [[tm aid] def] r Hr. simpl in Hr.
  pose proof (run_unit_settled config tm aid def) as H.
  rewrite Hr in H. tauto.
Qed.

Lemma result_is_false_exactly_for_assertion_errors_sample :
  let found := [loaded_as "m.js" [("one"%string, passing);
                                  ("two"%string, violated)]] in
  RunTests found sample_config 0 7
  = (fst (RunTests found sample_config 0 7),
     RunResolved [result_of "m.js" "one" true; result_of "m.js" "two" false]
                 7) /\
  Forall2 (fun '(tm, aid, def) r =>
             result r = negb (violating sample_config def) /\
             fatal sample_config tm def = false /\
             hanging sample_config tm def = false)
          (jobs found)
          [result_of "m.js" "one" true; result_of "m.js" "two" false].
Proof.
  intros found. split; [reflexivity|].
  apply (result_is_false_exactly_for_assertion_errors found sample_config 0 7
           (fst (RunTests found sample_config 0 7))
           [result_of "m.js" "one" true; result_of "m.js" "two" false] 7).
  reflexivity.
Defined.

Lemma skipped_units_run (js : list (TestModule * string * option AssertionDef)) :
  let us := map (fun '(tm, aid, _) => skipped_unit tm aid) js in
  flat_map launch us
  = flat_map (fun '(tm, _, _) => [SetUp (id tm); TearDown (id tm)]) js /\
  flat_map resume us = [] /\
  first_rejection us = None /\
  all_resolved us
  = Some (map (fun '(tm, aid, _) =>
                 {| testModuleId := id tm; assertionId := aid;
                    result := true; skipped := true |}) js).
Proof.
  induction js as [|[[tm aid] def] js (Hl & Hr & Hf & Ha)]; simpl;
    [repeat split; reflexivity|].
  simpl in *. rewrite Hl, Hr, Ha. repeat split.
  unfold first_rejection in *. simpl.
  destruct (first_some (rejection_in AtLaunch) _); [discriminate | exact Hf].
Qed.

Lemma dry_run_reads_true (config : Configure) (v : option AssertionDef) :
  dryRun config = true -> read_skipped config v = inr true.
Proof. intros H. apply read_skipped_true. now left. Qed.

(** X4. With [dryRun] set no assertion function is called and [RunTests]
    never rejects, whatever the modules hold; when the hooks of every
    module with an assertion return, it resolves, every result is skipped
    and true, and [setUp] and [tearDown] are called once for every
    assertion. *)
Theorem dry_run_skips_everything_but_the_hooks :
  forall (found : list TestModule) (config : Configure) (t0 t1 : Z),
    dryRun config = true ->
    (forall m a, ~ In (Invoke m a) (fst (RunTests found config t0 t1))) /\
    (forall e, snd (RunTests found config t0 t1) <> RunRejected e) /\
    ((forall tm,
         In tm found -> assertions tm <> [] -> hooks_return tm = true) ->
     RunTests found config t0 t1
     = (flat_map (fun '(tm, _, _) => [SetUp (id tm); TearDown (id tm)])
                 (jobs found),
        RunResolved
          (map (fun '(tm, aid, _) =>
                  {| testModuleId := id tm; assertionId := aid;
                     result := true; skipped := true |})
               (jobs found))
          (t1 - t0))).
Proof.
  intros found config t0 t1 Hdry. split; [|split].
  - intros m a Hin. unfold RunTests, run_trace in Hin. simpl in Hin.
    assert (H : exists u, In u (units config found)
                          /\ In (Invoke m a) (unit_events u)).
    { apply in_app_or in Hin as [Hin | Hin];
        apply in_flat_map in Hin as (u & Hu & Hin); exists u;
        (split; [exact Hu|]); unfold unit_events; apply in_or_app; auto. }
    destruct H as (u & Hu & Hev).
    apply units_inv in Hu as (tm & aid & v & -> & _).
    exact (skipped_unit_never_invokes config tm aid v
             (dry_run_reads_true config v Hdry) m a Hev).
  - intros e He.
    apply rejected_run_has_a_fatal_unit in He as (tm & aid & v & _ & _ & Hf).
    unfold fatal, skipped_of in Hf. rewrite Hdry in Hf.
    destruct (returns_normally (setUp tm)), v; discriminate.
  - intros Hhooks.
    assert (Hunits : units config found
                     = map (fun '(tm, aid, _) => skipped_unit tm aid)
                           (jobs found)).
    { unfold units. apply map_ext_in. intros [[tm aid] v] Hj. simpl.
      apply In_jobs in Hj as [Hm Ha].
      apply run_unit_skipped; [now apply dry_run_reads_true|].
      apply Hhooks; [exact Hm|]. intros E. rewrite E in Ha. destruct Ha. }
    destruct (skipped_units_run (jobs found)) as (Hl & Hr & Hf & Ha).
    unfold RunTests, run_trace. rewrite Hunits, Hl, Hr, Hf, Ha.
    now rewrite app_nil_r.
Qed.

(** A dry run of a module with an assertion that would throw, one that
    cannot be called and one that is [null]. *)
Lemma dry_run_skips_everything_but_the_hooks_sample :
  let found := [fill_defaults "m.js" (exporting [])
                  [("one"%string, Some crashing);
                   ("two"%string, Some not_callable);
                   ("three"%string, None)]] in
  dryRun (with_dryRun sample_config) = true /\
  RunTests found (with_dryRun sample_config) 0 7
  = ([SetUp "m.js"; TearDown "m.js"; SetUp "m.js"; TearDown "m.js";
      SetUp "m.js"; TearDown "m.js"],
     RunResolved
       [ {| testModuleId := "m.js"; assertionId := "one";
            result := true; skipped := true |};
         {| testModuleId := "m.js"; assertionId := "two";
            result := true; skipped := true |};
         {| testModuleId := "m.js"; assertionId := "three";
            result := true; skipped := true |} ] 7).
Proof.
  intros found. split; [reflexivity|].
  destruct (dry_run_skips_everything_but_the_hooks
              found (with_dryRun sample_config) 0 7 eq_refl)
    as (_ & _ & Hresolves).
  apply Hresolves. intros tm [<- | []] _. reflexivity.
Defined.

Lemma count_flat_map {A : Type} (p : event -> bool) (f : A -> list event)
    (l : list A) :
  List.length (filter p (flat_map f l))
  = list_sum (map (fun a => List.length (filter p (f a))) l).
Proof.
  induction l as [|a l IH]; simpl; [reflexivity|].
  now rewrite filter_app, length_app, IH.
Qed.

(** X5. [setUp] is called once per assertion (not once per module),
    skipped or not; [tearDown] is called once per assertion whose unit
    gets past [setUp], the reading of [skip] and its assertion function. *)
Theorem hooks_run_once_per_assertion :
  forall (found : list TestModule) (config : Configure) (t0 t1 : Z),
    let evs := fst (RunTests found config t0 t1) in
    List.length (filter is_setUp evs) = List.length (jobs found) /\
    List.length (filter is_tearDown evs)
    = List.length (filter (fun '(tm, _, v) => reaches_tearDown config tm v)
                          (jobs found)).
Proof.
  intros found config t0 t1. unfold RunTests, run_trace, units. simpl.
  rewrite !filter_app, !length_app, !count_flat_map, !map_map.
  induction (jobs found) as [|[[tm aid] v] js [IH1 IH2]]; simpl;
    [split; reflexivity|].
  assert (Hs : List.length (filter is_setUp (launch (run_unit config tm aid v)))
               + List.length (filter is_setUp (resume (run_unit config tm aid v)))
               = 1).
  { by_unit config tm v; reflexivity. }
  assert (Ht : List.length (filter is_tearDown (launch (run_unit config tm aid v)))
               + List.length (filter is_tearDown (resume (run_unit config tm aid v)))
               = if reaches_tearDown config tm v then 1 else 0).
  { unfold reaches_tearDown. by_unit config tm v; reflexivity. }
  split.
  - lia.
  - destruct (reaches_tearDown config tm v); simpl; lia.
Qed.

(** X24. An assertion that is an object with nothing callable under
    [function], not skipped, in a module whose [setUp] returns, makes its
    unit reject with a [TypeError]: [RunTests] rejects with an error that is
    not an [AssertionError], the process exits with -1 and no result is
    reported. *)
Theorem object_without_function_rejects_the_run :
  forall (config : Configure) (h : host) (st : discovery)
         (tm : TestModule) (aid : string) (def : AssertionDef),
    exitAfter config = false ->
    discover (excludeDirs config) (cwd h) (root h) (testDirs config)
             nothing_found = (st, Fulfilled) ->
    (coverageEnabled config = true -> snd (StartCoverage h) = Fulfilled) ->
    In tm (testModules st) -> In (aid, Some def) (assertions tm) ->
    returns_normally (setUp tm) = true ->
    skipped_of config def = false ->
    function def = None ->
    settled (run_unit config tm aid (Some def)) = Rejected not_a_function /\
    (exists e,
       snd (RunTests (testModules st) config (fst (performance_now h))
                     (snd (performance_now h))) = RunRejected e /\
       instanceof_AssertionError e = false) /\
    final (jester config h) = Exit (-1) /\
    (forall ev, In ev (trace (jester config h)) -> is_summary ev = false).
Proof.
  intros config h st tm aid def Hexit Hdisc Hcov Hm Ha Hup Hs Hf.
  assert (Hrej : settled (run_unit config tm aid (Some def))
                 = Rejected not_a_function).
  { unfold run_unit. rewrite Hup, read_skipped_object, Hs. simpl.
    now rewrite Hf. }
  destruct (rejected_unit_rejects_run config (testModules st)
              (fst (performance_now h)) (snd (performance_now h))
              tm aid (Some def) not_a_function Hm Ha Hrej) as (e & Hrun & He).
  destruct (jester_exits_when_run_rejects config h st e Hexit Hdisc Hcov Hrun)
    as (Hfinal & _ & Hquiet).
  split; [exact Hrej|]. split; [eauto|]. split; [exact Hfinal | exact Hquiet].
Qed.

(** A module whose only assertion has no [function]. *)
Lemma object_without_function_rejects_the_run_sample :
  let config := sample_config in
  let h := sample_host (one_file "n.js" [("x"%string, not_callable)]) in
  testModules
    (fst (discover (excludeDirs config) (cwd h) (root h) (testDirs config)
                   nothing_found))
  = [loaded_as "n.js" [("x"%string, not_callable)]] /\
  snd (RunTests [loaded_as "n.js" [("x"%string, not_callable)]] config 0 7)
  = RunRejected not_a_function /\
  final (jester config h) = Exit (-1) /\
  (forall ev, In ev (trace (jester config h)) -> is_summary ev = false).
Proof.
  intros config h.
  destruct (object_without_function_rejects_the_run config h
              (fst (discover (excludeDirs config) (cwd h) (root h)
                             (testDirs config) nothing_found))
              (loaded_as "n.js" [("x"%string, not_callable)])
              "x"%string not_callable)
    as (_ & _ & Hfinal & Hquiet); try reflexivity.
  - now left.
  - now left.
  - repeat split; assumption.
Defined.

(** ** The report and the exit code *)

Lemma group_step_own (o o' : module_results) (r : AssertionResult) :
  lookup_own "__proto__" (own o) = None ->
  group_step o r = inr o' ->
  own o' = grouped_own (own o) r.
Proof.
  intros Hp. unfold group_step, grouped_own, has_own, is_proto.
  destruct (lookup_own "hasOwnProperty" (own o)); [discriminate|].
  destruct (String.eqb_spec (testModuleId r) "__proto__") as [E|E].
  - rewrite E, Hp. unfold set_fresh, push_result. simpl.
    now intros [= <-].
  - apply String.eqb_neq in E.
    destruct (lookup_own (testModuleId r) (own o)) eqn:L.
    + unfold push_result, has_own. rewrite E, L. now intros [= <-].
    + unfold set_fresh, push_result, has_own. rewrite E. simpl.
      rewrite lookup_fresh, L, String.eqb_refl. now intros [= <-].
Qed.

Lemma group_step_succeeds (o : module_results) (r : AssertionResult) :
  lookup_own "hasOwnProperty" (own o) = None ->
  lookup_own "__proto__" (own o) = None ->
  exists o', group_step o r = inr o'.
Proof.
  intros Hh Hp. unfold group_step, has_own, is_proto. rewrite Hh.
  destruct (String.eqb_spec (testModuleId r) "__proto__") as [E|E].
  - rewrite E, Hp. unfold set_fresh, push_result. simpl. eauto.
  - apply String.eqb_neq in E.
    destruct (lookup_own (testModuleId r) (own o)) eqn:L.
    + unfold push_result, has_own. rewrite E, L. eauto.
    + unfold set_fresh, push_result, has_own. rewrite E. simpl.
      rewrite lookup_fresh, L, String.eqb_refl. eauto.
Qed.

Lemma lookup_grouped_own (props : list (string * list AssertionResult))
    (r : AssertionResult) (k : string) :
  k <> testModuleId r ->
  lookup_own k (grouped_own props r) = lookup_own k props.
Proof.
  intros Hk. unfold grouped_own. destruct (is_proto _); [reflexivity|].
  rewrite lookup_push_own.
  destruct (String.eqb_spec (testModuleId r) k) as [E|_]; [congruence|].
  destruct (lookup_own (testModuleId r) props); [reflexivity|].
  rewrite lookup_fresh.
  destruct (lookup_own k props); [reflexivity|].
  destruct (String.eqb_spec (testModuleId r) k); [congruence | reflexivity].
Qed.

Lemma lookup_proto_grouped_own (props : list (string * list AssertionResult))
    (r : AssertionResult) :
  lookup_own "__proto__" props = None ->
  lookup_own "__proto__" (grouped_own props r) = None.
Proof.
  intros H. destruct (String.eqb_spec (testModuleId r) "__proto__") as [E|E].
  - unfold grouped_own, is_proto. rewrite E. simpl. exact H.
  - rewrite lookup_grouped_own; [exact H | congruence].
Qed.

Lemma keys_grouped_own (props : list (string * list AssertionResult))
    (r : AssertionResult) :
  map fst (grouped_own props r)
  = if is_proto (testModuleId r) then map fst props
    else add_key (map fst props) (testModuleId r).
Proof.
  unfold grouped_own, add_key. destruct (is_proto _); [reflexivity|].
  rewrite keys_push_own.
  destruct (lookup_own (testModuleId r) props) eqn:L.
  - destruct (in_dec _ _ _) as [_|Hn]; [reflexivity|].
    apply lookup_None_keys in Hn. congruence.
  - destruct (in_dec _ _ _) as [Hi|_].
    + apply lookup_None_keys in L. contradiction.
    + now rewrite map_app.
Qed.

Lemma NoDup_add_key (keys : list string) (key : string) :
  NoDup keys -> NoDup (add_key keys key).
Proof.
  intros H. unfold add_key. destruct (in_dec _ _ _) as [_|Hn]; [exact H|].
  apply NoDup_app; [exact H | repeat constructor; intros [] |].
  intros a Ha [<- | []]. contradiction.
Qed.

Lemma In_add_key (keys : list string) (key k : string) :
  In k (add_key keys key) <-> In k keys \/ k = key.
Proof.
  unfold add_key. destruct (in_dec _ _ _) as [Hi|_].
  - split; [auto|]. intros [H | ->]; assumption.
  - rewrite in_app_iff. simpl. intuition.
Qed.

Lemma concat_push_own (key : string) (r : AssertionResult)
    (props : list (string * list AssertionResult)) :
  In key (map fst props) ->
  Permutation (List.concat (map snd (push_own key r props)))
              (r :: List.concat (map snd props)).
Proof.
  induction props as [|[k v] props IH]; simpl; [tauto|].
  destruct (String.eqb_spec k key) as [->|Hne]; simpl.
  - intros _. rewrite <- app_assoc. simpl.
    symmetry. apply Permutation_middle.
  - intros [E | Hin]; [congruence|].
    rewrite (IH Hin). symmetry.
    change (r :: v ++ List.concat (map snd props))
      with ([r] ++ v ++ List.concat (map snd props)).
    rewrite app_assoc.
    rewrite (Permutation_app_comm [r] v). now rewrite <- app_assoc.
Qed.

Lemma concat_grouped_own (props : list (string * list AssertionResult))
    (r : AssertionResult) :
  Permutation (List.concat (map snd (grouped_own props r)))
              (filter not_proto [r] ++ List.concat (map snd props)).
Proof.
  unfold grouped_own, not_proto. simpl.
  destruct (is_proto (testModuleId r)); simpl; [reflexivity|].
  destruct (lookup_own (testModuleId r) props) eqn:L.
  - apply concat_push_own.
    destruct (in_dec string_dec (testModuleId r) (map fst props)) as [H|H];
      [exact H|]. apply lookup_None_keys in H. congruence.
  - rewrite concat_push_own.
    + rewrite map_app, concat_app. simpl. now rewrite app_nil_r.
    + rewrite map_app. apply in_or_app. right. now left.
Qed.

(** Grouping a whole list. *)
Lemma group_results_own (rs : list AssertionResult) :
  forall o o',
    lookup_own "__proto__" (own o) = None ->
    group_results o rs = inr o' ->
    own o' = fold_left grouped_own rs (own o).
Proof.
  induction rs as [|r rs IH]; intros o o' Hp; simpl.
  - now intros [= <-].
  - destruct (group_step o r) as [err|o1] eqn:Hs; [discriminate|].
    intros H. rewrite <- (group_step_own o o1 r Hp Hs).
    apply IH; [|exact H].
    rewrite (group_step_own o o1 r Hp Hs).
    now apply lookup_proto_grouped_own.
Qed.

Lemma group_results_succeeds (rs : list AssertionResult) :
  forall o,
    lookup_own "hasOwnProperty" (own o) = None ->
    lookup_own "__proto__" (own o) = None ->
    ~ In "hasOwnProperty"%string (map testModuleId rs) ->
    exists o', group_results o rs = inr o'.
Proof.
  induction rs as [|r rs IH]; intros o Hh Hp Hn; simpl; [eauto|].
  destruct (group_step_succeeds o r Hh Hp) as [o1 Hs]. rewrite Hs.
  simpl in Hn. apply IH.
  - rewrite (group_step_own o o1 r Hp Hs).
    rewrite lookup_grouped_own; [exact Hh | intuition].
  - rewrite (group_step_own o o1 r Hp Hs).
    now apply lookup_proto_grouped_own.
  - intuition.
Qed.

Lemma fold_grouped_own_filter (rs : list AssertionResult) :
  forall props,
    fold_left grouped_own (filter not_proto rs) props
    = fold_left grouped_own rs props.
Proof.
  induction rs as [|r rs IH]; intros props; simpl; [reflexivity|].
  unfold not_proto at 1. destruct (is_proto (testModuleId r)) eqn:E; simpl.
  - rewrite IH. f_equal. unfold grouped_own. now rewrite E.
  - apply IH.
Qed.

Lemma fold_grouped_own_concat (rs : list AssertionResult) :
  forall props,
    Permutation (List.concat (map snd (fold_left grouped_own rs props)))
                (filter not_proto rs ++ List.concat (map snd props)).
Proof.
  induction rs as [|r rs IH]; intros props; simpl; [reflexivity|].
  rewrite IH, concat_grouped_own. simpl.
  destruct (not_proto r); simpl.
  - symmetry. apply Permutation_middle.
  - reflexivity.
Qed.

Lemma fold_grouped_own_keys (rs : list AssertionResult) :
  forall props,
    map fst (fold_left grouped_own rs props)
    = fold_left add_key (map testModuleId (filter not_proto rs))
                (map fst props).
Proof.
  induction rs as [|r rs IH]; intros props; simpl; [reflexivity|].
  rewrite IH, keys_grouped_own. unfold not_proto.
  now destruct (is_proto (testModuleId r)).
Qed.

Lemma fold_add_key_NoDup (keys : list string) :
  forall acc, NoDup acc -> NoDup (fold_left add_key keys acc).
Proof.
  induction keys as [|k keys IH]; intros acc H; simpl; [exact H|].
  apply IH. now apply NoDup_add_key.
Qed.

Lemma fold_add_key_In (keys : list string) :
  forall acc k, In k (fold_left add_key keys acc) <-> In k acc \/ In k keys.
Proof.
  induction keys as [|k' keys IH]; intros acc k; simpl; [tauto|].
  rewrite IH, In_add_key. intuition.
Qed.

(** The report. *)
Lemma report_assertions_lines (rs : list AssertionResult) (n : nat) :
  fst (report_assertions rs n) = map assertion_line rs.
Proof.
  revert n. induction rs as [|r rs IH]; intros n; simpl; [reflexivity|].
  specialize (IH (if negb (result r) then S n else n)).
  destruct (report_assertions rs _) as [evs m]. simpl in *. now rewrite IH.
Qed.

Lemma lines_are_lines (rs : list AssertionResult) :
  filter is_assertion_line (map assertion_line rs) = map assertion_line rs /\
  module_heads (map assertion_line rs) = [].
Proof.
  induction rs as [|r rs [IH1 IH2]]; simpl; [split; reflexivity|].
  rewrite IH1. split; [reflexivity | exact IH2].
Qed.

Lemma report_modules_lines (entries : list (string * list AssertionResult))
    (n : nat) :
  filter is_assertion_line (fst (report_modules entries n))
  = map assertion_line (List.concat (map snd entries)) /\
  module_heads (fst (report_modules entries n)) = map fst entries.
Proof.
  revert n. induction entries as [|[k rs] entries IH]; intros n; simpl;
    [split; reflexivity|].
  pose proof (report_assertions_lines rs 0) as Hl.
  destruct (report_assertions rs 0) as [evs m]. simpl in Hl. subst evs.
  specialize (IH (if (0 <? m)%nat then S n else n)).
  destruct (report_modules entries _) as [evs' m']. simpl in *.
  destruct IH as [IH1 IH2].
  destruct (lines_are_lines rs) as [L1 L2]. split.
  - rewrite filter_app. simpl. now rewrite IH1, map_app, L1.
  - unfold module_heads in *. rewrite flat_map_app. simpl.
    now rewrite IH2, L2.
Qed.

Lemma aggregate_by_own (rs : list AssertionResult) (testingTime : Z)
    (totalModules : nat) (reported : list event) (failedModules : nat) :
  aggregate rs testingTime totalModules = inr (reported, failedModules) ->
  let entries :=
    Object_entries {| own := fold_left grouped_own rs []; proto := None |} in
  reported = fst (report_modules entries 0)
               ++ [WriteTestingSummary testingTime failedModules totalModules]
  /\ failedModules = snd (report_modules entries 0).
Proof.
  unfold aggregate.
  destruct (group_results empty_object rs) as [err|o] eqn:G; [discriminate|].
  apply group_results_own in G; [|reflexivity]. simpl in G.
  unfold Object_entries. rewrite G. simpl.
  destruct (report_modules _ 0) as [evs n]. intros [= <- <-]. auto.
Qed.

Lemma aggregate_succeeds (rs : list AssertionResult) (testingTime : Z)
    (totalModules : nat) :
  ~ In "hasOwnProperty"%string (map testModuleId rs) ->
  exists reported failedModules,
    aggregate rs testingTime totalModules = inr (reported, failedModules).
Proof.
  intros Hn. unfold aggregate.
  destruct (group_results_succeeds rs empty_object eq_refl eq_refl Hn)
    as [o ->].
  destruct (report_modules _ 0) as [evs n]. eauto.
Qed.

(** Results of a module named [__proto__] leave no trace in the report. *)
Lemma aggregate_drops_proto (rs : list AssertionResult) (testingTime : Z)
    (totalModules : nat) :
  ~ In "hasOwnProperty"%string (map testModuleId rs) ->
  aggregate (filter not_proto rs) testingTime totalModules
  = aggregate rs testingTime totalModules.
Proof.
  intros Hn.
  assert (Hn' : ~ In "hasOwnProperty"%string
                  (map testModuleId (filter not_proto rs))).
  { intros H. apply Hn. apply in_map_iff in H as (r & E & Hr).
    apply filter_In in Hr as [Hr _]. apply in_map_iff. eauto. }
  destruct (aggregate_succeeds rs testingTime totalModules Hn)
    as (rep & n & E).
  destruct (aggregate_succeeds _ testingTime totalModules Hn')
    as (rep' & n' & E').
  rewrite E, E'.
  apply aggregate_by_own in E. apply aggregate_by_own in E'.
  rewrite fold_grouped_own_filter in E'.
  destruct E as [-> ->]. destruct E' as [-> ->]. reflexivity.
Qed.

(** X6. When no module is named [hasOwnProperty], grouping succeeds and
    the value assigned to [process.exitCode] is the number of distinct
    module ids, other than [__proto__], with a result of false. *)
Theorem exit_code_counts_failed_modules_not_named_proto :
  forall (rs : list AssertionResult) (testingTime : Z) (totalModules : nat),
    ~ In "hasOwnProperty"%string (map testModuleId rs) ->
    exists reported,
      aggregate rs testingTime totalModules
      = inr (reported, failed_module_count (filter not_proto rs)).
Proof.
  intros rs testingTime totalModules Hn.
  rewrite <- (aggregate_drops_proto rs testingTime totalModules Hn).
  apply aggregate_ordinary. apply Forall_forall. intros r Hr.
  apply filter_In in Hr as [Hr Hp]. split.
  - unfold not_proto, is_proto in Hp. apply negb_true_iff in Hp.
    now apply String.eqb_neq.
  - intros E. apply Hn. apply in_map_iff. eauto.
Qed.

Lemma exit_code_counts_failed_modules_not_named_proto_sample :
  let rs := [result_of "__proto__" "one" false; result_of "a.js" "one" false;
             result_of "a.js" "two" false; result_of "b.js" "one" true] in
  ~ In "hasOwnProperty"%string (map testModuleId rs) /\
  exists reported, aggregate rs 7 3 = inr (reported, 1%nat).
Proof.
  intros rs.
  assert (H : ~ In "hasOwnProperty"%string (map testModuleId rs))
    by (simpl; intuition discriminate).
  split; [exact H|].
  exact (exit_code_counts_failed_modules_not_named_proto rs 7 3 H).
Defined.

(** X7. Whenever the report is written, every result of a module not
    named [__proto__] appears in exactly one [WriteAssertionResult] call,
    every such module gets exactly one [WriteModuleHead], and the report
    ends with [WriteTestingSummary]. *)
Theorem every_result_is_reported_once :
  forall (rs : list AssertionResult) (testingTime : Z) (totalModules : nat)
         (reported : list event) (failedModules : nat),
    aggregate rs testingTime totalModules = inr (reported, failedModules) ->
    Permutation (filter is_assertion_line reported)
                (map assertion_line (filter not_proto rs)) /\
    NoDup (module_heads reported) /\
    (forall i, In i (module_heads reported) <->
               In i (map testModuleId (filter not_proto rs))) /\
    exists modules,
      reported
      = modules ++ [WriteTestingSummary testingTime failedModules totalModules].
Proof.
  intros rs testingTime totalModules reported failedModules H.
  apply aggregate_by_own in H. cbv zeta in H. destruct H as [-> _].
  set (o := {| own := fold_left grouped_own rs []; proto := None |}).
  destruct (report_modules_lines (Object_entries o) 0) as [Hl Hh].
  pose proof (Object_entries_perm o) as Hperm.
  assert (Hkeys : Permutation (map fst (Object_entries o))
                    (first_seen (map testModuleId (filter not_proto rs)))).
  { rewrite Hperm. simpl. now rewrite fold_grouped_own_keys. }
  split; [|split; [|split]].
  - rewrite filter_app. simpl. rewrite app_nil_r, Hl.
    apply Permutation_map.
    transitivity (List.concat (map snd (own o))).
    + clear - Hperm. induction Hperm; simpl.
      * reflexivity.
      * now apply Permutation_app_head.
      * rewrite !app_assoc. apply Permutation_app_tail.
        apply Permutation_app_comm.
      * etransitivity; eassumption.
    + simpl. rewrite fold_grouped_own_concat. simpl. now rewrite app_nil_r.
  - unfold module_heads. rewrite flat_map_app. simpl. rewrite app_nil_r.
    fold (module_heads (fst (report_modules (Object_entries o) 0))).
    rewrite Hh. eapply Permutation_NoDup; [symmetry; exact Hkeys|].
    apply fold_add_key_NoDup. constructor.
  - intros i. unfold module_heads. rewrite flat_map_app. simpl.
    rewrite app_nil_r.
    fold (module_heads (fst (report_modules (Object_entries o) 0))).
    rewrite Hh. split; intros Hi.
    + apply (Permutation_in _ Hkeys) in Hi. unfold first_seen in Hi.
      apply fold_add_key_In in Hi as [[] | Hi]. exact Hi.
    + apply (Permutation_in _ (Permutation_sym Hkeys)). unfold first_seen.
      apply fold_add_key_In. now right.
  - eauto.
Qed.

Lemma every_result_is_reported_once_sample :
  let rs := [result_of "a.js" "one" true; result_of "b.js" "one" false;
             result_of "a.js" "two" false] in
  let reported := [WriteModuleHead "a.js";
                   WriteAssertionResult true "one" false;
                   WriteAssertionResult false "two" false;
                   WriteModuleSummary "a.js" 2 1;
                   WriteModuleHead "b.js";
                   WriteAssertionResult false "one" false;
                   WriteModuleSummary "b.js" 1 1;
                   WriteTestingSummary 7 2 2] in
  aggregate rs 7 2 = inr (reported, 2%nat) /\
  Permutation (filter is_assertion_line reported)
              (map assertion_line (filter not_proto rs)).
Proof.
  intros rs reported. split; [reflexivity|].
  apply (every_result_is_reported_once rs 7 2 reported 2). reflexivity.
Defined.

Lemma no_index_entries (props : list (string * list AssertionResult)) :
  (forall k, In k (map fst props) -> array_index k = None) ->
  Object_entries {| own := props; proto := None |} = props.
Proof.
  unfold Object_entries. simpl. intros H.
  assert (Hi : indexed_entries props = [] /\ named_entries props = props).
  { induction props as [|[k v] props IH]; simpl; [split; reflexivity|].
    unfold named_entries in *. simpl.
    rewrite (H k (or_introl eq_refl)).
    destruct IH as [IH1 IH2]; [intros k' Hk'; apply H; now right|].
    split; [exact IH1 | now rewrite IH2]. }
  destruct Hi as [-> ->]. reflexivity.
Qed.

Lemma props_by_keys (props : list (string * list AssertionResult)) :
  NoDup (map fst props) ->
  props
  = map (fun k => (k, match lookup_own k props with
                      | Some v => v
                      | None => []
                      end))
        (map fst props).
Proof.
  induction props as [|[k v] props IH]; simpl; intros Hnd; [reflexivity|].
  inversion Hnd as [|? ? Hnot Hnd']; subst.
  rewrite String.eqb_refl. f_equal.
  rewrite (IH Hnd') at 1. apply map_ext_in. intros k' Hk'.
  destruct (String.eqb_spec k k') as [->|_]; [contradiction | reflexivity].
Qed.

Lemma report_modules_by_keys (rs : list AssertionResult) (keys : list string)
    (n : nat) :
  fst (report_modules
         (map (fun k => (k, filter (of_module k) rs)) keys) n)
  = flat_map (module_report rs) keys.
Proof.
  revert n. induction keys as [|k keys IH]; intros n; simpl; [reflexivity|].
  pose proof (report_assertions_lines (filter (of_module k) rs) 0) as Hl.
  pose proof (report_assertions_count (filter (of_module k) rs) 0) as Hc.
  destruct (report_assertions (filter (of_module k) rs) 0) as [evs m].
  simpl in Hl, Hc. subst evs m.
  specialize (IH (if (0 <? List.length
                            (filter (fun r => negb (result r))
                                    (filter (of_module k) rs)))%nat
                  then S n else n)).
  destruct (report_modules _ _) as [evs' m']. simpl in *. rewrite IH.
  unfold module_report. simpl. now rewrite <- app_assoc.
Qed.

(** X8. For module ids that are ordinary keys and not array indices,
    the report is, module by module in the order in which the ids first
    occur, the head, the results of that module in run order and the
    summary with the number of results and of failures, followed by the
    testing summary. *)
Theorem report_is_grouped_by_module :
  forall (rs : list AssertionResult) (testingTime : Z) (totalModules : nat),
    Forall (fun r => ordinary (testModuleId r)) rs ->
    (forall r, In r rs -> array_index (testModuleId r) = None) ->
    aggregate rs testingTime totalModules
    = inr (flat_map (module_report rs) (first_seen (map testModuleId rs))
             ++ [WriteTestingSummary testingTime (failed_module_count rs)
                                     totalModules],
           failed_module_count rs).
Proof.
  intros rs testingTime totalModules Hord Hidx.
  destruct (aggregate_ordinary rs testingTime totalModules Hord)
    as [reported Ha].
  rewrite Ha. f_equal. f_equal.
  destruct (group_results_ordinary rs [] empty_object groups_empty
              (fun H => H) Hord) as (o & Hg & Hgroups).
  simpl in Hgroups. destruct Hgroups as (_ & Hnd & Hl).
  apply aggregate_by_own in Ha. cbv zeta in Ha. destruct Ha as [-> _].
  f_equal.
  assert (Hown : own o = fold_left grouped_own rs []).
  { apply group_results_own in Hg; [exact Hg | reflexivity]. }
  assert (Hfilter : filter not_proto rs = rs).
  { clear - Hord. induction Hord as [|r rs [Hp _] _ IH]; simpl;
      [reflexivity|].
    assert (E : not_proto r = true).
    { unfold not_proto, is_proto. apply String.eqb_neq in Hp. now rewrite Hp. }
    now rewrite E, IH. }
  assert (Hkeys : map fst (own o) = first_seen (map testModuleId rs)).
  { rewrite Hown, fold_grouped_own_keys, Hfilter. reflexivity. }
  assert (Hprops : own o
                   = map (fun k => (k, filter (of_module k) rs))
                         (first_seen (map testModuleId rs))).
  { rewrite (props_by_keys (own o) Hnd), Hkeys.
    apply map_ext_in. intros k Hk. f_equal. rewrite Hl.
    destruct (in_dec string_dec k (map testModuleId rs)) as [_|Hn];
      [reflexivity|].
    exfalso. apply Hn. unfold first_seen in Hk.
    apply fold_add_key_In in Hk as [[] | Hk]. exact Hk. }
  rewrite <- Hown. rewrite no_index_entries.
  - rewrite Hprops. apply report_modules_by_keys.
  - intros k Hk. rewrite Hkeys in Hk. unfold first_seen in Hk.
    apply fold_add_key_In in Hk as [[] | Hk].
    apply in_map_iff in Hk as (r & <- & Hr). auto.
Qed.

Lemma report_is_grouped_by_module_sample :
  let rs := [result_of "a.js" "one" true; result_of "b.js" "one" false;
             result_of "a.js" "two" false] in
  aggregate rs 7 2
  = inr ([WriteModuleHead "a.js";
          WriteAssertionResult true "one" false;
          WriteAssertionResult false "two" false;
          WriteModuleSummary "a.js" 2 1;
          WriteModuleHead "b.js";
          WriteAssertionResult false "one" false;
          WriteModuleSummary "b.js" 1 1;
          WriteTestingSummary 7 2 2], 2%nat).
Proof.
  intros rs.
  apply (report_is_grouped_by_module rs 7 2).
  - repeat constructor; discriminate.
  - intros r [<- | [<- | [<- | []]]]; reflexivity.
Defined.

Lemma jester_Done_inv (config : Configure) (h : host) (n : Z) :
  final (jester config h) = Done n ->
  exitAfter config = false /\
  exists st ran results elapsed reported failedModules,
    discover (excludeDirs config) (cwd h) (root h) (testDirs config)
             nothing_found = (st, Fulfilled) /\
    RunTests (testModules st) config (fst (performance_now h))
             (snd (performance_now h)) = (ran, RunResolved results elapsed) /\
    aggregate results elapsed (List.length (testModules st))
    = inr (reported, failedModules) /\
    n = Z.of_nat failedModules.
Proof.
  unfold jester. destruct (exitAfter config); [discriminate|].
  destruct (discover _ _ _ _ _) as [st [|err]]; [|discriminate].
  unfold test_and_report.
  destruct (if coverageEnabled config then StartCoverage h else _)
    as [started [|err]]; [|discriminate].
  destruct (RunTests _ _ _ _) as [ran [results elapsed|err|]] eqn:R;
    try discriminate.
  destruct (if coverageEnabled config then WriteCoverageResults _ _ _ else _)
    as [written cleared].
  destruct (aggregate _ _ _) as [err|[reported failedModules]] eqn:A;
    [discriminate|].
  simpl. intros [= <-]. split; [reflexivity|].
  exists st, ran, results, elapsed, reported, failedModules. auto.
Qed.

Lemma Forall2_In_r {A B : Type} (P : A -> B -> Prop) (l : list A)
    (l' : list B) (b : B) :
  Forall2 P l l' -> In b l' -> exists a, In a l /\ P a b.
Proof.
  induction 1 as [|x y l l' Hxy _ IH]; intros Hin; [destruct Hin|].
  destruct Hin as [<- | Hin].
  - exists x. split; [now left | assumption].
  - destruct (IH Hin) as (a & Ha & Hp). exists a.
    split; [now right | assumption].
Qed.

Lemma resolved_results_come_from_modules (found : list TestModule)
    (config : Configure) (t0 t1 : Z) (evs : list event)
    (results : list AssertionResult) (elapsed : Z) :
  RunTests found config t0 t1 = (evs, RunResolved results elapsed) ->
  incl (map testModuleId results) (map id found).
Proof.
  intros H. unfold RunTests in H.
  destruct (first_rejection (units config found)); [discriminate|].
  destruct (all_resolved (units config found)) as [rs|] eqn:All;
    [|discriminate].
  injection H as _ <- _.
  apply all_resolved_Forall2 in All. unfold units in All.
  apply Forall2_map_l in All.
  intros i Hi. apply in_map_iff in Hi as (r & <- & Hr).
  destruct (Forall2_In_r _ _ _ _ All Hr) as ([[tm aid] def] & Hj & Hs).
  simpl in Hs. apply run_unit_resolved in Hs as (-> & _ & _).
  apply in_map. apply In_jobs in Hj. tauto.
Qed.

(** X9. When [jester] runs to its end, the exit code it sets lies
    between 0 and the number of discovered modules. *)
Theorem exit_code_is_at_most_the_number_of_modules :
  forall (config : Configure) (h : host) (n : Z),
    final (jester config h) = Done n ->
    (0 <= n <= Z.of_nat
                 (List.length
                    (testModules
                       (fst (discover (excludeDirs config) (cwd h) (root h)
                                      (testDirs config) nothing_found)))))%Z.
Proof.
  intros config h n H.
  apply jester_Done_inv in H
    as (_ & st & ran & results & elapsed & reported & m & Hd & Hr & Ha & ->).
  rewrite Hd. simpl. split; [lia|]. apply inj_le.
  apply resolved_results_come_from_modules in Hr.
  apply aggregate_by_own in Ha. cbv zeta in Ha. destruct Ha as [_ ->].
  set (o := {| own := fold_left grouped_own results []; proto := None |}).
  rewrite report_modules_count. simpl.
  transitivity (List.length (Object_entries o)); [apply filter_length_le|].
  rewrite (Permutation_length (Object_entries_perm o)).
  rewrite <- (length_map fst), <- (length_map id (testModules st)).
  apply NoDup_incl_length.
  - simpl. rewrite fold_grouped_own_keys. apply fold_add_key_NoDup.
    constructor.
  - intros k Hk. simpl in Hk. rewrite fold_grouped_own_keys in Hk.
    apply fold_add_key_In in Hk as [[] | Hk]. apply Hr.
    apply in_map_iff in Hk as (r & <- & Hin).
    apply filter_In in Hin as [Hin _]. now apply in_map.
Qed.

Lemma exit_code_is_at_most_the_number_of_modules_sample :
  let run := jester sample_config (sample_host pass_and_fail) in
  final run = Done 1 /\ (0 <= 1 <= 2)%Z.
Proof.
  intros run. split; [reflexivity|].
  apply (exit_code_is_at_most_the_number_of_modules
           sample_config (sample_host pass_and_fail) 1).
  reflexivity.
Defined.

(** ** What discovery finds *)

Lemma say_extend (st st0 : discovery) (evs : list event) :
  say (extend st st0) evs = extend st (say st0 evs).
Proof. unfold say, extend. simpl. now rewrite app_assoc. Qed.

Lemma push_module_extend (st st0 : discovery) (m : TestModule) :
  push_module (extend st st0) m = extend st (push_module st0 m).
Proof. unfold push_module, extend. simpl. now rewrite app_assoc. Qed.

Lemma extend_nothing (st : discovery) : extend st nothing_found = st.
Proof. destruct st. unfold extend. simpl. now rewrite !app_nil_r. Qed.

Lemma FindTestModules_frame (excl : list string) (d : directory) :
  forall dir st st0,
    FindTestModules excl dir d (extend st st0)
    = (extend st (fst (FindTestModules excl dir d st0)),
       snd (FindTestModules excl dir d st0)).
Proof.
  induction d using directory_mut with
    (P := fun e =>
            match e with
            | IsDirectory content =>
                forall dir st st0,
                  FindTestModules excl dir content (extend st st0)
                  = (extend st (fst (FindTestModules excl dir content st0)),
                     snd (FindTestModules excl dir content st0))
            | _ => True
            end)
    (P1 := fun es =>
             forall dir ff st st0,
               for_each_entry excl dir es ff (extend st st0)
               = (extend st (fst (for_each_entry excl dir es ff st0)),
                  snd (for_each_entry excl dir es ff st0)));
    try exact I; try assumption.
  - intros dir st st0. simpl. now rewrite say_extend.
  - intros dir st st0. simpl. rewrite say_extend. apply IHd.
  - reflexivity.
  - intros dir ff st st0. simpl. rewrite say_extend.
    destruct e as [err | loaded | content].
    + reflexivity.
    + destruct (String.eqb (extension name) "js"); [|apply IHd0].
      rewrite say_extend.
      destruct loaded as [err | module].
      * rewrite say_extend. apply IHd0.
      * destruct (export_assertions module); [|apply IHd0].
        rewrite say_extend, push_module_extend. apply IHd0.
    + destruct (existsb _ excl).
      * rewrite say_extend. apply IHd0.
      * rewrite IHd.
        destruct (FindTestModules excl (join dir name) content _) as [st' c].
        simpl. apply IHd0.
Qed.

(** X11. [FindTestModules] only appends to the log and to [testModules]:
    what it adds, and how it completes, does not depend on what was found
    or logged before. *)
Theorem discovery_only_appends :
  forall (excl : list string) (dir : string) (d : directory) (st : discovery),
    let alone := FindTestModules excl dir d nothing_found in
    FindTestModules excl dir d st = (extend st (fst alone), snd alone).
Proof.
  intros excl dir d st alone.
  rewrite <- (extend_nothing st) at 1. apply FindTestModules_frame.
Qed.

(** The modules and the completion of a scan do not depend on the log. *)
Lemma FindTestModules_modules (excl : list string) (dir : string)
    (d : directory) (st st' : discovery) :
  testModules st = testModules st' ->
  testModules (fst (FindTestModules excl dir d st))
  = testModules (fst (FindTestModules excl dir d st')) /\
  snd (FindTestModules excl dir d st) = snd (FindTestModules excl dir d st').
Proof.
  intros H.
  rewrite <- (extend_nothing st), <- (extend_nothing st').
  rewrite !FindTestModules_frame. simpl. now rewrite H.
Qed.

(** In the model, which fixes the order of the scans, the modules and the
    completion are even the same. *)
Lemma contributing_same_scan :
  forall (excl : list string) (dir : string) (d : directory) (st : discovery),
    testModules (fst (FindTestModules excl dir (contributing d) st))
    = testModules (fst (FindTestModules excl dir d st)) /\
    snd (FindTestModules excl dir (contributing d) st)
    = snd (FindTestModules excl dir d st).
Proof.
  intros excl dir d. revert dir.
  assert (H : forall dir st st',
             testModules st = testModules st' ->
             testModules (fst (FindTestModules excl dir (contributing d) st))
             = testModules (fst (FindTestModules excl dir d st')) /\
             snd (FindTestModules excl dir (contributing d) st)
             = snd (FindTestModules excl dir d st')); [|auto].
  induction d using directory_mut with
    (P := fun e =>
            match e with
            | IsDirectory content =>
                forall dir st st',
                  testModules st = testModules st' ->
                  testModules
                    (fst (FindTestModules excl dir (contributing content) st))
                  = testModules (fst (FindTestModules excl dir content st'))
                  /\ snd (FindTestModules excl dir (contributing content) st)
                     = snd (FindTestModules excl dir content st')
            | _ => True
            end)
    (P1 := fun es =>
             forall dir ff st st',
               testModules st = testModules st' ->
               testModules
                 (fst (for_each_entry excl dir (contributing_entries es) ff st))
               = testModules (fst (for_each_entry excl dir es ff st'))
               /\ snd (for_each_entry excl dir (contributing_entries es) ff st)
                  = snd (for_each_entry excl dir es ff st'));
    try exact I; try assumption.
  - intros dir st st' H. simpl. auto.
  - intros dir st st' H. simpl. apply IHd. exact H.
  - intros dir ff st st' H. simpl. auto.
  - intros dir ff st st' H. simpl contributing_entries.
    destruct e as [err | loaded | content]; simpl contributes; cbv iota.
    + simpl. auto.
    + destruct loaded as [err | module].
      * simpl. destruct (String.eqb (extension name) "js"); apply IHd0;
          exact H.
      * destruct (String.eqb (extension name) "js") eqn:E; simpl.
        -- destruct (export_assertions module) eqn:A; simpl; rewrite ?E, ?A.
           ++ apply IHd0. simpl. now rewrite H.
           ++ apply IHd0. exact H.
        -- rewrite E. apply IHd0. exact H.
    + simpl. destruct (existsb _ excl).
      * apply IHd0. exact H.
      * destruct (IHd (join dir name) (say st [Stat (join dir name)])
                      (say st' [Stat (join dir name)]) H) as [Hm Hc].
        destruct (FindTestModules excl (join dir name) (contributing content) _)
          as [s1 c1].
        destruct (FindTestModules excl (join dir name) content _) as [s2 c2].
        simpl in Hm, Hc. subst c2. apply IHd0. exact Hm.
Qed.

(** X12. Files that are not loaded, fail to load or load without
    [assertions] do not decide whether a scan is fulfilled, and a scan that
    is fulfilled finds the same modules with or without them, wherever
    they are in the tree. *)
Theorem unloadable_files_do_not_change_what_is_found :
  forall (excl : list string) (dir : string) (d : directory) (st : discovery),
    let with_them := FindTestModules excl dir d st in
    let without := FindTestModules excl dir (contributing d) st in
    (snd without = Fulfilled <-> snd with_them = Fulfilled) /\
    (snd with_them = Fulfilled ->
     Permutation (testModules (fst without)) (testModules (fst with_them))).
Proof.
  intros excl dir d st with_them without.
  destruct (contributing_same_scan excl dir d st) as [Hm Hc].
  fold with_them without in Hm, Hc. rewrite Hm, Hc.
  split; [reflexivity | intros _; apply Permutation_refl].
Qed.

(** Every discovered module has a non-empty id. *)
Lemma extension_js_nonempty (name : string) :
  extension name = "js"%string -> name <> ""%string.
Proof. intros H ->. discriminate H. Qed.

Lemma fill_defaults_id (name : string) (module : Exports)
    (exported : TestAssertions) :
  name <> ""%string -> id (fill_defaults name module exported) <> ""%string.
Proof.
  intros Hn. simpl. destruct (export_id module) as [i|]; [|exact Hn].
  destruct (String.eqb_spec i ""); [exact Hn | assumption].
Qed.

(** X13. Every module that discovery appends has a non-empty [id]. *)
Theorem discovered_modules_have_an_id :
  forall (excl : list string) (dir : string) (d : directory) (st : discovery),
    Forall (fun m => id m <> ""%string) (testModules st) ->
    Forall (fun m => id m <> ""%string)
           (testModules (fst (FindTestModules excl dir d st))).
Proof.
  intros excl dir d. revert dir.
  induction d using directory_mut with
    (P := fun e =>
            match e with
            | IsDirectory content =>
                forall dir st,
                  Forall (fun m => id m <> ""%string) (testModules st) ->
                  Forall (fun m => id m <> ""%string)
                    (testModules (fst (FindTestModules excl dir content st)))
            | _ => True
            end)
    (P1 := fun es =>
             forall dir ff st,
               Forall (fun m => id m <> ""%string) (testModules st) ->
               Forall (fun m => id m <> ""%string)
                 (testModules (fst (for_each_entry excl dir es ff st))));
    try exact I; try assumption.
  - intros dir st H. exact H.
  - intros dir st H. simpl. apply IHd. exact H.
  - intros dir ff st H. exact H.
  - intros dir ff st H. simpl.
    destruct e as [err | loaded | content].
    + exact H.
    + destruct (String.eqb_spec (extension name) "js") as [E|E]; [|auto].
      destruct loaded as [err | module]; [auto|].
      destruct (export_assertions module) as [exported|]; [|auto].
      apply IHd0. simpl. apply Forall_app. split; [exact H|].
      constructor; [|constructor].
      apply fill_defaults_id. now apply extension_js_nonempty.
    + destruct (existsb _ excl); [auto|].
      specialize (IHd (join dir name) (say st [Stat (join dir name)]) H).
      destruct (FindTestModules excl (join dir name) content _) as [st' c].
      apply IHd0. exact IHd.
Qed.

Lemma discovered_modules_have_an_id_sample :
  Forall (fun m => id m <> ""%string)
         (testModules
            (fst (FindTestModules [] "/repo/tests" pass_and_fail
                                  nothing_found))).
Proof.
  apply (discovered_modules_have_an_id [] "/repo/tests" pass_and_fail
           nothing_found).
  constructor.
Defined.

(** [split] and [extension]. *)
Lemma split_not_nil (sep : ascii) (s : string) : split sep s <> [].
Proof.
  destruct s as [|c s]; simpl; [discriminate|].
  destruct (Ascii.eqb c sep); [discriminate|].
  destruct (split sep s); discriminate.
Qed.

Lemma split_single (sep : ascii) (s seg : string) :
  split sep s = [seg] -> seg = s.
Proof.
  revert seg. induction s as [|c s IH]; intros seg; simpl.
  - now intros [= <-].
  - destruct (Ascii.eqb c sep).
    + intros [= _ H]. exfalso. exact (split_not_nil sep s H).
    + destruct (split sep s) as [|seg' segs] eqn:E;
        [exfalso; exact (split_not_nil sep s E)|].
      intros [= <- ->]. now rewrite (IH seg' eq_refl).
Qed.

Lemma last_cons_not_nil {A : Type} (a d : A) (l : list A) :
  l <> [] -> last (a :: l) d = last l d.
Proof. destruct l; [congruence | reflexivity]. Qed.

Lemma extension_cons (c : ascii) (s : string) :
  extension (String c s)
  = if Ascii.eqb c "."
    then extension s
    else match split "." s with
         | [_] => String c s
         | _ => extension s
         end.
Proof.
  unfold extension. simpl. destruct (Ascii.eqb c ".").
  - apply last_cons_not_nil, split_not_nil.
  - destruct (split "." s) as [|seg [|seg' segs]] eqn:E.
    + exfalso. exact (split_not_nil "." s E).
    + simpl. now rewrite (split_single _ _ _ E).
    + reflexivity.
Qed.

Lemma split_with_dot (stem : string) :
  exists seg seg' segs, split "." (stem ++ ".js") = seg :: seg' :: segs.
Proof.
  induction stem as [|c stem (seg & seg' & segs & IH)]; simpl.
  - exists ""%string, "js"%string, []. reflexivity.
  - rewrite IH. destruct (Ascii.eqb c "."); eauto.
Qed.

(** X14. [eachEntry.split('.').pop() === "js"] holds exactly for the
    name [js] and for the names that end in [.js]. *)
Theorem only_names_ending_in_js_are_loaded :
  forall name : string,
    extension name = "js"%string <->
    name = "js"%string \/ exists stem, name = (stem ++ ".js")%string.
Proof.
  intros name. split.
  - induction name as [|c name IH]; [discriminate|].
    rewrite extension_cons.
    destruct (Ascii.eqb_spec c ".") as [->|Hc].
    + intros H. right. destruct (IH H) as [-> | [stem ->]].
      * exists ""%string. reflexivity.
      * exists (String "." stem). reflexivity.
    + destruct (split "." name) as [|seg [|seg' segs]] eqn:E.
      * intros H. right. destruct (IH H) as [-> | [stem ->]];
          [discriminate E|]. exists (String c stem). reflexivity.
      * auto.
      * intros H. right. destruct (IH H) as [-> | [stem ->]];
          [discriminate E|]. exists (String c stem). reflexivity.
  - intros [-> | [stem ->]]; [reflexivity|].
    induction stem as [|c stem IH]; [reflexivity|].
    simpl. rewrite extension_cons.
    destruct (Ascii.eqb c "."); [exact IH|].
    destruct (split_with_dot stem) as (seg & seg' & segs & ->). exact IH.
Qed.

Lemma remove_drive_chars (s : string) :
  incl (chars (remove_drive s)) (chars s).
Proof.
  assert (H : forall n s, (String.length s <= n)%nat ->
                          incl (chars (remove_drive s)) (chars s)).
  { induction n as [|n IH]; intros [|c [|d rest]] Hn; simpl in *;
      try lia; try apply incl_refl.
    destruct ((Ascii.eqb c "c" || Ascii.eqb c "C") && Ascii.eqb d ":").
    - intros x Hx. right. right. apply (IH rest); [lia | exact Hx].
    - intros x [<- | Hx]; [now left|]. right.
      apply (IH (String d rest)); [simpl; lia | exact Hx]. }
  apply (H (String.length s)). lia.
Qed.

(** X15. The specifier passed to [import] never contains a backslash. *)
Theorem specifier_has_no_backslash :
  forall path : string, ~ In "\"%char (chars (specifier_of path)).
Proof.
  intros path H. apply remove_drive_chars in H. revert H.
  induction path as [|c path IH]; simpl; [tauto|].
  intros [E | H]; [|auto].
  destruct (Ascii.eqb_spec c "\"); [discriminate E | congruence].
Qed.

(** X16. A path without backslash and without colon is imported
    unchanged. *)
Theorem posix_paths_are_imported_as_they_are :
  forall path : string,
    ~ In "\"%char (chars path) -> ~ In ":"%char (chars path) ->
    specifier_of path = path.
Proof.
  intros path Hb Hc. unfold specifier_of.
  assert (E : replace_backslashes path = path).
  { clear Hc. induction path as [|c path IH]; simpl in *; [reflexivity|].
    destruct (Ascii.eqb_spec c "\") as [->|_]; [tauto|].
    rewrite IH; [reflexivity | tauto]. }
  rewrite E. clear E Hb.
  assert (H : forall n s, (String.length s <= n)%nat ->
                          ~ In ":"%char (chars s) -> remove_drive s = s).
  { induction n as [|n IH]; intros [|c [|d rest]] Hn Hs; simpl in *;
      try lia; try reflexivity.
    destruct (Ascii.eqb_spec d ":") as [->|_]; [tauto|].
    rewrite andb_false_r. f_equal.
    apply (IH (String d rest)); [simpl; lia | simpl; tauto]. }
  apply (H (String.length path)); [lia | exact Hc].
Qed.

Lemma posix_paths_are_imported_as_they_are_sample :
  specifier_of "/repo/tests/a.js" = "/repo/tests/a.js"%string.
Proof.
  apply (posix_paths_are_imported_as_they_are "/repo/tests/a.js");
    simpl; intuition discriminate.
Defined.

(** X17. Scanning one list of roots and then another is scanning the
    first and, if that is fulfilled, the second from what was found; after
    a failure the later roots are not looked at. *)
Theorem roots_are_scanned_in_turn :
  forall (excl : list string) (cwd : string) (root : string -> directory)
         (first others : list string) (st : discovery),
    discover excl cwd root (first ++ others) st
    = match discover excl cwd root first st with
      | (st', Fulfilled) => discover excl cwd root others st'
      | (st', Failed err) => (st', Failed err)
      end.
Proof.
  intros excl cwd root first others. induction first as [|d first IH];
    intros st; simpl; [reflexivity|].
  destruct (FindTestModules excl (join cwd d) (root (join cwd d)) st)
    as [st' [|err]]; [apply IH | reflexivity].
Qed.




(** *** Interleaved scans *)

Lemma said_app (l l' : timeline) : said (l ++ l') = said l ++ said l'.
Proof. apply flat_map_app. Qed.

Lemma found_app (l l' : timeline) : found (l ++ l') = found l ++ found l'.
Proof. apply flat_map_app. Qed.

Lemma said_at_turn (now : nat) (evs : list event) :
  said (at_turn now evs) = evs.
Proof. induction evs as [|e evs IH]; simpl; [reflexivity | now rewrite IH]. Qed.

Lemma found_at_turn (now : nat) (evs : list event) :
  found (at_turn now evs) = [].
Proof. induction evs as [|e evs IH]; simpl; [reflexivity | exact IH]. Qed.

Lemma already_rejected_failed (now : nat) (ff : list settles) :
  already_rejected now ff <> None -> forallb is_fulfilled ff = false.
Proof.
  induction ff as [|[t|t k e] ff IH]; simpl;
    [congruence | exact IH | reflexivity].
Qed.

Lemma first_to_reject_None (ff : list settles) :
  first_to_reject ff = None <-> forallb is_fulfilled ff = true.
Proof.
  induction ff as [|[t|t k e] ff IH]; simpl; [tauto | exact IH |].
  split; [|discriminate].
  destruct (first_to_reject ff) as [[[t' k'] e']|]; [|discriminate].
  destruct (earlier t' k' t k); discriminate.
Qed.

Lemma Promise_all_at_fulfilled (now position : nat) (ff : list settles) :
  is_fulfilled (Promise_all_at now position ff) = forallb is_fulfilled ff.
Proof.
  unfold Promise_all_at.
  destruct (already_rejected now ff) as [err|] eqn:E.
  - simpl. symmetry. apply (already_rejected_failed now). congruence.
  - destruct (first_to_reject ff) as [[[t k] e]|] eqn:F; simpl.
    + symmetry. destruct (forallb is_fulfilled ff) eqn:A; [|reflexivity].
      apply first_to_reject_None in A. congruence.
    + symmetry. now apply first_to_reject_None.
Qed.

Lemma Promise_all_fulfilled (ff : list completion) :
  Promise_all ff = Fulfilled <->
  forallb (fun c => match c with Fulfilled => true | Failed _ => false end) ff
  = true.
Proof.
  unfold Promise_all.
  induction ff as [|[|err] ff IH]; simpl; [tauto | exact IH |].
  split; discriminate.
Qed.

Lemma agree_all (ff : list settles) (ff' : list completion) :
  Forall2 agree ff ff' ->
  forallb is_fulfilled ff
  = forallb (fun c => match c with Fulfilled => true | Failed _ => false end) ff'.
Proof.
  induction 1 as [|s c ff ff' H _ IH]; simpl; [reflexivity|].
  rewrite IH. f_equal. unfold agree in H.
  destruct (is_fulfilled s), c; try reflexivity.
  - destruct H as [H _]. discriminate (H eq_refl).
  - destruct H as [_ H]. discriminate (H eq_refl).
Qed.

Section Same.
Variable latency : event -> nat.
Variable excl : list string.

Lemma same_say (done : timeline) (st : discovery) (now : nat)
    (evs : list event) :
  same done st -> same (done ++ at_turn now evs) (say st evs).
Proof.
  intros [Hs Hf]. split; simpl.
  - now rewrite said_app, said_at_turn, Hs.
  - now rewrite found_app, found_at_turn, app_nil_r.
Qed.

Lemma same_push (done : timeline) (st : discovery) (now : nat)
    (m : TestModule) :
  same done st -> same (done ++ [(now, Found m)]) (push_module st m).
Proof.
  intros [Hs Hf]. split; simpl.
  - rewrite said_app. simpl. now rewrite app_nil_r.
  - rewrite found_app. simpl. now rewrite Hf.
Qed.

Lemma timed_same (d : directory) :
  forall dir now done st,
    same done st ->
    same (fst (FindTestModules_timed latency excl dir d now done))
         (fst (FindTestModules excl dir d st)) /\
    agree (snd (FindTestModules_timed latency excl dir d now done))
          (snd (FindTestModules excl dir d st)).
Proof.
  induction d using directory_mut with
    (P := fun e =>
            match e with
            | IsDirectory content =>
                forall dir now done st,
                  same done st ->
                  same (fst (FindTestModules_timed latency excl dir content now done))
                       (fst (FindTestModules excl dir content st)) /\
                  agree (snd (FindTestModules_timed latency excl dir content now done))
                        (snd (FindTestModules excl dir content st))
            | _ => True
            end)
    (P1 := fun es =>
             forall dir now ff ff' done st,
               same done st -> Forall2 agree ff ff' ->
               same (fst (for_each_entry_timed latency excl dir es now ff done))
                    (fst (for_each_entry excl dir es ff' st)) /\
               agree (snd (for_each_entry_timed latency excl dir es now ff done))
                     (snd (for_each_entry excl dir es ff' st)));
    try exact I; try assumption.
  - intros dir now done st H. simpl. split.
    + now apply same_say.
    + split; discriminate.
  - intros dir now done st H. simpl. apply IHd; [|constructor].
    now apply (same_say _ _ now [_; _]).
  - intros dir now ff ff' done st H Hff. simpl. split; [exact H|].
    unfold agree. rewrite Promise_all_at_fulfilled, Promise_all_fulfilled.
    now rewrite (agree_all ff ff' Hff).
  - intros dir now ff ff' done st H Hff. simpl.
    pose proof (same_say _ _ now [Stat (join dir name)] H) as H1.
    destruct e as [err | loaded | content].
    + simpl. split; [exact H1 | split; discriminate].
    + destruct (String.eqb (extension name) "js"); [|now apply IHd0].
      pose proof (same_say _ _ (answered latency now (Stat (join dir name)))
                    [Debug ("Found file: " ++ join dir name);
                     Import (specifier_of (join dir name))] H1) as H2.
      destruct loaded as [err | module].
      * apply IHd0; [|exact Hff]. now apply (same_say _ _ _ [_; _]).
      * destruct (export_assertions module); [|now apply IHd0].
        apply IHd0; [|exact Hff].
        apply same_push. now apply (same_say _ _ _ [_]).
    + destruct (existsb _ excl).
      * apply IHd0; [|exact Hff]. now apply (same_say _ _ _ [_]).
      * destruct (IHd (join dir name)
                      (answered latency now (Stat (join dir name)))
                      _ _ H1) as [Hs Ha].
        simpl in Hs, Ha.
        destruct (FindTestModules_timed latency excl (join dir name) content
                    _ _) as [done' s].
        destruct (FindTestModules excl (join dir name) content _) as [st' c].
        apply IHd0; [exact Hs|].
        apply Forall2_app; [exact Hff | constructor; [exact Ha | constructor]].
Qed.
End Same.

Lemma insert_by_turn_perm (a : nat * action) (l : timeline) :
  Permutation (insert_by_turn a l) (a :: l).
Proof.
  induction l as [|b l IH]; simpl; [reflexivity|].
  destruct (fst a <=? fst b); [reflexivity|].
  rewrite IH. apply perm_swap.
Qed.

Lemma in_order_perm (l : timeline) : Permutation (in_order l) l.
Proof.
  induction l as [|a l IH]; simpl; [reflexivity|].
  rewrite insert_by_turn_perm. now constructor.
Qed.

Lemma before_incl (turn position index : nat) (l : timeline) :
  incl (before turn position index l) l.
Proof.
  revert index. induction l as [|a l IH]; intros index; simpl.
  - apply incl_refl.
  - destruct (earlier _ _ _ _).
    + apply incl_cons; [now left|]. apply incl_tl, IH.
    + apply incl_tl, IH.
Qed.

Lemma said_perm (l l' : timeline) :
  Permutation l l' -> Permutation (said l) (said l').
Proof. apply Permutation_flat_map. Qed.

Lemma found_perm (l l' : timeline) :
  Permutation l l' -> Permutation (found l) (found l').
Proof. apply Permutation_flat_map. Qed.

Lemma said_incl (l l' : timeline) : incl l l' -> incl (said l) (said l').
Proof.
  intros H e He. unfold said in *. apply in_flat_map in He as (a & Ha & He).
  apply in_flat_map. exists a. auto.
Qed.

Lemma found_incl (l l' : timeline) : incl l l' -> incl (found l) (found l').
Proof.
  intros H e He. unfold found in *. apply in_flat_map in He as (a & Ha & He).
  apply in_flat_map. exists a. auto.
Qed.

(** X25. The scans of subdirectories go on while their parent does; for
    every latency of the host's answers this changes the order in which
    things are logged and found, and nothing else: the call is fulfilled
    exactly when the model that runs the scans one after the other is,
    nothing is logged or found that the model does not have, and when the
    call is fulfilled the log lines and the modules are the same up to
    their order. *)
Theorem interleaving_only_reorders :
  forall (latency : event -> nat) (excl : list string) (dir : string)
         (d : directory),
    let sequential := FindTestModules excl dir d nothing_found in
    let interleaved := FindTestModules_interleaved latency excl dir d in
    (snd interleaved = Fulfilled <-> snd sequential = Fulfilled) /\
    incl (log (fst interleaved)) (log (fst sequential)) /\
    incl (testModules (fst interleaved)) (testModules (fst sequential)) /\
    (snd sequential = Fulfilled ->
     Permutation (log (fst interleaved)) (log (fst sequential)) /\
     Permutation (testModules (fst interleaved))
                 (testModules (fst sequential))).
Proof.
  intros latency excl dir d sequential interleaved.
  destruct (timed_same latency excl d dir 0 [] nothing_found)
    as [[Hs Hf] Ha]; [split; reflexivity|].
  fold sequential in Hs, Hf, Ha.
  unfold interleaved, FindTestModules_interleaved.
  destruct (FindTestModules_timed latency excl dir d 0 [])
    as [done [t | t k err]];
    simpl in Hs, Hf, Ha |- *.
  - assert (Hseq : snd sequential = Fulfilled) by now apply Ha.
    rewrite <- Hs, <- Hf.
    pose proof (said_perm _ _ (in_order_perm done)) as Ps.
    pose proof (found_perm _ _ (in_order_perm done)) as Pf.
    split; [tauto|].
    split; [intros e; apply Permutation_in; exact Ps|].
    split; [intros e; apply Permutation_in; exact Pf|].
    auto.
  - assert (Hseq : snd sequential <> Fulfilled).
    { intros E. apply Ha in E. discriminate. }
    rewrite <- Hs, <- Hf.
    split; [split; [discriminate | intros E; now elim Hseq]|].
    split; [|split; [|intros E; now elim Hseq]].
    + intros e He. eapply said_incl; [apply before_incl|].
      eapply Permutation_in; [|exact He].
      apply said_perm, in_order_perm.
    + intros e He. eapply found_incl; [apply before_incl|].
      eapply Permutation_in; [|exact He].
      apply found_perm, in_order_perm.
Qed.

(** With equal latencies, [z.js] is found before [sub/s.js], which the
    model that runs [sub] to its end has first. *)
Example subdirectory_is_overtaken :
  map id (testModules
            (fst (FindTestModules_interleaved (fun _ => 0%nat) []
                    "/repo/tests" sub_then_z)))
  = ["z.js"; "s.js"]%string /\
  map id (testModules
            (fst (FindTestModules [] "/repo/tests" sub_then_z nothing_found)))
  = ["s.js"; "z.js"]%string.
Proof. split; reflexivity. Qed.

(** ** Coverage, best effort *)

Lemma append_length (a b : string) :
  String.length (a ++ b) = String.length a + String.length b.
Proof. induction a as [|c a IH]; simpl; [reflexivity | now rewrite IH]. Qed.

Lemma append_cancel_r (a b s : string) :
  (a ++ s = b ++ s)%string -> a = b.
Proof.
  revert b. induction a as [|c a IH]; intros [|d b] H; simpl in *.
  - reflexivity.
  - apply (f_equal String.length) in H. simpl in H.
    rewrite append_length in H. lia.
  - apply (f_equal String.length) in H. simpl in H.
    rewrite append_length in H. lia.
  - injection H as -> H. f_equal. now apply IH.
Qed.

Lemma to_uint_not_Nil (n : N) : N.to_uint n <> Decimal.Nil.
Proof.
  destruct n as [|p]; [discriminate|]. apply Unsigned.to_uint_nonnil.
Qed.

Lemma decimal_injective (n m : N) : decimal n = decimal m -> n = m.
Proof.
  unfold decimal. intros H.
  apply (f_equal NilZero.uint_of_string) in H.
  rewrite !NilZero.usu in H by apply to_uint_not_Nil.
  injection H as H. now apply DecimalN.Unsigned.to_uint_inj.
Qed.

(** X19. Two snapshots of the same coverage directory have the same
    file name exactly when [Date.now()] gave the same value. *)
Theorem snapshot_names_differ_when_the_clock_differs :
  forall (config : Configure) (h h' : host),
    snapshot_file config h = snapshot_file config h' <->
    Date_now h = Date_now h'.
Proof.
  intros config h h'. unfold snapshot_file. split; [|now intros ->].
  intros H. apply append_injective in H.
  apply (append_injective "/coverage-") in H.
  apply append_cancel_r in H. now apply decimal_injective.
Qed.

(** X18. [ClearCoverageDirectory] asks for the listing of the directory
    and for nothing else: it removes nothing and logs nothing.  Its promise
    is fulfilled exactly when the listing succeeds and holds nothing but
    the sentinel; otherwise it rejects with the [ReferenceError] for
    [logger]. *)
Theorem clearing_only_lists_the_directory :
  forall (h : host) (dir : string),
    fst (ClearCoverageDirectory h dir) = [Readdir dir] /\
    (snd (ClearCoverageDirectory h dir) = Fulfilled <->
     exists entries,
       coverage_readdir h = inr entries /\ removable entries = []) /\
    (snd (ClearCoverageDirectory h dir) = Fulfilled \/
     snd (ClearCoverageDirectory h dir) = Failed logger_is_not_defined).
Proof.
  intros h dir. split; [reflexivity|].
  unfold ClearCoverageDirectory. simpl.
  destruct (coverage_readdir h) as [err | entries].
  - split; [|now right]. split; [discriminate|].
    intros (entries & H & _). discriminate.
  - rewrite remove_entries_settles.
    destruct (removable entries) as [|e rest] eqn:E.
    + split; [|now left]. split; [eauto | reflexivity].
    + split; [|now right]. split; [discriminate|].
      intros (entries' & [= <-] & H). congruence.
Qed.

(** X20. When starting coverage does not fail and the clearing, where it
    is requested, finds nothing to remove (so that its promise does not
    reject), the process ends as it does without coverage, and the calls
    into the test modules and the lines of the report are the same: a
    snapshot that cannot be taken or cannot be written changes nothing. *)
Theorem coverage_never_changes_the_tests :
  forall (config : Configure) (h : host),
    (coverageEnabled config = true -> snd (StartCoverage h) = Fulfilled) ->
    (coverageEnabled config = true -> clearCoverage config = true ->
     snd (ClearCoverageDirectory h (coverageDir config)) = Fulfilled) ->
    final (jester config h) = final (jester (without_coverage config) h) /\
    filter is_test_event (trace (jester config h))
    = filter is_test_event (trace (jester (without_coverage config) h)).
Proof.
  intros config h Hcov _. split; [now apply coverage_after_start_keeps_status|].
  unfold jester.
  change (exitAfter (without_coverage config)) with (exitAfter config).
  change (excludeDirs (without_coverage config)) with (excludeDirs config).
  change (testDirs (without_coverage config)) with (testDirs config).
  destruct (exitAfter config); [reflexivity|].
  destruct (discover _ _ _ _ _) as [st [|err]]; [|reflexivity].
  cbv beta iota zeta. unfold trace at 1 3. rewrite !filter_app. f_equal.
  rewrite (test_and_report_started config h _ Hcov).
  rewrite (test_and_report_started (without_coverage config) h);
    [|discriminate].
  rewrite RunTests_without_coverage.
  pose proof (started_events_kind config h) as Hs.
  assert (Hs' : filter is_test_event (started_events config h) = [])
    by (apply (filter_only from_session); [now intros [] | exact Hs]).
  change (started_events (without_coverage config) h) with (@nil event).
  destruct (RunTests _ _ _ _) as [ran [results elapsed | err |]];
    cbv beta iota zeta.
  - change (coverageEnabled (without_coverage config)) with false.
    assert (Hw : filter is_test_event
                   (fst (if coverageEnabled config
                         then WriteCoverageResults h (coverageDir config)
                                                   (clearCoverage config)
                         else ([], []))) = []).
    { destruct (coverageEnabled config); [|reflexivity].
      apply (filter_only from_writing); [now intros []|].
      apply WriteCoverageResults_events. }
    destruct (if coverageEnabled config then _ else _) as [written cleared].
    simpl in Hw. cbv beta iota zeta.
    destruct (aggregate _ _ _) as [err | [reported failedModules]];
      unfold trace; simpl; rewrite !filter_app, Hs', Hw; reflexivity.
  - unfold trace. simpl. now rewrite !filter_app, Hs'.
  - unfold trace. simpl. now rewrite !filter_app, Hs'.
Qed.

(** A covered run over a coverage directory that holds only the sentinel,
    with a disk that is full. *)
Lemma coverage_never_changes_the_tests_sample :
  let config := with_coverage sample_config in
  let h := clean_and_full (sample_host pass_and_fail) in
  snd (StartCoverage h) = Fulfilled /\
  snd (ClearCoverageDirectory h (coverageDir config)) = Fulfilled /\
  In (Error (OtherError "ENOSPC")) (trace (jester config h)) /\
  final (jester config h) = final (jester (without_coverage config) h) /\
  filter is_test_event (trace (jester config h))
  = filter is_test_event (trace (jester (without_coverage config) h)).
Proof.
  intros config h. split; [reflexivity|]. split; [reflexivity|].
  split; [simpl; intuition|].
  apply (coverage_never_changes_the_tests config h); reflexivity.
Defined.

(** X21. With coverage disabled nothing is posted to the inspector, no
    file is written or removed and no clearing is started. *)
Theorem without_coverage_nothing_is_posted_or_written :
  forall (config : Configure) (h : host),
    coverageEnabled config = false ->
    detached (jester config h) = [] /\
    forall e, In e (trace (jester config h)) -> touches_coverage e = false.
Proof.
  intros config h Hcov.
  assert (H : detached (jester config h) = [] /\
              only (fun e => negb (touches_coverage e))
                   (trace (jester config h))).
  { unfold jester. destruct (exitAfter config); [split; reflexivity|].
    pose proof (discover_events (excludeDirs config) (cwd h) (root h)
                  (testDirs config) nothing_found eq_refl) as Hlog.
    destruct (discover _ _ _ _ _) as [st [|err]]; simpl in Hlog.
    - assert (Hl : only (fun e => negb (touches_coverage e)) (log st))
        by (eapply only_weaken; [|exact Hlog]; now intros []).
      rewrite (test_and_report_started config h);
        [|rewrite Hcov; discriminate].
      unfold started_events. rewrite Hcov.
      pose proof (RunTests_events (testModules st) config
                    (fst (performance_now h)) (snd (performance_now h)))
        as Hr.
      destruct (RunTests _ _ _ _) as [ran [results elapsed | err |]];
        simpl in Hr; cbv beta iota zeta.
      + assert (Hran : only (fun e => negb (touches_coverage e)) ran)
          by (eapply only_weaken; [|exact Hr]; now intros []).
        destruct (aggregate _ _ _) as [err | [reported failedModules]] eqn:A;
          simpl; (split; [reflexivity|]).
        * apply only_app. split; [exact Hl|].
          change (only (fun e => negb (touches_coverage e))
                       ([Connect] ++ ran ++ [Disconnect])).
          kinds.
        * apply aggregate_events in A.
          assert (Hrep : only (fun e => negb (touches_coverage e)) reported)
            by (eapply only_weaken; [|exact A]; now intros []).
          apply only_app. split; [exact Hl|].
          change (only (fun e => negb (touches_coverage e))
                       (([Connect] ++ ran ++ [Disconnect]) ++ reported)).
          kinds.
      + assert (Hran : only (fun e => negb (touches_coverage e)) ran)
          by (eapply only_weaken; [|exact Hr]; now intros []).
        simpl. split; [reflexivity|]. apply only_app. split; [exact Hl|].
        change (only (fun e => negb (touches_coverage e))
                     ([Connect] ++ ran ++ [Error err])).
        kinds.
      + assert (Hran : only (fun e => negb (touches_coverage e)) ran)
          by (eapply only_weaken; [|exact Hr]; now intros []).
        simpl. split; [reflexivity|]. apply only_app. split; [exact Hl|].
        change (only (fun e => negb (touches_coverage e)) ([Connect] ++ ran)).
        kinds.
    - simpl. split; [reflexivity|]. apply only_app. split; [|reflexivity].
      eapply only_weaken; [|exact Hlog]. now intros []. }
  destruct H as [Hd Ht]. split; [exact Hd|].
  intros e He. apply (only_In _ _ _ Ht) in He. now apply negb_true_iff.
Qed.

Lemma without_coverage_nothing_is_posted_or_written_sample :
  let run := jester sample_config (sample_host pass_and_fail) in
  coverageEnabled sample_config = false /\
  detached run = [] /\
  forall e, In e (trace run) -> touches_coverage e = false.
Proof.
  intros run. split; [reflexivity|].
  apply (without_coverage_nothing_is_posted_or_written
           sample_config (sample_host pass_and_fail)).
  reflexivity.
Defined.

(** X22. When the snapshot cannot be taken, the error is logged,
    nothing is written, nothing is removed even if clearing was requested,
    and the process ends as it does without coverage. *)
Theorem without_a_snapshot_nothing_is_written_or_removed :
  forall (config : Configure) (h : host) (st : discovery)
         (ran : list event) (results : list AssertionResult) (elapsed : Z)
         (err : exn),
    exitAfter config = false ->
    discover (excludeDirs config) (cwd h) (root h) (testDirs config)
             nothing_found = (st, Fulfilled) ->
    coverageEnabled config = true ->
    snd (StartCoverage h) = Fulfilled ->
    RunTests (testModules st) config (fst (performance_now h))
             (snd (performance_now h)) = (ran, RunResolved results elapsed) ->
    profiler_takePreciseCoverage h = inl err ->
    let run := jester config h in
    writes (trace run ++ detached run) = [] /\
    unlinked (trace run ++ detached run) = [] /\
    In (Error err) (trace run) /\
    final run = final (jester (without_coverage config) h).
Proof.
  intros config h st ran results elapsed err Hexit Hdisc Hcov Hstart Hrun
         Htake run.
  destruct (jester_resolved config h st ran results elapsed Hexit Hdisc
              (fun _ => Hstart) Hrun)
    as (reported & Htrace & Hrep & Hdet & _).
  fold run in Htrace, Hdet. rewrite Hcov in Htrace, Hdet.
  rewrite (no_snapshot_no_write h _ _ err Htake) in Htrace, Hdet.
  simpl in Htrace, Hdet.
  pose proof (discovered_log config h st _ Hdisc) as Hd.
  pose proof (started_events_kind config h) as Hs.
  pose proof (RunTests_events (testModules st) config
                (fst (performance_now h)) (snd (performance_now h))) as Hr.
  rewrite Hrun in Hr. simpl in Hr.
  rewrite Hdet, app_nil_r, Htrace.
  split; [|split; [|split]].
  - repeat (rewrite ?writes_app, ?writes_cons; cbn [is_write]).
    rewrite (writes_only from_discovery (log st)); [|now intros []|exact Hd].
    rewrite (writes_only from_session (started_events config h));
      [|now intros []|exact Hs].
    rewrite (writes_only from_unit ran); [|now intros []|exact Hr].
    rewrite (writes_only is_summary reported); [|now intros []|exact Hrep].
    reflexivity.
  - repeat (rewrite ?unlinked_app, ?unlinked_cons; cbn iota).
    rewrite (unlinked_only from_discovery (log st)); [|now intros []|exact Hd].
    rewrite (unlinked_only from_session (started_events config h));
      [|now intros []|exact Hs].
    rewrite (unlinked_only from_unit ran); [|now intros []|exact Hr].
    rewrite (unlinked_only is_summary reported); [|now intros []|exact Hrep].
    reflexivity.
  - apply in_or_app. right. right. apply in_or_app. right.
    apply in_or_app. right. right. now left.
  - apply coverage_after_start_keeps_status. intros _. exact Hstart.
Qed.

Lemma without_a_snapshot_nothing_is_written_or_removed_sample :
  let config := with_coverage sample_config in
  let h := without_snapshot (sample_host pass_and_fail) in
  let run := jester config h in
  writes (trace run ++ detached run) = [] /\
  unlinked (trace run ++ detached run) = [] /\
  In (Error (OtherError "no snapshot")) (trace run) /\
  final run = Done 1.
Proof.
  intros config h run.
  destruct (without_a_snapshot_nothing_is_written_or_removed config h
              (fst (discover (excludeDirs config) (cwd h) (root h)
                             (testDirs config) nothing_found))
              (fst (RunTests
                      [loaded_as "a.js" [("one"%string, passing)];
                       loaded_as "b.js" [("one"%string, violated)]]
                      config 0 7))
              [result_of "a.js" "one" true; result_of "b.js" "one" false]
              7 (OtherError "no snapshot"))
    as (Hw & Hu & He & Hf); try reflexivity.
  repeat split; assumption.
Defined.

(** X23. In a run with coverage enabled that resolves and obtains a
    snapshot, the script asks exactly once for a file to be written:
    [coverage-<Date.now()>.json] in the coverage directory, with the
    snapshot as its content, whether or not the clearing was started. *)
Theorem one_snapshot_is_requested :
  forall (config : Configure) (h : host) (st : discovery)
         (ran : list event) (results : list AssertionResult) (elapsed : Z)
         (data : string),
    exitAfter config = false ->
    discover (excludeDirs config) (cwd h) (root h) (testDirs config)
             nothing_found = (st, Fulfilled) ->
    coverageEnabled config = true ->
    snd (StartCoverage h) = Fulfilled ->
    RunTests (testModules st) config (fst (performance_now h))
             (snd (performance_now h)) = (ran, RunResolved results elapsed) ->
    profiler_takePreciseCoverage h = inr data ->
    let run := jester config h in
    writes (trace run ++ detached run)
    = [WriteFile (snapshot_file config h) data].
Proof.
  intros config h st ran results elapsed data Hexit Hdisc Hcov Hstart Hrun
         Htake run.
  destruct (jester_resolved config h st ran results elapsed Hexit Hdisc
              (fun _ => Hstart) Hrun)
    as (reported & Htrace & Hrep & Hdet & _).
  fold run in Htrace, Hdet. rewrite Hcov in Htrace, Hdet.
  pose proof (discovered_log config h st _ Hdisc) as Hd.
  pose proof (started_events_kind config h) as Hs.
  pose proof (RunTests_events (testModules st) config
                (fst (performance_now h)) (snd (performance_now h))) as Hr.
  rewrite Hrun in Hr. simpl in Hr.
  assert (Hwritten :
            fst (WriteCoverageResults h (coverageDir config)
                   (clearCoverage config))
            = [Post "Profiler.takePreciseCoverage";
               Debug ("Writing " ++ snapshot_file config h);
               WriteFile (snapshot_file config h) data]
                ++ match writeFile_error h with
                   | Some err => [Error err]
                   | None => []
                   end).
  { unfold WriteCoverageResults. rewrite Htake. reflexivity. }
  rewrite Hwritten in Htrace.
  rewrite writes_app, Htrace.
  repeat (rewrite ?writes_app, ?writes_cons; cbn [is_write]).
  rewrite (writes_only from_discovery (log st)); [|now intros []|exact Hd].
  rewrite (writes_only from_session (started_events config h));
    [|now intros []|exact Hs].
  rewrite (writes_only from_unit ran); [|now intros []|exact Hr].
  rewrite (writes_only is_summary reported); [|now intros []|exact Hrep].
  rewrite Hdet.
  destruct (WriteCoverageResults_detached h (coverageDir config)
              (clearCoverage config)) as [-> | ->];
    now destruct (writeFile_error h).
Qed.

(** A covered run of [a.js] and [b.js]. *)
Lemma one_snapshot_is_requested_sample :
  let config := with_coverage sample_config in
  let h := sample_host pass_and_fail in
  let run := jester config h in
  writes (trace run ++ detached run)
  = [WriteFile "coverage/coverage-1700000000000.json" "{}"].
Proof.
  intros config h run.
  apply (one_snapshot_is_requested config h
           (fst (discover (excludeDirs config) (cwd h) (root h)
                          (testDirs config) nothing_found))
           (fst (RunTests
                   [loaded_as "a.js" [("one"%string, passing)];
                    loaded_as "b.js" [("one"%string, violated)]]
                   config 0 7))
           [result_of "a.js" "one" true; result_of "b.js" "one" false]
           7 "{}"%string); reflexivity.
Defined.
